(** * go-tcpws: a WebSocket-like framing over a raw byte stream

    Shallow embedding of the frame codec (frame.go), the frame handler and
    the connection (conn.go), followed by the properties of the
    specification that are stated about them.

    Conventions.
    - A Go [byte] is a [Z] in [0, 256); [int] and [int64] are [Z], with the
      two's-complement wrap-around written out ([wrap64]) wherever a value
      decoded from the wire enters the arithmetic.  Lengths of slices held
      in memory are far below 2^63 and are added exactly.
    - A Go result pair [(v, err)] is a pair whose second component is an
      [option error]; [None] is Go's [nil] error.
    - The buffered reader and writer, the stream under them and the random
      source are one explicit state, [World], threaded through every call.
    - A run-time panic and the exhaustion of a loop bound are outcomes of
      their own ([outcome]). *)

From Stdlib Require Import ZArith List Lia Bool Arith.
Import ListNotations.
Open Scope Z_scope.

(** ** Errors *)

Inductive error : Type :=
| EOF                 (* io.EOF *)
| ErrBadPreambule
| ErrBadHeader
| ErrBadMaskingKey
| ErrFrameTooLarge
| errSetDeadline
| ErrRand             (* failure of crypto/rand *)
| ErrIO (code : nat). (* any other error of the underlying stream *)

Definition is_EOF (e : option error) : bool :=
  match e with
  | Some EOF => true
  | _ => false
  end.

(** ** Outcomes of a call *)

Inductive outcome (A : Type) : Type :=
| Returns (a : A)
| Panics        (* failed type assertion, index out of range *)
| OutOfFuel.    (* the bound put on a [for] loop was reached *)

Arguments Returns {A} a.
Arguments Panics {A}.
Arguments OutOfFuel {A}.

Definition bind {A B : Type} (m : outcome A) (k : A -> outcome B) : outcome B :=
  match m with
  | Returns a => k a
  | Panics => Panics
  | OutOfFuel => OutOfFuel
  end.

Notation "x <- m ;; k" := (bind m (fun x => k))
  (at level 61, m at next level, right associativity).
Notation "' p <- m ;; k" := (bind m (fun x => let 'p := x in k))
  (at level 61, p pattern, m at next level, right associativity).

(** ** Constants of frame.go and conn.go *)

Definition ContinuationFrame : Z := 0.
Definition TextFrame : Z := 1.
Definition BinaryFrame : Z := 2.
Definition CloseFrame : Z := 8.
Definition UnknownFrame : Z := 255.

Definition DefaultMaxPayloadBytes : Z := Z.shiftl 32 20.

Definition maxHeaderLengthWithPreambule : Z := 18.
Definition minHeaderLengthWithPreambule : Z := 6.

Definition preambule : list Z := [0x5A; 0xA5; 0x5A; 0xA5].

Definition closeStatusNormal : Z := 1000.
Definition closeStatusGoingAway : Z := 1001.
Definition closeStatusProtocolError : Z := 1002.
Definition closeStatusUnsupportedData : Z := 1003.
Definition closeStatusFrameTooLarge : Z := 1004.
Definition closeStatusNoStatusRcvd : Z := 1005.
Definition closeStatusAbnormalClosure : Z := 1006.
Definition closeStatusBadMessageData : Z := 1007.
Definition closeStatusPolicyViolation : Z := 1008.
Definition closeStatusTooBigData : Z := 1009.
Definition closeStatusExtensionMismatch : Z := 1010.

(** ** Machine integers *)

Definition is_byte (b : Z) : Prop := 0 <= b < 256.

Definition max_int64 : Z := 2 ^ 63 - 1.

(** The value of an [int64] (and of an [int], on 64-bit targets) after an
    arithmetic operation whose exact result is [z]. *)
Definition wrap64 (z : Z) : Z := (z + 2 ^ 63) mod 2 ^ 64 - 2 ^ 63.

(** [byte(v >> (8*i))] for [i = n-1 .. 0]: the big-endian bytes that
    [binary.BigEndian.AppendUint16] ([n = 2]) and [AppendUint64] ([n = 8])
    append. *)
Fixpoint big_endian (n : nat) (v : Z) : list Z :=
  match n with
  | O => []
  | S n' => Z.land (Z.shiftr v (8 * Z.of_nat n')) 0xff :: big_endian n' v
  end.

(** [uint16(x)] and [uint64(x)] of an [int]. *)
Definition uint16 (x : Z) : Z := x mod 2 ^ 16.
Definition uint64 (x : Z) : Z := x mod 2 ^ 64.

Definition AppendUint16 (b : list Z) (v : Z) : list Z := b ++ big_endian 2 v.
Definition AppendUint64 (b : list Z) (v : Z) : list Z := b ++ big_endian 8 v.

(** ** The world: stream, buffers, random source

    The stream is the [io.ReadWriteCloser] under the connection.  It is
    modelled as the repository's tests use it, a byte buffer that is read
    from the front and written at the back, extended with the failures a
    real stream has:
    - [wire]: the bytes written and not yet read (what the stream holds and
      what [bufio.Reader] has already fetched, in order);
    - [read_end]: the error a read reports once [wire] is empty ([EOF] for
      a byte buffer);
    - [short]: a schedule of short reads, consumed one entry per read of a
      block: entry [c] lets the read return at most [c + 1] bytes.  A read
      returns less than was asked when the stream delivers less, and also
      when the buffer of [bufio.Reader], of 4096 bytes, holds less: a run
      of the code follows some schedule, and the empty schedule stands for
      reads that nothing cuts short;
    - [pending]: the bytes held by [bufio.Writer] before a flush;
    - [bw_err]: the sticky error of [bufio.Writer];
    - [write_room]: [Some (k, e)] when the stream accepts [k] more bytes and
      then fails with [e]; [None] when it never fails;
    - [close_err]: what the stream's [Close] returns; [closed]: whether it
      was called;
    - [entropy]: the bytes crypto/rand will deliver. *)

Record World : Type := mkWorld {
  wire : list Z;
  read_end : error;
  short : list nat;
  pending : list Z;
  bw_err : option error;
  write_room : option (nat * error);
  close_err : option error;
  closed : bool;
  entropy : list Z
}.

Definition set_read (bs : list Z) (sh : list nat) (w : World) : World :=
  mkWorld bs (read_end w) sh (pending w) (bw_err w) (write_room w)
          (close_err w) (closed w) (entropy w).

Definition set_pending (p : list Z) (w : World) : World :=
  mkWorld (wire w) (read_end w) (short w) p (bw_err w) (write_room w)
          (close_err w) (closed w) (entropy w).

Definition set_flushed (bs p : list Z) (e : option error)
    (room : option (nat * error)) (w : World) : World :=
  mkWorld bs (read_end w) (short w) p e room
          (close_err w) (closed w) (entropy w).

Definition set_closed (w : World) : World :=
  mkWorld (wire w) (read_end w) (short w) (pending w) (bw_err w) (write_room w)
          (close_err w) true (entropy w).

Definition set_entropy (en : list Z) (w : World) : World :=
  mkWorld (wire w) (read_end w) (short w) (pending w) (bw_err w) (write_room w)
          (close_err w) (closed w) en.

(** *** bufio.Reader *)

(** [bufio.Reader.ReadByte]. *)
Definition ReadByte (w : World) : (Z * option error) * World :=
  match wire w with
  | [] => ((0, Some (read_end w)), w)
  | b :: rest => ((b, None), set_read rest (short w) w)
  end.

(** [bufio.Reader.Read] into a buffer of [want] bytes: nothing for an
    empty buffer, the stream's error when no byte is left, and otherwise at
    least one byte and at most what is asked, available and scheduled; the
    bound that the reader's own buffer puts on a read is part of the
    schedule. *)
Definition bufio_Read (want : nat) (w : World) : (list Z * option error) * World :=
  match want with
  | O => (([], None), w)
  | S _ =>
    match wire w with
    | [] => (([], Some (read_end w)), w)
    | _ :: _ =>
      let k := match short w with
               | [] => want
               | c :: _ => Nat.min want (S c)
               end in
      ((firstn k (wire w), None), set_read (skipn k (wire w)) (tl (short w)) w)
    end
  end.

(** [io.LimitedReader.Read], the reader [io.LimitReader] returns; [N] is
    its remaining count. *)
Definition LimitedReader_Read (N : Z) (want : nat) (w : World)
    : (list Z * option error) * Z * World :=
  if N <=? 0 then (([], Some EOF), N, w)
  else
    let want' := if N <? Z.of_nat want then Z.to_nat N else want in
    let '((bs, err), w') := bufio_Read want' w in
    ((bs, err), N - Z.of_nat (length bs), w').

(** *** bufio.Writer over the stream *)

(** The stream's [Write]. *)
Definition rwc_Write (p : list Z) (w : World)
    : (nat * option error) * (list Z * option (nat * error)) :=
  match write_room w with
  | None => ((length p, None), (wire w ++ p, None))
  | Some (k, e) =>
    if (length p <=? k)%nat
    then ((length p, None), (wire w ++ p, Some ((k - length p)%nat, e)))
    else ((k, Some e), (wire w ++ firstn k p, Some (O, e)))
  end.

(** [bufio.Writer.Write]: the bytes are held until the flush.  (The
    library also passes a full buffer on early; the bytes reach the stream
    in the same order and the first failure is kept in the same way.) *)
Definition bufio_Write (p : list Z) (w : World) : (nat * option error) * World :=
  match bw_err w with
  | Some e => ((O, Some e), w)
  | None => ((length p, None), set_pending (pending w ++ p) w)
  end.

(** [bufio.Writer.Flush]. *)
Definition bufio_Flush (w : World) : option error * World :=
  match bw_err w with
  | Some e => (Some e, w)
  | None =>
    match pending w with
    | [] => (None, w)
    | _ :: _ =>
      let '((n, err), (bs, room)) := rwc_Write (pending w) w in
      match err with
      | Some e => (Some e, set_flushed bs (skipn n (pending w)) (Some e) room w)
      | None => (None, set_flushed bs [] None room w)
      end
    end
  end.

(** The stream's [Close]. *)
Definition rwc_Close (w : World) : option error * World :=
  (close_err w, set_closed w).

(** [crypto/rand.Read] into a buffer of [n] zero bytes. *)
Definition rand_Read (n : nat) (w : World) : (list Z * option error) * World :=
  if (n <=? length (entropy w))%nat
  then ((firstn n (entropy w), None), set_entropy (skipn n (entropy w)) w)
  else ((repeat 0 n, Some ErrRand), w).

(** ** frame.go: header, frame reader *)

Record tcpFrameHeader : Type := mkHeader {
  Fin : bool;
  Rsv : bool * bool * bool;
  OpCode : Z;
  Length : Z;
  MaskingKey : option (list Z);
  data : option (list Z)
}.

Definition Rsv_at (h : tcpFrameHeader) (i : nat) : bool :=
  let '(r0, r1, r2) := Rsv h in
  match i with
  | O => r0
  | S O => r1
  | _ => r2
  end.

(** [reader] is the [io.LimitReader] over the connection's buffered reader,
    kept as its remaining count [limit]. *)
Record tcpFrameReader : Type := mkReader {
  limit : Z;
  header : tcpFrameHeader;
  pos : Z;
  length_ : Z
}.

(** [msg[i] ^= key[pos%4]; pos++] over the bytes [bs]; [None] when an index
    is out of the key's range. *)
Fixpoint xor_key (key : list Z) (p : Z) (bs : list Z) : option (list Z) :=
  match bs with
  | [] => Some []
  | b :: bs' =>
    match nth_error key (Z.to_nat (p mod 4)), xor_key key (p + 1) bs' with
    | Some k, Some out => Some (Z.lxor b k :: out)
    | _, _ => None
    end
  end.

(** [tcpFrameReader.Read]. *)
Definition tcpFrameReader_Read (frame : tcpFrameReader) (want : nat) (w : World)
    : outcome ((list Z * option error) * tcpFrameReader * World) :=
  let '((bs, err), N, w') := LimitedReader_Read (limit frame) want w in
  match MaskingKey (header frame) with
  | Some key =>
    match xor_key key (pos frame) bs with
    | Some msg =>
      Returns ((msg, err),
               mkReader N (header frame) (pos frame + Z.of_nat (length bs)) (length_ frame),
               w')
    | None => Panics
    end
  | None => Returns ((bs, err), mkReader N (header frame) (pos frame) (length_ frame), w')
  end.

Definition tcpFrameReader_PayloadType (frame : tcpFrameReader) : Z :=
  OpCode (header frame).

Definition tcpFrameReader_HeaderReader (frame : tcpFrameReader) : option (list Z) :=
  match data (header frame) with
  | None => None
  | Some [] => None
  | Some d => Some d
  end.

Definition tcpFrameReader_Len (frame : tcpFrameReader) : Z := length_ frame.

(** *** tcpFrameReaderFactory.NewFrameReader *)

(** The loop over the preamble. *)
Fixpoint check_preambule (ps : list Z) (w : World) : option error * World :=
  match ps with
  | [] => (None, w)
  | p :: ps' =>
    let '((b, err), w1) := ReadByte w in
    match err with
    | Some e => (Some e, w1)
    | None => if b =? p then check_preambule ps' w1 else (Some ErrBadPreambule, w1)
    end
  end.

(** The loop over the [lengthFields] bytes of the extended length. *)
Fixpoint read_length (n : nat) (hdr : list Z) (len : Z) (w : World)
    : (list Z * Z * option error) * World :=
  match n with
  | O => ((hdr, len, None), w)
  | S n' =>
    let '((b, err), w1) := ReadByte w in
    match err with
    | Some e => ((hdr, len, Some e), w1)
    | None => read_length n' (hdr ++ [b]) (wrap64 (len * 256 + b)) w1
    end
  end.

(** The loop over the four bytes of the masking key. *)
Fixpoint read_mask (n : nat) (hdr key : list Z) (w : World)
    : (list Z * list Z * option error) * World :=
  match n with
  | O => ((hdr, key, None), w)
  | S n' =>
    let '((b, err), w1) := ReadByte w in
    match err with
    | Some e => ((hdr, key, Some e), w1)
    | None => read_mask n' (hdr ++ [b]) (key ++ [b]) w1
    end
  end.

(** The result is [(nil, err)] or [(frame, nil)]. *)
Definition NewFrameReader (w : World) : (tcpFrameReader + error) * World :=
  let '(err, w) := check_preambule preambule w in
  match err with
  | Some e => (inr e, w)
  | None =>
    let '((b, err), w) := ReadByte w in
    match err with
    | Some e => (inr e, w)
    | None =>
      let hdr := [b] in
      let fin := negb (Z.land b 0x80 =? 0) in
      let rsv := (negb (Z.land (Z.shiftr b 6) 1 =? 0),
                  negb (Z.land (Z.shiftr b 5) 1 =? 0),
                  negb (Z.land (Z.shiftr b 4) 1 =? 0)) in
      let opcode := Z.land b 0x0f in
      let '((b, err), w) := ReadByte w in
      match err with
      | Some e => (inr e, w)
      | None =>
        let hdr := hdr ++ [b] in
        let mask := negb (Z.land b 0x80 =? 0) in
        let b := Z.land b 0x7f in
        let '(len, lengthFields) :=
          if b <=? 125 then (b, O)
          else if b =? 126 then (0, 2%nat)
          else if b =? 127 then (0, 8%nat)
          else (0, O) in
        let '((hdr, len, err), w) := read_length lengthFields hdr len w in
        match err with
        | Some e => (inr e, w)
        | None =>
          let '((hdr, key, err), w) :=
            if mask then read_mask 4 hdr [] w else ((hdr, [], None), w) in
          match err with
          | Some e => (inr e, w)
          | None =>
            (inl (mkReader len
                    (mkHeader fin rsv opcode len
                       (if mask then Some key else None) (Some hdr))
                    0
                    (wrap64 (Z.of_nat (length hdr) + len))),
             w)
          end
        end
      end
    end
  end.

(** ** frame.go: frame writer *)

Record tcpFrameWriter : Type := mkWriter {
  writer_header : tcpFrameHeader
}.

(** [tcpFrameWriter.Close]. *)
Definition tcpFrameWriter_Close (frame : tcpFrameWriter) : option error := None.

(** The first header byte: fin, the three reserved bits, the opcode. *)
Definition first_byte (h : tcpFrameHeader) : Z :=
  let b := if Fin h then 0x80 else 0 in
  let b := if Rsv_at h 0 then Z.lor b (Z.shiftl 1 6) else b in
  let b := if Rsv_at h 1 then Z.lor b (Z.shiftl 1 5) else b in
  let b := if Rsv_at h 2 then Z.lor b (Z.shiftl 1 4) else b in
  Z.lor b (OpCode h).

(** The header bytes [tcpFrameWriter.Write] builds for a payload of
    [len] bytes, before the masking key is appended. *)
Definition build_header (h : tcpFrameHeader) (len : Z) : list Z :=
  let hdr := [first_byte h] in
  let b := match MaskingKey h with
           | Some _ => 0x80
           | None => 0x00
           end in
  let '(b, lengthFields) :=
    if len <=? 125 then (Z.lor b (len mod 256), 0)
    else if len <? 65536 then (Z.lor b 126, 2)
    else (Z.lor b 127, 8) in
  let hdr := hdr ++ [b] in
  let hdr := if lengthFields =? 2 then AppendUint16 hdr (uint16 len) else hdr in
  let hdr := if lengthFields =? 8 then AppendUint64 hdr (uint64 len) else hdr in
  hdr.

(** The three writes and the flush that end both branches of
    [tcpFrameWriter.Write]; the results of the writes are dropped. *)
Definition emit (hdr payload : list Z) (w : World) : option error * World :=
  let '(_, w) := bufio_Write preambule w in
  let '(_, w) := bufio_Write hdr w in
  let '(_, w) := bufio_Write payload w in
  bufio_Flush w.

(** [tcpFrameWriter.Write]. *)
Definition tcpFrameWriter_Write (frame : tcpFrameWriter) (msg : list Z) (w : World)
    : outcome ((Z * option error) * World) :=
  let h := writer_header frame in
  let hdr := build_header h (Z.of_nat (length msg)) in
  match MaskingKey h with
  | Some key =>
    if negb (length key =? 4)%nat then Returns ((0, Some ErrBadMaskingKey), w)
    else
      let hdr := hdr ++ key in
      match xor_key key 0 msg with
      | None => Panics
      | Some payload =>
        let '(err, w) := emit hdr payload w in
        Returns ((Z.of_nat (length preambule) + Z.of_nat (length hdr)
                  + Z.of_nat (length msg), err), w)
      end
  | None =>
    let '(err, w) := emit hdr msg w in
    Returns ((Z.of_nat (length preambule) + Z.of_nat (length hdr)
              + Z.of_nat (length msg), err), w)
  end.

(** [generateMaskingKey]. *)
Definition generateMaskingKey (w : World) : (list Z * option error) * World :=
  rand_Read 4 w.

Record tcpFrameWriterFactory : Type := mkWriterFactory {
  needMaskingKey : bool
}.

(** [tcpFrameWriterFactory.NewFrameWriter]; the result is [(nil, err)] or
    [(writer, nil)]. *)
Definition NewFrameWriter (buf : tcpFrameWriterFactory) (payloadType : Z) (w : World)
    : (tcpFrameWriter + error) * World :=
  let frameHeader := mkHeader true (false, false, false) payloadType 0 None None in
  if needMaskingKey buf then
    let '((key, err), w) := generateMaskingKey w in
    match err with
    | Some e => (inr e, w)
    | None =>
      (inl (mkWriter (mkHeader true (false, false, false) payloadType 0 (Some key) None)), w)
    end
  else (inl (mkWriter frameHeader), w).

(** ** The interfaces of conn.go

    A [frameReader] value is either the codec's [*tcpFrameReader] or a value
    of some other type [X] that implements the interface; the type
    assertion to the codec type is the match on this sum. *)

Class FrameReaderOps (X : Type) : Type := {
  other_Read : X -> nat -> World -> outcome ((list Z * option error) * X * World);
  other_PayloadType : X -> Z;
  other_HeaderReader : X -> option (list Z);
  other_Len : X -> Z
}.

Inductive frameReader (X : Type) : Type :=
| TcpFrame (r : tcpFrameReader)
| OtherFrame (x : X).

Arguments TcpFrame {X} r.
Arguments OtherFrame {X} x.

Section FrameReader.
Context {X : Type} {XOps : FrameReaderOps X}.

Definition frame_Read (frame : frameReader X) (want : nat) (w : World)
    : outcome ((list Z * option error) * frameReader X * World) :=
  match frame with
  | TcpFrame r =>
    '(res, r', w') <- tcpFrameReader_Read r want w ;;
    Returns (res, TcpFrame r', w')
  | OtherFrame x =>
    '(res, x', w') <- other_Read x want w ;;
    Returns (res, OtherFrame x', w')
  end.

Definition frame_PayloadType (frame : frameReader X) : Z :=
  match frame with
  | TcpFrame r => tcpFrameReader_PayloadType r
  | OtherFrame x => other_PayloadType x
  end.

Definition frame_Len (frame : frameReader X) : Z :=
  match frame with
  | TcpFrame r => tcpFrameReader_Len r
  | OtherFrame x => other_Len x
  end.

(** [io.Copy(io.Discard, frame)]: reads blocks of 8192 bytes until an
    error; [EOF] is success. *)
Definition discard_block : nat := Z.to_nat 8192.

Fixpoint io_Copy_Discard (fuel : nat) (frame : frameReader X) (w : World)
    : outcome (option error * frameReader X * World) :=
  match fuel with
  | O => OutOfFuel
  | S fuel' =>
    '((_, err), frame', w') <- frame_Read frame discard_block w ;;
    match err with
    | Some e => Returns ((if is_EOF err then None else Some e), frame', w')
    | None => io_Copy_Discard fuel' frame' w'
    end
  end.

(** [io.ReadAll(frame)]: appends what each read returns until an error;
    [EOF] is success.  The library offers the free tail of its buffer,
    512 bytes at the start; here every read is offered 512. *)
Definition readall_block : nat := 512.

Fixpoint io_ReadAll (fuel : nat) (acc : list Z) (frame : frameReader X) (w : World)
    : outcome ((list Z * option error) * frameReader X * World) :=
  match fuel with
  | O => OutOfFuel
  | S fuel' =>
    '((bs, err), frame', w') <- frame_Read frame readall_block w ;;
    match err with
    | Some e => Returns ((acc ++ bs, if is_EOF err then None else Some e), frame', w')
    | None => io_ReadAll fuel' (acc ++ bs) frame' w'
    end
  end.

(** The frame handler interface. *)
Class FrameHandlerOps (H : Type) : Type := {
  HandleFrame : H -> frameReader X
                -> outcome ((option (frameReader X) * option error) * H);
  WriteClose : H -> tcpFrameWriterFactory -> Z -> World
               -> outcome (option error * H * World)
}.

(** ** frame.go: the frame handler *)

Record tcpFrameHandler : Type := mkHandler {
  payloadType : Z
}.

Definition set_OpCode (op : Z) (r : tcpFrameReader) : tcpFrameReader :=
  let h := header r in
  mkReader (limit r)
    (mkHeader (Fin h) (Rsv h) op (Length h) (MaskingKey h) (data h))
    (pos r) (length_ r).

(** [tcpFrameHandler.HandleFrame]. *)
Definition tcpFrameHandler_HandleFrame (handler : tcpFrameHandler)
    (frame : frameReader X)
    : outcome ((option (frameReader X) * option error) * tcpFrameHandler) :=
  let pt := frame_PayloadType frame in
  if pt =? ContinuationFrame then
    match frame with
    | TcpFrame r =>
      Returns ((Some (TcpFrame (set_OpCode (payloadType handler) r)), None), handler)
    | OtherFrame _ => Panics
    end
  else if (pt =? TextFrame) || (pt =? BinaryFrame) then
    Returns ((Some frame, None), mkHandler pt)
  else if pt =? CloseFrame then
    Returns ((None, Some EOF), handler)
  else Returns ((Some frame, None), handler).

(** [tcpFrameHandler.WriteClose]. *)
Definition tcpFrameHandler_WriteClose (handler : tcpFrameHandler)
    (writerFactory : tcpFrameWriterFactory) (status : Z) (w : World)
    : outcome (option error * tcpFrameHandler * World) :=
  let '(res, w) := NewFrameWriter writerFactory CloseFrame w in
  match res with
  | inr e => Returns (Some e, handler, w)
  | inl writer =>
    '((_, err), w) <- tcpFrameWriter_Write writer (AppendUint16 [] (uint16 status)) w ;;
    Returns (err, handler, w)
  end.

#[export] Instance tcpFrameHandlerOps : FrameHandlerOps tcpFrameHandler := {
  HandleFrame := tcpFrameHandler_HandleFrame;
  WriteClose := tcpFrameHandler_WriteClose
}.

(** ** conn.go: the connection

    A connection as [NewFrameConnection] builds it: the codec's reader and
    writer factories over the buffers of the world, and a frame handler
    that the caller supplies. *)

Section Connection.
Context {H : Type} {HOps : FrameHandlerOps H}.

Record Conn : Type := mkConn {
  conn_frameReader : option (frameReader X);
  conn_frameWriterFactory : tcpFrameWriterFactory;
  conn_frameHandler : H;
  PayloadType : Z;
  defaultCloseStatus : Z;
  MaxPayloadBytes : Z
}.

Definition set_frameReader (fr : option (frameReader X)) (c : Conn) : Conn :=
  mkConn fr (conn_frameWriterFactory c) (conn_frameHandler c)
         (PayloadType c) (defaultCloseStatus c) (MaxPayloadBytes c).

Definition set_handled (fr : option (frameReader X)) (h : H) (c : Conn) : Conn :=
  mkConn fr (conn_frameWriterFactory c) h
         (PayloadType c) (defaultCloseStatus c) (MaxPayloadBytes c).

(** [NewFrameConnection]. *)
Definition NewFrameConnection (handler : H) (maxPayloadBytes : Z) : Conn :=
  mkConn None (mkWriterFactory false) handler 0 closeStatusNormal maxPayloadBytes.

(** [Conn.Read]; [want] is [len(msg)], the bytes returned are
    [msg[:n]]. *)
Fixpoint Conn_Read (fuel : nat) (want : nat) (conn : Conn) (w : World)
    : outcome ((list Z * option error) * Conn * World) :=
  match fuel with
  | O => OutOfFuel
  | S fuel' =>
    let read_active (frame : frameReader X) (conn : Conn) (w : World) :=
      '((bs, err), frame', w') <- frame_Read frame want w ;;
      if is_EOF err
      then Conn_Read fuel' want (set_frameReader None conn) w'
      else Returns ((bs, err), set_frameReader (Some frame') conn, w') in
    match conn_frameReader conn with
    | None =>
      let '(res, w1) := NewFrameReader w in
      match res with
      | inr e => Returns (([], Some e), conn, w1)
      | inl r =>
        '((fr, err), h') <- HandleFrame (conn_frameHandler conn) (TcpFrame r) ;;
        let conn1 := set_handled fr h' conn in
        match err with
        | Some e => Returns (([], Some e), conn1, w1)
        | None =>
          match fr with
          | None => Conn_Read fuel' want conn1 w1
          | Some frame => read_active frame conn1 w1
          end
        end
      end
    | Some frame => read_active frame conn w
    end
  end.

(** The loop of [Conn.ReadFrame]. *)
Fixpoint ReadFrame_loop (fuel : nat) (conn : Conn) (w : World)
    : outcome ((list Z * option error) * Conn * World) :=
  match fuel with
  | O => OutOfFuel
  | S fuel' =>
    let '(res, w1) := NewFrameReader w in
    match res with
    | inr e => Returns (([], Some e), conn, w1)
    | inl r =>
      '((fr, err), h') <- HandleFrame (conn_frameHandler conn) (TcpFrame r) ;;
      let conn1 := set_handled (conn_frameReader conn) h' conn in
      match err with
      | Some e => Returns (([], Some e), conn1, w1)
      | None =>
        match fr with
        | None => ReadFrame_loop fuel' conn1 w1
        | Some frame =>
          let maxPayloadBytes :=
            if MaxPayloadBytes conn1 =? 0 then DefaultMaxPayloadBytes
            else MaxPayloadBytes conn1 in
          let too_large :=
            match frame with
            | TcpFrame r => maxPayloadBytes <? Length (header r)
            | OtherFrame _ => false
            end in
          if too_large then
            '(err, _, w2) <- io_Copy_Discard fuel frame w1 ;;
            match err with
            | Some e => Returns (([], Some e), conn1, w2)
            | None => Returns (([], Some ErrFrameTooLarge), conn1, w2)
            end
          else
            '(res, _, w2) <- io_ReadAll fuel [] frame w1 ;;
            Returns (res, conn1, w2)
        end
      end
    end
  end.

(** [Conn.ReadFrame]. *)
Definition Conn_ReadFrame (fuel : nat) (conn : Conn) (w : World)
    : outcome ((list Z * option error) * Conn * World) :=
  match conn_frameReader conn with
  | Some frame =>
    '(err, frame', w1) <- io_Copy_Discard fuel frame w ;;
    match err with
    | Some e => Returns (([], Some e), set_frameReader (Some frame') conn, w1)
    | None => ReadFrame_loop fuel (set_frameReader None conn) w1
    end
  | None => ReadFrame_loop fuel conn w
  end.

(** [Conn.Write]. *)
Definition Conn_Write (msg : list Z) (conn : Conn) (w : World)
    : outcome ((Z * option error) * Conn * World) :=
  let '(res, w1) := NewFrameWriter (conn_frameWriterFactory conn) (PayloadType conn) w in
  match res with
  | inr e => Returns ((0, Some e), conn, w1)
  | inl wr =>
    '((n, err), w2) <- tcpFrameWriter_Write wr msg w1 ;;
    Returns ((n, err), conn, w2)
  end.

(** [Conn.Close]. *)
Definition Conn_Close (conn : Conn) (w : World)
    : outcome (option error * Conn * World) :=
  '(err, h', w1) <- WriteClose (conn_frameHandler conn)
                      (conn_frameWriterFactory conn) (defaultCloseStatus conn) w ;;
  let '(err1, w2) := rwc_Close w1 in
  let conn' := set_handled (conn_frameReader conn) h' conn in
  match err with
  | Some e => Returns (Some e, conn', w2)
  | None => Returns (err1, conn', w2)
  end.

End Connection.
End FrameReader.

(** ** Drivers and test doubles used by the statements *)

Section Drivers.
Context {X : Type} {XOps : FrameReaderOps X}.

(** The reading loop of the connection test: one [Conn.Read] per buffer
    size, the bytes of each call appended, until a call fails. *)
Fixpoint read_calls {H : Type} {HOps : FrameHandlerOps H}
    (fuel : nat) (sizes : list nat) (conn : Conn) (w : World)
    : outcome ((list Z * option error) * Conn * World) :=
  match sizes with
  | [] => Returns (([], None), conn, w)
  | n :: sizes' =>
    '((bs, err), conn', w') <- Conn_Read fuel n conn w ;;
    match err with
    | Some e => Returns ((bs, Some e), conn', w')
    | None =>
      '((rest, err'), conn'', w'') <- read_calls fuel sizes' conn' w' ;;
      Returns ((bs ++ rest, err'), conn'', w'')
    end
  end.

(** The handler state after a run of codec frames was handled in order,
    whatever each call returned. *)
Fixpoint handle_frames (handler : tcpFrameHandler) (frames : list tcpFrameReader)
    : outcome tcpFrameHandler :=
  match frames with
  | [] => Returns handler
  | r :: frames' =>
    '(_, handler') <- tcpFrameHandler_HandleFrame handler (TcpFrame (X := X) r) ;;
    handle_frames handler' frames'
  end.
End Drivers.

(** The zero value [&tcpFrameHandler{}], the handler the tests build. *)
Definition zero_tcpFrameHandler : tcpFrameHandler := mkHandler 0.

(** The number of header bytes after the preamble for a payload of [len]
    bytes: two, the extended length, the masking key. *)
Definition header_width (masked : bool) (len : Z) : Z :=
  2 + (if len <=? 125 then 0 else if len <? 65536 then 2 else 8)
    + (if masked then 4 else 0).

(** The bytes of the frame a writer produces for opcode [op], optional
    masking key [key] and payload [msg]. *)
Definition frame_bytes (op : Z) (key : option (list Z)) (msg : list Z) : list Z :=
  let h := mkHeader true (false, false, false) op 0 key None in
  preambule ++ build_header h (Z.of_nat (length msg))
  ++ match key with
     | Some k => k ++ match xor_key k 0 msg with
                      | Some m => m
                      | None => []
                      end
     | None => msg
     end.

(** A frame reader that is not the codec's: a payload held in memory. *)
Record memFrame : Type := mkMem {
  mem_type : Z;
  mem_bytes : list Z
}.

#[export] Instance memFrameOps : FrameReaderOps memFrame := {
  other_Read := fun m want w =>
    match mem_bytes m with
    | [] => Returns (([], Some EOF), m, w)
    | _ :: _ =>
      Returns ((firstn want (mem_bytes m), None),
               mkMem (mem_type m) (skipn want (mem_bytes m)), w)
    end;
  other_PayloadType := mem_type;
  other_HeaderReader := fun _ => None;
  other_Len := fun m => Z.of_nat (length (mem_bytes m))
}.

(** A handler that hands every codec frame on as a memory frame with a
    fixed payload. *)
Record wrapHandler : Type := mkWrap {
  wrap_payload : list Z
}.

#[export] Instance wrapHandlerOps : FrameHandlerOps (X := memFrame) wrapHandler := {
  HandleFrame := fun h frame =>
    Returns ((Some (OtherFrame (mkMem (frame_PayloadType frame) (wrap_payload h))), None), h);
  WriteClose := fun h _ _ w => Returns (None, h, w)
}.

(** ** Predicates used by the statements *)

(** A masking key, when there is one, has four bytes. *)
Definition key_ok (mk : option (list Z)) : Prop :=
  match mk with
  | Some k => length k = 4%nat
  | None => True
  end.

(** [plain] is what a reader at position [p] makes of the bytes [masked]. *)
Definition unmasks (mk : option (list Z)) (p : Z) (masked plain : list Z) : Prop :=
  match mk with
  | Some k => xor_key k p masked = Some plain
  | None => plain = masked
  end.

(** The frame [r] has [plain] left to deliver: the stream holds its masked
    form, followed by [rest]. *)
Definition reading (r : tcpFrameReader) (w : World) (plain rest : list Z) : Prop :=
  exists masked,
    wire w = masked ++ rest
    /\ limit r = Z.of_nat (length masked)
    /\ key_ok (MaskingKey (header r))
    /\ unmasks (MaskingKey (header r)) (pos r) masked plain.

Definition key_bytes (mk : option (list Z)) : list Z :=
  match mk with
  | Some k => k
  | None => []
  end.

(** The header [NewFrameWriter] gives its writer. *)
Definition written_header (op : Z) (mk : option (list Z)) : tcpFrameHeader :=
  mkHeader true (false, false, false) op 0 mk None.

(** The buffered writer holds nothing, has not failed, and the stream
    accepts every write. *)
Definition healthy (w : World) : Prop :=
  bw_err w = None /\ pending w = [] /\ write_room w = None.

(** The key the writer factory draws, the world it leaves, and the
    condition under which the random source delivers. *)
Definition drawn_key (masked : bool) (w : World) : option (list Z) :=
  if masked then Some (firstn 4 (entropy w)) else None.

Definition after_draw (masked : bool) (w : World) : World :=
  if masked then set_entropy (skipn 4 (entropy w)) w else w.

Definition can_draw (masked : bool) (w : World) : Prop :=
  masked = true -> (4 <= length (entropy w))%nat.

(** The maximum [Conn.ReadFrame] compares a payload length with. *)
Definition effective_max (maxPayloadBytes : Z) : Z :=
  if maxPayloadBytes =? 0 then DefaultMaxPayloadBytes else maxPayloadBytes.

(** ** Concrete connections, streams and frames *)

(** A connection with the zero-value handler, by masking flag, payload type
    and maximum, and an in-memory stream, by content and schedule of short
    reads. *)
Definition demo_conn (masked : bool) (op maxPayloadBytes : Z)
    : @Conn memFrame tcpFrameHandler :=
  mkConn None (mkWriterFactory masked) zero_tcpFrameHandler op closeStatusNormal
         maxPayloadBytes.

Definition demo_world (bytes : list Z) (sched : list nat) : World :=
  mkWorld bytes EOF sched [] None None None false [0x11; 0x22; 0x33; 0x44].

(** The bytes of a close frame with status 1000, unmasked. *)
Definition close_1000 : list Z := [0x5A; 0xA5; 0x5A; 0xA5; 0x88; 0x02; 0x03; 0xE8].

(** A binary frame of twelve payload bytes, unmasked. *)
Definition twelve : list Z := [1; 2; 3; 4; 5; 6; 7; 8; 9; 10; 11; 12].
Definition frame_of_twelve : list Z := [0x5A; 0xA5; 0x5A; 0xA5; 0x82; 12] ++ twelve.

(** The frame of the reader test: text, masked, payload "test". *)
Definition test_frame : list Z :=
  [0x5A; 0xA5; 0x5A; 0xA5; 0x81; 0x84; 0x0f; 0xff; 0xff; 0x0f; 116; 101; 115; 116].

Definition reader_of (op len : Z) : tcpFrameReader :=
  mkReader len (mkHeader true (false, false, false) op len None None) 0 (2 + len).

(** What [NewFrameReader] makes of [test_frame]. *)
Definition test_reader : tcpFrameReader :=
  mkReader 4
    (mkHeader true (false, false, false) 1 4 (Some [0x0f; 0xff; 0xff; 0x0f])
       (Some [0x81; 0x84; 0x0f; 0xff; 0xff; 0x0f]))
    0 10.

(** ** Predicates and drivers of the further properties *)

(** The frame [r] expects more payload than the stream holds: what is there
    unmasks to [plain]. *)
Definition starved (r : tcpFrameReader) (w : World) (plain : list Z) : Prop :=
  Z.of_nat (length (wire w)) < limit r
  /\ key_ok (MaskingKey (header r))
  /\ unmasks (MaskingKey (header r)) (pos r) (wire w) plain.

(** A stream of frames, each given by opcode, masking key and payload; the
    payloads in a row; the frames [Conn.Read] hands on. *)
Definition stream_of (frames : list (Z * option (list Z) * list Z)) : list Z :=
  flat_map (fun '(op, mk, msg) => frame_bytes op mk msg) frames.

Definition payloads (frames : list (Z * option (list Z) * list Z)) : list Z :=
  flat_map (fun '(_, _, msg) => msg) frames.

Definition data_frame (f : Z * option (list Z) * list Z) : Prop :=
  let '(op, mk, msg) := f in
  key_ok mk /\ Z.land op 0x0f <> CloseFrame /\ Z.of_nat (length msg) <= max_int64 - 14.

(** The state of a connection that has [all] left to deliver from frames on
    the stream, and a loop bound [fuel] that suffices for one more call:
    between two frames, or inside one. *)
Definition serving {X : Type} (conn : @Conn X tcpFrameHandler) (w : World)
    (all : list Z) (fuel : nat) : Prop :=
  (exists frames,
      conn_frameReader conn = None
      /\ wire w = stream_of frames
      /\ Forall data_frame frames
      /\ all = payloads frames
      /\ (length frames < fuel)%nat)
  \/ (exists r plain frames,
         conn_frameReader conn = Some (TcpFrame r)
         /\ reading r w plain (stream_of frames)
         /\ Forall data_frame frames
         /\ all = plain ++ payloads frames
         /\ (length frames + 1 < fuel)%nat).

(** The writing loop of the connection tests: one [Conn.Write] per message;
    the results of the calls are collected. *)
Fixpoint write_calls {X H : Type} (msgs : list (list Z)) (conn : @Conn X H) (w : World)
    : outcome (list (Z * option error) * Conn * World) :=
  match msgs with
  | [] => Returns ([], conn, w)
  | msg :: msgs' =>
    '(res, conn', w') <- Conn_Write msg conn w ;;
    '(ress, conn'', w'') <- write_calls msgs' conn' w' ;;
    Returns (res :: ress, conn'', w'')
  end.

(** The frames these writes put on the stream: the keys are drawn from the
    random source four bytes at a time. *)
Fixpoint written (masked : bool) (op : Z) (en : list Z) (msgs : list (list Z))
    : list (Z * option (list Z) * list Z) :=
  match msgs with
  | [] => []
  | msg :: msgs' =>
    (op, (if masked then Some (firstn 4 en) else None), msg)
    :: written masked op (if masked then skipn 4 en else en) msgs'
  end.

(** The outcome of one call in a serving state. *)
Definition served {X : Type} {XOps : FrameReaderOps X}
    (conn : @Conn X tcpFrameHandler) (w : World) (all : list Z)
    (fuel want : nat) : Prop :=
  exists res conn' w',
    Conn_Read fuel want conn w = Returns (res, conn', w')
    /\ read_end w' = read_end w
    /\ ((all = [] /\ res = ([], Some (read_end w)))
        \/ (exists k, (1 <= k)%nat /\ all <> [] /\ res = (firstn k all, None)
                      /\ serving conn' w' (skipn k all) fuel)).


(** The reading loop of the frame test: [n] calls of [Conn.ReadFrame], the
    result of each collected; the loop stops at the first failure. *)
Fixpoint readframe_calls {X : Type} {XOps : FrameReaderOps X}
    {H : Type} {HOps : FrameHandlerOps H}
    (fuel n : nat) (conn : @Conn X H) (w : World)
    : outcome (list (list Z * option error) * Conn * World) :=
  match n with
  | O => Returns ([], conn, w)
  | S n' =>
    '((data, err), conn', w') <- Conn_ReadFrame fuel conn w ;;
    match err with
    | Some e => Returns ([(data, Some e)], conn', w')
    | None =>
      '(ress, conn'', w'') <- readframe_calls fuel n' conn' w' ;;
      Returns ((data, None) :: ress, conn'', w'')
    end
  end.

(** ** example/server/main.go

    [ListenAndServe] gives every connection the handler [nil].  A method
    called on the nil interface value panics. *)
Inductive nilHandler : Type := nil_handler.

#[export] Instance nilHandlerOps {X : Type} : FrameHandlerOps (X := X) nilHandler := {
  HandleFrame := fun _ _ => Panics;
  WriteClose := fun _ _ _ _ => Panics
}.

(** The bytes of ["Message accepted"]. *)
Definition Message_accepted : list Z :=
  [77; 101; 115; 115; 97; 103; 101; 32; 97; 99; 99; 101; 112; 116; 101; 100].

(** The loop of [Serve]: it is left with the error of [ReadFrame] or of
    [Write]; [out] collects what [fmt.Println] prints. *)
Fixpoint Serve_loop {X : Type} {XOps : FrameReaderOps X}
    {H : Type} {HOps : FrameHandlerOps H}
    (fuel : nat) (out : list (list Z)) (conn : @Conn X H) (w : World)
    : outcome (error * list (list Z) * Conn * World) :=
  match fuel with
  | O => OutOfFuel
  | S fuel' =>
    '((msg, err), conn, w) <- Conn_ReadFrame fuel conn w ;;
    match err with
    | Some e => Returns (e, out, conn, w)
    | None =>
      let out := out ++ [msg] in
      '((_, err), conn, w) <- Conn_Write Message_accepted conn w ;;
      match err with
      | Some e => Returns (e, out, conn, w)
      | None => Serve_loop fuel' out conn w
      end
    end
  end.

(** [Serve]: the loop, the logged error, and the deferred [conn.Close()],
    whose result is dropped.  When the loop panics the deferred call runs
    and the panic goes on, so the outcome is the panic. *)
Definition Serve {X : Type} {XOps : FrameReaderOps X}
    {H : Type} {HOps : FrameHandlerOps H}
    (fuel : nat) (conn : @Conn X H) (w : World)
    : outcome (list (list Z) * error * Conn * World) :=
  '(e, out, conn, w) <- Serve_loop fuel [] conn w ;;
  '(_, conn, w) <- Conn_Close conn w ;;
  Returns (out, e, conn, w).

(** The frame in progress, if there is one, is the codec's own, and its
    masking key, if it has one, has four bytes. *)
Definition codec_frame {X : Type} (fr : option (frameReader X)) : Prop :=
  match fr with
  | None => True
  | Some (TcpFrame r) => key_ok (MaskingKey (header r))
  | Some (OtherFrame _) => False
  end.

(** The call does not panic, and what it returns satisfies [P]. *)
Definition safely {A : Type} (o : outcome A) (P : A -> Prop) : Prop :=
  match o with
  | Returns a => P a
  | Panics => False
  | OutOfFuel => True
  end.

(** A connection that is part way through the frame [r], and a stream
    with all its fields given. *)
Definition demo_conn_reading (r : tcpFrameReader) (maxPayloadBytes : Z)
    : @Conn memFrame tcpFrameHandler :=
  mkConn (Some (TcpFrame r)) (mkWriterFactory false) zero_tcpFrameHandler BinaryFrame
         closeStatusNormal maxPayloadBytes.

(** A binary frame of twelve bytes of which nine were delivered. *)
Definition three_left : tcpFrameReader :=
  mkReader 3 (mkHeader true (false, false, false) 2 12 None (Some [0x82; 12])) 0 14.

(** A text frame and a masked binary frame. *)
Definition two_frames : list (Z * option (list Z) * list Z) :=
  [(TextFrame, None, [1; 2]); (BinaryFrame, Some [1; 2; 3; 4], [3; 4; 5])].

(** ** Predicates of the statements on the errors of the read path *)

(** [Conn.ReadFrame] starts by draining the frame in progress, when there
    is one: from the stream [w0] this succeeds and leaves the stream [w]. *)
Definition drained_to {X : Type} {XOps : FrameReaderOps X} (fuel : nat)
    (fr : option (frameReader X)) (w0 w : World) : Prop :=
  match fr with
  | None => w = w0
  | Some frame =>
    exists frame', io_Copy_Discard fuel frame w0 = Returns (None, frame', w)
  end.

(** The stream [w'] is what follows the header of a close frame that was
    decoded in [w], at its start or further on. *)
Definition after_close_frame (w w' : World) : Prop :=
  exists w0 r,
    (exists before, wire w = before ++ wire w0)
    /\ NewFrameReader w0 = (inl r, w')
    /\ OpCode (header r) = CloseFrame.

(** The stream of [w] ends with [EOF], and it was read to its end. *)
Definition at_end_of_stream (w w' : World) : Prop :=
  read_end w = EOF /\ wire w' = [].

(** * Properties *)

(** ** Bytes and bits *)

Lemma land_255_mod (x : Z) : Z.land x 0xff = x mod 256.
Proof. change 0xff with (Z.ones 8). now rewrite Z.land_ones by lia. Qed.

Lemma land_127_mod (x : Z) : Z.land x 0x7f = x mod 128.
Proof. change 0x7f with (Z.ones 7). now rewrite Z.land_ones by lia. Qed.

Lemma land_15_mod (x : Z) : Z.land x 0x0f = x mod 16.
Proof. change 0x0f with (Z.ones 4). now rewrite Z.land_ones by lia. Qed.

(** Setting bit 7 leaves the bits below it alone. *)
Lemma lor_128_low (n : nat) (x : Z) :
  (n <= 7)%nat -> Z.land (Z.lor 0x80 x) (Z.ones (Z.of_nat n)) = Z.land x (Z.ones (Z.of_nat n)).
Proof.
  intros Hn. apply Z.bits_inj'. intros i Hi.
  rewrite !Z.land_spec, Z.lor_spec.
  destruct (Z_lt_dec i (Z.of_nat n)) as [Hlt | Hge].
  - rewrite Z.ones_spec_low by lia.
    change 0x80 with (Z.shiftl 1 7).
    rewrite Z.shiftl_spec by lia.
    rewrite (Z.testbit_neg_r 1) by lia. reflexivity.
  - rewrite Z.ones_spec_high by lia. now rewrite !andb_false_r.
Qed.

Lemma lor_128_bit7 (x : Z) : (Z.land (Z.lor 0x80 x) 0x80 =? 0) = false.
Proof.
  apply Z.eqb_neq. intros Heq.
  assert (Hb : Z.testbit (Z.land (Z.lor 0x80 x) 0x80) 7 = true).
  { rewrite Z.land_spec, Z.lor_spec. reflexivity. }
  rewrite Heq in Hb. discriminate.
Qed.

Lemma land_128_small (x : Z) : 0 <= x < 128 -> (Z.land x 0x80 =? 0) = true.
Proof.
  intros Hx. apply Z.eqb_eq. apply Z.bits_inj'. intros i Hi.
  rewrite Z.land_spec, Z.bits_0.
  destruct (Z.eq_dec i 7) as [-> | Hne].
  - replace (Z.testbit x 7) with false; [reflexivity|].
    symmetry. apply Z.bits_above_log2; [lia|].
    destruct (Z.eq_dec x 0) as [-> | ]; [reflexivity|].
    apply Z.log2_lt_pow2; lia.
  - change 0x80 with (Z.shiftl 1 7).
    destruct (Z_lt_dec i 7).
    + rewrite Z.shiftl_spec_low by lia. apply andb_false_r.
    + rewrite Z.shiftl_spec by lia.
      replace (Z.testbit 1 (i - 7)) with false; [apply andb_false_r|].
      symmetry. apply Z.bits_above_log2; simpl; lia.
Qed.

Lemma wrap64_small (z : Z) : - 2 ^ 63 <= z < 2 ^ 63 -> wrap64 z = z.
Proof. intros Hz. unfold wrap64. rewrite Z.mod_small; lia. Qed.

Lemma wrap64_range (z : Z) : - 2 ^ 63 <= wrap64 z < 2 ^ 63.
Proof.
  unfold wrap64.
  pose proof (Z.mod_pos_bound (z + 2 ^ 63) (2 ^ 64) ltac:(lia)). lia.
Qed.

(** ** The buffered reader *)

Lemma set_read_set_read (a b : list Z) (s t : list nat) (w : World) :
  set_read a s (set_read b t w) = set_read a s w.
Proof. reflexivity. Qed.

Lemma set_read_same (w : World) : set_read (wire w) (short w) w = w.
Proof. now destruct w. Qed.

Lemma ReadByte_cons (w : World) (b : Z) (rest : list Z) :
  wire w = b :: rest -> ReadByte w = ((b, None), set_read rest (short w) w).
Proof. intros Hw. unfold ReadByte. now rewrite Hw. Qed.

Lemma ReadByte_nil (w : World) :
  wire w = [] -> ReadByte w = ((0, Some (read_end w)), w).
Proof. intros Hw. unfold ReadByte. now rewrite Hw. Qed.

(** ** Big-endian lengths *)

Lemma big_endian_length (n : nat) (v : Z) : length (big_endian n v) = n.
Proof. induction n; simpl; congruence. Qed.

Lemma read_length_big_endian (n : nat) :
  forall (hdr : list Z) (acc v : Z) (rest : list Z) (w : World),
    wire w = big_endian n v ++ rest ->
    0 <= acc -> 0 <= v ->
    acc * 256 ^ Z.of_nat n + v mod 256 ^ Z.of_nat n < 2 ^ 63 ->
    read_length n hdr acc w =
      ((hdr ++ big_endian n v, acc * 256 ^ Z.of_nat n + v mod 256 ^ Z.of_nat n, None),
       set_read rest (short w) w).
Proof.
  induction n as [| n IH]; intros hdr acc v rest w Hw Hacc Hv Hlt.
  - simpl in *. subst rest. rewrite Z.mod_1_r, app_nil_r, set_read_same.
    f_equal. f_equal. f_equal. lia.
  - cbn [big_endian] in Hw. rewrite <- app_comm_cons in Hw.
    cbn [read_length]. rewrite (ReadByte_cons _ _ _ Hw).
    set (b := Z.land (Z.shiftr v (8 * Z.of_nat n)) 255) in *.
    assert (Hb : b = (v / 256 ^ Z.of_nat n) mod 256).
    { unfold b. rewrite land_255_mod, Z.shiftr_div_pow2 by lia.
      rewrite Z.pow_mul_r by lia. reflexivity. }
    assert (Hpow : 0 < 256 ^ Z.of_nat n) by (apply Z.pow_pos_nonneg; lia).
    assert (Hsplit : v mod 256 ^ Z.of_nat (S n)
                     = v mod 256 ^ Z.of_nat n + 256 ^ Z.of_nat n * b).
    { rewrite Nat2Z.inj_succ, Z.pow_succ_r by lia.
      rewrite (Z.mul_comm 256), Z.rem_mul_r by lia. now rewrite Hb. }
    assert (Hb_range : 0 <= b < 256) by (rewrite Hb; apply Z.mod_pos_bound; lia).
    pose proof (Z.mod_pos_bound v (256 ^ Z.of_nat n) Hpow) as Hm.
    assert (Hexp : 256 ^ Z.of_nat (S n) = 256 * 256 ^ Z.of_nat n).
    { rewrite Nat2Z.inj_succ, Z.pow_succ_r by lia. reflexivity. }
    rewrite Hsplit, Hexp in Hlt.
    assert (Hstep : 0 <= acc * 256 + b < 2 ^ 63) by nia.
    rewrite wrap64_small by lia.
    rewrite (IH (hdr ++ [b]) (acc * 256 + b) v rest (set_read (big_endian n v ++ rest) (short w) w));
      [ | reflexivity | lia | lia | cbn [short set_read]; nia ].
    rewrite <- app_assoc. cbn [app short set_read].
    rewrite set_read_set_read, Hsplit, Hexp.
    f_equal. f_equal. f_equal. ring.
Qed.

(** ** Masking *)



Lemma key_index (k : list Z) (p : Z) :
  length k = 4%nat -> exists x, nth_error k (Z.to_nat (p mod 4)) = Some x.
Proof.
  intros Hk.
  destruct (nth_error k (Z.to_nat (p mod 4))) as [x |] eqn:E; [now exists x|].
  apply nth_error_None in E.
  pose proof (Z.mod_pos_bound p 4 ltac:(lia)). lia.
Qed.

Lemma xor_key_total (k : list Z) (bs : list Z) :
  length k = 4%nat -> forall p, exists out, xor_key k p bs = Some out.
Proof.
  intros Hk. induction bs as [| b bs IH]; intros p; simpl.
  - now exists [].
  - destruct (key_index k p Hk) as [x ->].
    destruct (IH (p + 1)) as [out ->]. now eexists.
Qed.

Lemma xor_key_length (k : list Z) (bs : list Z) :
  forall p out, xor_key k p bs = Some out -> length out = length bs.
Proof.
  induction bs as [| b bs IH]; intros p out; simpl.
  - now intros [= <-].
  - destruct (nth_error k _) as [x |]; [| discriminate].
    destruct (xor_key k (p + 1) bs) as [o |] eqn:E; [| discriminate].
    intros [= <-]. simpl. f_equal. eauto.
Qed.

Lemma xor_key_involutive (k : list Z) (bs : list Z) :
  forall p out, xor_key k p bs = Some out -> xor_key k p out = Some bs.
Proof.
  induction bs as [| b bs IH]; intros p out; simpl.
  - now intros [= <-].
  - destruct (nth_error k _) as [x |] eqn:Ex; [| discriminate].
    destruct (xor_key k (p + 1) bs) as [o |] eqn:E; [| discriminate].
    intros [= <-]. simpl. rewrite Ex, (IH _ _ E).
    now rewrite Z.lxor_assoc, Z.lxor_nilpotent, Z.lxor_0_r.
Qed.

Lemma xor_key_split (k : list Z) (bs : list Z) :
  forall p out n,
    xor_key k p bs = Some out ->
    xor_key k p (firstn n bs) = Some (firstn n out)
    /\ xor_key k (p + Z.of_nat (length (firstn n bs))) (skipn n bs) = Some (skipn n out).
Proof.
  induction bs as [| b bs IH]; intros p out n; simpl.
  - intros [= <-]. rewrite !firstn_nil, !skipn_nil. simpl. now split.
  - destruct (nth_error k _) as [x |] eqn:Ex; [| discriminate].
    destruct (xor_key k (p + 1) bs) as [o |] eqn:E; [| discriminate].
    intros [= <-]. destruct n as [| n].
    + simpl. rewrite Z.add_0_r. simpl. rewrite Ex, E. now split.
    + destruct (IH _ _ n E) as [H1 H2]. cbn [firstn skipn xor_key length].
      rewrite Ex, H1. split; [reflexivity|].
      rewrite <- H2. f_equal. lia.
Qed.

Lemma unmasks_length mk p masked plain :
  unmasks mk p masked plain -> length plain = length masked.
Proof.
  destruct mk as [k |]; simpl; [apply xor_key_length | congruence].
Qed.

(** ** Reading blocks *)

Lemma firstn_skipn_length_lt {A : Type} (k : nat) (l : list A) :
  (1 <= k)%nat -> l <> [] -> (length (skipn k l) < length l)%nat.
Proof.
  intros Hk Hl. rewrite length_skipn. destruct l; [congruence | cbn [length]; lia].
Qed.

Lemma bufio_Read_nil (want : nat) (w : World) :
  (0 < want)%nat -> wire w = [] -> bufio_Read want w = (([], Some (read_end w)), w).
Proof.
  intros Hw Hnil. unfold bufio_Read. destruct want; [lia|]. now rewrite Hnil.
Qed.

Lemma bufio_Read_some (want : nat) (w : World) :
  (0 < want)%nat -> wire w <> [] ->
  exists k, (1 <= k <= want)%nat
    /\ bufio_Read want w =
         ((firstn k (wire w), None), set_read (skipn k (wire w)) (tl (short w)) w).
Proof.
  intros Hw Hne. unfold bufio_Read. destruct want as [| n]; [lia|].
  destruct (wire w) as [| b bs] eqn:E; [congruence|].
  destruct (short w) as [| c sh].
  - exists (S n). split; [lia | reflexivity].
  - exists (Nat.min (S n) (S c)). split; [lia | reflexivity].
Qed.

Lemma LimitedReader_Read_done (N : Z) (want : nat) (w : World) :
  N <= 0 -> LimitedReader_Read N want w = (([], Some EOF), N, w).
Proof.
  intros HN. unfold LimitedReader_Read.
  destruct (N <=? 0) eqn:E; [reflexivity | lia].
Qed.

Lemma LimitedReader_Read_some (N : Z) (want : nat) (w : World) :
  0 < N -> (0 < want)%nat -> wire w <> [] ->
  exists k, (1 <= k <= want)%nat /\ Z.of_nat k <= N
    /\ LimitedReader_Read N want w =
         ((firstn k (wire w), None), N - Z.of_nat (length (firstn k (wire w))),
          set_read (skipn k (wire w)) (tl (short w)) w).
Proof.
  intros HN Hw Hne. unfold LimitedReader_Read.
  destruct (N <=? 0) eqn:E; [lia|].
  set (want' := if N <? Z.of_nat want then Z.to_nat N else want).
  assert (Hw' : (0 < want')%nat /\ (want' <= want)%nat /\ Z.of_nat want' <= N).
  { unfold want'. destruct (N <? Z.of_nat want) eqn:E'; lia. }
  destruct (bufio_Read_some want' w) as (k & Hk & ->); [lia | assumption |].
  exists k. repeat split; try lia. 
Qed.

Lemma LimitedReader_Read_dry (N : Z) (want : nat) (w : World) :
  0 < N -> (0 < want)%nat -> wire w = [] ->
  LimitedReader_Read N want w = (([], Some (read_end w)), N, w).
Proof.
  intros HN Hw Hnil. unfold LimitedReader_Read.
  destruct (N <=? 0) eqn:E; [lia|].
  rewrite bufio_Read_nil; [simpl; f_equal; f_equal; lia | | assumption].
  destruct (N <? Z.of_nat want); lia.
Qed.

(** ** Reading the payload of a codec frame *)


Lemma reading_nil_wire r w rest : reading r w [] rest -> wire w = rest /\ limit r = 0.
Proof.
  intros (masked & Hw & Hl & _ & Hu).
  apply unmasks_length in Hu. destruct masked; [| discriminate].
  now rewrite Hw, Hl.
Qed.

Lemma tcpFrameReader_Read_end r w rest want :
  reading r w [] rest ->
  tcpFrameReader_Read r want w = Returns (([], Some EOF), r, w).
Proof.
  intros Hr. pose proof Hr as (masked & _ & _ & Hk & _).
  apply reading_nil_wire in Hr as [_ Hl].
  unfold tcpFrameReader_Read. rewrite LimitedReader_Read_done by lia.
  destruct r as [lim hdr p len]; simpl in *.
  destruct (MaskingKey hdr) as [k |]; simpl.
  - now rewrite Z.add_0_r.
  - reflexivity.
Qed.

Lemma tcpFrameReader_Read_step r w plain rest want :
  reading r w plain rest -> plain <> [] -> (0 < want)%nat ->
  exists k r' w',
    (1 <= k)%nat
    /\ tcpFrameReader_Read r want w = Returns ((firstn k plain, None), r', w')
    /\ reading r' w' (skipn k plain) rest
    /\ header r' = header r
    /\ w' = set_read (wire w') (short w') w.
Proof.
  intros (masked & Hw & Hl & Hk & Hu) Hne Hwant.
  pose proof (unmasks_length _ _ _ _ Hu) as Hlen.
  assert (Hm : masked <> []) by (destruct masked, plain; simpl in *; congruence).
  destruct (LimitedReader_Read_some (limit r) want w) as (k & Hk1 & Hk2 & HL).
  { destruct masked; [congruence | simpl in Hl; lia]. }
  { assumption. }
  { rewrite Hw. destruct masked; [congruence | discriminate]. }
  rewrite Hw in HL.
  rewrite firstn_app, skipn_app in HL.
  replace (k - length masked)%nat with O in HL by lia.
  rewrite firstn_O, skipn_O, app_nil_r in HL.
  unfold tcpFrameReader_Read. rewrite HL.
  destruct r as [lim hdr p len]; simpl in *.
  destruct (MaskingKey hdr) as [key |] eqn:Ekey; simpl in *.
  - destruct (xor_key_split key masked p plain k Hu) as [H1 H2].
    rewrite H1.
    exists k. eexists. eexists. split; [lia|]. split; [reflexivity|].
    split; [| split; [reflexivity | reflexivity]].
    exists (skipn k masked). simpl. rewrite Ekey. simpl.
    repeat split; try assumption.
    rewrite length_skipn, length_firstn. lia.
  - subst plain.
    exists k. eexists. eexists. split; [lia|]. split; [reflexivity|].
    split; [| split; [reflexivity | reflexivity]].
    exists (skipn k masked). simpl. rewrite Ekey. simpl.
    repeat split.
    rewrite length_skipn, length_firstn. lia.
Qed.

Section ReadPath.
Context {X : Type} {XOps : FrameReaderOps X}.

(** Draining a codec frame whose payload is on the stream. *)
Lemma io_Copy_Discard_tcp (fuel : nat) :
  forall r w plain rest,
    reading r w plain rest -> (length plain < fuel)%nat ->
    exists r' w',
      io_Copy_Discard (X := X) fuel (TcpFrame r) w = Returns (None, TcpFrame r', w')
      /\ wire w' = rest
      /\ w' = set_read rest (short w') w.
Proof.
  induction fuel as [| fuel IH]; intros r w plain rest Hr Hlen; [lia|].
  cbn [io_Copy_Discard frame_Read].
  destruct plain as [| b plain'] eqn:Ep.
  - rewrite (tcpFrameReader_Read_end _ _ _ _ Hr). simpl.
    exists r, w. apply reading_nil_wire in Hr as [Hw _].
    repeat split; [assumption|]. rewrite <- Hw. symmetry. apply set_read_same.
  - destruct (tcpFrameReader_Read_step r w (b :: plain') rest discard_block Hr)
      as (k & r' & w' & Hk & HR & Hr' & _ & Hw'); [discriminate | unfold discard_block; lia |].
    rewrite HR. cbn [bind].
    destruct (IH r' w' _ rest Hr') as (r'' & w'' & HD & Hw1 & Hw2).
    { pose proof (firstn_skipn_length_lt k (b :: plain') Hk ltac:(discriminate)). lia. }
    rewrite HD. exists r'', w''. repeat split; [assumption|].
    rewrite Hw2, Hw'. reflexivity.
Qed.

Section Handler.
Context {H : Type} {HOps : FrameHandlerOps (X := X) H}.

(** A call that has to fetch the next frame continues as a call on the
    connection that holds it. *)
Lemma Conn_Read_fetch (fuel want : nat) (conn : Conn) (w w1 : World)
    (r : tcpFrameReader) (frame : frameReader X) (h' : H) :
  conn_frameReader conn = None ->
  NewFrameReader w = (inl r, w1) ->
  HandleFrame (conn_frameHandler conn) (TcpFrame r) = Returns ((Some frame, None), h') ->
  Conn_Read (S fuel) want conn w
  = Conn_Read (S fuel) want (set_handled (Some frame) h' conn) w1.
Proof.
  intros Hnone Hnew Hh. cbn [Conn_Read]. rewrite Hnone, Hnew, Hh. reflexivity.
Qed.

Lemma Conn_Read_step (fuel want : nat) (conn : Conn) (w : World) r plain rest :
  conn_frameReader conn = Some (TcpFrame r) ->
  reading r w plain rest -> plain <> [] -> (0 < want)%nat ->
  exists k r' w',
    (1 <= k)%nat
    /\ Conn_Read (S fuel) want conn w
       = Returns ((firstn k plain, None), set_frameReader (Some (TcpFrame r')) conn, w')
    /\ reading r' w' (skipn k plain) rest
    /\ read_end w' = read_end w.
Proof.
  intros Hc Hr Hne Hwant.
  destruct (tcpFrameReader_Read_step r w plain rest want Hr Hne Hwant)
    as (k & r' & w' & Hk & HR & Hr' & _ & Hw').
  exists k, r', w'. split; [assumption|].
  cbn [Conn_Read]. rewrite Hc. cbn [frame_Read]. rewrite HR. cbn [bind is_EOF].
  repeat split; [assumption|]. rewrite Hw'. reflexivity.
Qed.

Lemma Conn_Read_end (fuel want : nat) (conn : Conn) (w : World) r :
  conn_frameReader conn = Some (TcpFrame r) ->
  reading r w [] [] ->
  Conn_Read (S (S fuel)) want conn w
  = Returns (([], Some (read_end w)), set_frameReader None conn, w).
Proof.
  intros Hc Hr.
  pose proof (reading_nil_wire _ _ _ Hr) as [Hw _].
  cbn [Conn_Read]. rewrite Hc. cbn [frame_Read].
  rewrite (tcpFrameReader_Read_end _ _ _ _ Hr). cbn [bind is_EOF].
  cbn [conn_frameReader set_frameReader].
  unfold NewFrameReader. cbn [preambule check_preambule].
  rewrite (ReadByte_nil _ Hw). reflexivity.
Qed.

(** The calls of a reading loop deliver the payload in order, and all
    of it once there are more calls than bytes. *)
Lemma read_calls_payload (fuel : nat) (sizes : list nat) :
  forall conn w r plain,
    conn_frameReader conn = Some (TcpFrame r) ->
    reading r w plain [] ->
    Forall (fun n => (0 < n)%nat) sizes ->
    exists got err conn' w',
      read_calls (S (S fuel)) sizes conn w = Returns ((got, err), conn', w')
      /\ (exists rest, plain = got ++ rest)
      /\ ((length plain < length sizes)%nat -> got = plain /\ err = Some (read_end w)).
Proof.
  induction sizes as [| n sizes IH]; intros conn w r plain Hc Hr Hpos.
  - exists [], None, conn, w. simpl. repeat split; [now exists plain | lia | lia].
  - inversion Hpos as [| ? ? Hn Hpos']; subst.
    cbn [read_calls].
    destruct plain as [| b plain'] eqn:Ep.
    + rewrite (Conn_Read_end fuel n conn w r Hc Hr). cbn [bind].
      do 4 eexists. split; [reflexivity|]. split; [now exists [] | auto].
    + destruct (Conn_Read_step (S fuel) n conn w r (b :: plain') [] Hc Hr)
        as (k & r' & w' & Hk & HR & Hr' & He); [discriminate | assumption |].
      rewrite HR. cbn [bind].
      destruct (IH (set_frameReader (Some (TcpFrame r')) conn) w' r' _ eq_refl Hr' Hpos')
        as (got & err & conn' & w'' & HC & [rest Hrest] & Hfull).
      rewrite HC. cbn [bind].
      do 4 eexists. split; [reflexivity|]. split.
      * exists rest. rewrite <- app_assoc, <- Hrest. symmetry. apply firstn_skipn.
      * intros Hlt.
        destruct Hfull as [-> ->].
        { pose proof (firstn_skipn_length_lt k (b :: plain') Hk ltac:(discriminate)).
          simpl in *. lia. }
        split; [apply firstn_skipn | congruence].
Qed.
End Handler.
End ReadPath.

(** ** Decoding what the writer encodes *)



Lemma check_preambule_ok (w : World) (tail : list Z) :
  wire w = preambule ++ tail ->
  check_preambule preambule w = (None, set_read tail (short w) w).
Proof.
  intros Hw. unfold preambule in *. cbn [app] in Hw.
  cbn [check_preambule].
  rewrite (ReadByte_cons _ _ _ Hw). cbv beta iota. rewrite Z.eqb_refl.
  rewrite (ReadByte_cons _ 0xA5 ([0x5A; 0xA5] ++ tail)) by reflexivity.
  cbv beta iota. rewrite Z.eqb_refl.
  rewrite (ReadByte_cons _ 0x5A ([0xA5] ++ tail)) by reflexivity.
  cbv beta iota. rewrite Z.eqb_refl.
  rewrite (ReadByte_cons _ 0xA5 tail) by reflexivity.
  cbv beta iota. rewrite Z.eqb_refl.
  reflexivity.
Qed.

Lemma read_mask_ok (n : nat) :
  forall (hdr key k tail : list Z) (w : World),
    wire w = k ++ tail -> length k = n ->
    read_mask n hdr key w = ((hdr ++ k, key ++ k, None), set_read tail (short w) w).
Proof.
  induction n as [| n IH]; intros hdr key k tail w Hw Hk.
  - destruct k; [| discriminate]. simpl in *. subst tail.
    now rewrite !app_nil_r, set_read_same.
  - destruct k as [| b k]; [discriminate|]. simpl in Hw, Hk.
    cbn [read_mask]. rewrite (ReadByte_cons _ _ _ Hw). cbv beta iota.
    rewrite (IH (hdr ++ [b]) (key ++ [b]) k tail) by (simpl; congruence).
    now rewrite <- !app_assoc.
Qed.

Lemma second_byte_decode (masked : bool) (x : Z) :
  0 <= x < 128 ->
  negb (Z.land (Z.lor (if masked then 0x80 else 0x00) x) 0x80 =? 0) = masked
  /\ Z.land (Z.lor (if masked then 0x80 else 0x00) x) 0x7f = x.
Proof.
  intros Hx. destruct masked.
  - rewrite lor_128_bit7. split; [reflexivity|].
    change 0x7f with (Z.ones (Z.of_nat 7)). rewrite lor_128_low by lia.
    change (Z.ones (Z.of_nat 7)) with 0x7f. rewrite land_127_mod.
    apply Z.mod_small; lia.
  - rewrite Z.lor_0_l, land_128_small by lia. split; [reflexivity|].
    rewrite land_127_mod. apply Z.mod_small; lia.
Qed.

Lemma first_byte_written (op : Z) (mk : option (list Z)) :
  first_byte (written_header op mk) = Z.lor 0x80 op.
Proof. reflexivity. Qed.

Lemma first_byte_opcode (op : Z) : Z.land (Z.lor 0x80 op) 0x0f = Z.land op 0x0f.
Proof.
  change 0x0f with (Z.ones (Z.of_nat 4)). apply lor_128_low. lia.
Qed.

(** The shape of the header by payload length. *)
Lemma build_header_short h len :
  len <= 125 ->
  build_header h len
  = [first_byte h;
     Z.lor (match MaskingKey h with Some _ => 0x80 | None => 0x00 end) (len mod 256)].
Proof.
  intros Hl. unfold build_header.
  destruct (len <=? 125) eqn:E; [reflexivity | lia].
Qed.

Lemma build_header_medium h len :
  125 < len < 65536 ->
  build_header h len
  = [first_byte h;
     Z.lor (match MaskingKey h with Some _ => 0x80 | None => 0x00 end) 126]
    ++ big_endian 2 (uint16 len).
Proof.
  intros Hl. unfold build_header.
  destruct (len <=? 125) eqn:E; [lia|].
  destruct (len <? 65536) eqn:E'; [reflexivity | lia].
Qed.

Lemma build_header_long h len :
  65536 <= len ->
  build_header h len
  = [first_byte h;
     Z.lor (match MaskingKey h with Some _ => 0x80 | None => 0x00 end) 127]
    ++ big_endian 8 (uint64 len).
Proof.
  intros Hl. unfold build_header.
  destruct (len <=? 125) eqn:E; [lia|].
  destruct (len <? 65536) eqn:E'; [lia | reflexivity].
Qed.

Lemma build_header_length h len :
  0 <= len -> Z.of_nat (length (build_header h len)) = header_width false len.
Proof.
  intros Hl. unfold header_width.
  destruct (len <=? 125) eqn:E.
  - rewrite build_header_short by lia. reflexivity.
  - destruct (len <? 65536) eqn:E'.
    + rewrite build_header_medium by lia. reflexivity.
    + rewrite build_header_long by lia. reflexivity.
Qed.

Lemma is_masked (mk : option (list Z)) :
  (match mk with Some _ => 0x80 | None => 0x00 end)
  = (if match mk with Some _ => true | None => false end then 0x80 else 0x00).
Proof. now destruct mk. Qed.

Lemma NewFrameReader_written (op : Z) (mk : option (list Z)) (len : Z)
    (tail : list Z) (w : World) :
  wire w = preambule ++ build_header (written_header op mk) len ++ key_bytes mk ++ tail ->
  key_ok mk -> 0 <= len < 2 ^ 63 ->
  exists rsv,
    NewFrameReader w
    = (inl (mkReader len
              (mkHeader true rsv (Z.land op 0x0f) len mk
                 (Some (build_header (written_header op mk) len ++ key_bytes mk)))
              0
              (wrap64 (Z.of_nat (length (build_header (written_header op mk) len
                                         ++ key_bytes mk)) + len))),
       set_read tail (short w) w).
Proof.
  intros Hw Hk Hlen.
  set (m := match mk with Some _ => true | None => false end).
  assert (Hmask : forall hdr w1,
            wire w1 = key_bytes mk ++ tail ->
            (if m then read_mask 4 hdr [] w1 else ((hdr, [], None), w1))
            = ((hdr ++ key_bytes mk, key_bytes mk, None), set_read tail (short w1) w1)).
  { intros hdr w1 Hw1. unfold m. destruct mk as [k |]; cbn [key_bytes key_ok app] in *.
    - now rewrite (read_mask_ok 4 hdr [] k tail w1 Hw1 Hk).
    - rewrite app_nil_r. rewrite <- Hw1. now rewrite set_read_same. }
  assert (Hkey : (if m then Some (key_bytes mk) else None) = mk).
  { unfold m. now destruct mk. }
  eexists. unfold NewFrameReader.
  rewrite (check_preambule_ok w _ Hw). cbv beta iota.
  destruct (len <=? 125) eqn:E1; [| destruct (len <? 65536) eqn:E2].
  - (* the length fits the indicator *)
    rewrite build_header_short in * by lia.
    rewrite first_byte_written in *. cbn [MaskingKey written_header] in *.
    rewrite is_masked in *. fold m in Hw |- *.
    rewrite Z.mod_small in * by lia.
    destruct (second_byte_decode m len ltac:(lia)) as [Hb Hl].
    rewrite (ReadByte_cons _ (Z.lor 0x80 op)
               ([Z.lor (if m then 0x80 else 0x00) len] ++ key_bytes mk ++ tail))
      by reflexivity.
    cbv beta iota.
    rewrite (ReadByte_cons _ (Z.lor (if m then 0x80 else 0x00) len)
               (key_bytes mk ++ tail)) by reflexivity.
    cbv beta iota. rewrite Hb, Hl, E1. cbv beta iota. cbn [read_length].
    cbv beta iota.
    rewrite Hmask by reflexivity. cbv beta iota.
    rewrite Hkey, lor_128_bit7, first_byte_opcode. cbn [negb app short set_read].
    reflexivity.
  - (* two bytes of extended length *)
    rewrite build_header_medium in * by lia.
    rewrite first_byte_written in *. cbn [MaskingKey written_header] in *.
    rewrite is_masked in *. fold m in Hw |- *.
    destruct (second_byte_decode m 126 ltac:(lia)) as [Hb Hl].
    rewrite (ReadByte_cons _ (Z.lor 0x80 op)
               ([Z.lor (if m then 0x80 else 0x00) 126]
                ++ big_endian 2 (uint16 len) ++ key_bytes mk ++ tail))
      by (cbn [wire set_read]; now rewrite <- !app_assoc).
    cbv beta iota.
    rewrite (ReadByte_cons _ (Z.lor (if m then 0x80 else 0x00) 126)
               (big_endian 2 (uint16 len) ++ key_bytes mk ++ tail)) by reflexivity.
    cbv beta iota. rewrite Hb, Hl. change (126 <=? 125) with false.
    change (126 =? 126) with true. cbv beta iota.
    assert (Hu : uint16 len = len) by (unfold uint16; apply Z.mod_small; lia).
    rewrite (read_length_big_endian 2 _ 0 (uint16 len) (key_bytes mk ++ tail))
      by (try reflexivity; rewrite ?Hu; change (256 ^ Z.of_nat 2) with 65536;
          rewrite ?Z.mod_small by lia; lia).
    cbv beta iota. rewrite Hu. change (256 ^ Z.of_nat 2) with 65536.
    rewrite Z.mod_small by lia. rewrite Z.mul_0_l, Z.add_0_l.
    rewrite Hmask by reflexivity. cbv beta iota.
    rewrite Hkey, lor_128_bit7, first_byte_opcode. cbn [negb short set_read].
    rewrite <- !app_assoc. reflexivity.
  - (* eight bytes of extended length *)
    rewrite build_header_long in * by lia.
    rewrite first_byte_written in *. cbn [MaskingKey written_header] in *.
    rewrite is_masked in *. fold m in Hw |- *.
    destruct (second_byte_decode m 127 ltac:(lia)) as [Hb Hl].
    rewrite (ReadByte_cons _ (Z.lor 0x80 op)
               ([Z.lor (if m then 0x80 else 0x00) 127]
                ++ big_endian 8 (uint64 len) ++ key_bytes mk ++ tail))
      by (cbn [wire set_read]; now rewrite <- !app_assoc).
    cbv beta iota.
    rewrite (ReadByte_cons _ (Z.lor (if m then 0x80 else 0x00) 127)
               (big_endian 8 (uint64 len) ++ key_bytes mk ++ tail)) by reflexivity.
    cbv beta iota. rewrite Hb, Hl. change (127 <=? 125) with false.
    change (127 =? 126) with false. change (127 =? 127) with true. cbv beta iota.
    assert (Hu : uint64 len = len) by (unfold uint64; apply Z.mod_small; lia).
    assert (Hp : 256 ^ Z.of_nat 8 = 2 ^ 64) by reflexivity.
    rewrite (read_length_big_endian 8 _ 0 (uint64 len) (key_bytes mk ++ tail))
      by (try reflexivity; rewrite ?Hu, ?Hp; rewrite ?Z.mod_small by lia; lia).
    cbv beta iota. rewrite Hu, Hp.
    rewrite Z.mod_small by lia. rewrite Z.mul_0_l, Z.add_0_l.
    rewrite Hmask by reflexivity. cbv beta iota.
    rewrite Hkey, lor_128_bit7, first_byte_opcode. cbn [negb short set_read].
    rewrite <- !app_assoc. reflexivity.
Qed.

(** ** Writing a frame *)


Lemma emit_healthy (hdr payload : list Z) (w : World) :
  healthy w ->
  emit hdr payload w
  = (None, set_flushed (wire w ++ preambule ++ hdr ++ payload) [] None None w).
Proof.
  intros (He & Hp & Hr). destruct w as [wi re sh pe be wr ce cl en].
  simpl in He, Hp, Hr. subst pe be wr. reflexivity.
Qed.

Lemma tcpFrameWriter_Write_healthy (op : Z) (mk : option (list Z)) (msg : list Z)
    (w : World) :
  healthy w -> key_ok mk ->
  tcpFrameWriter_Write (mkWriter (written_header op mk)) msg w
  = Returns ((4 + header_width (match mk with Some _ => true | None => false end)
                    (Z.of_nat (length msg)) + Z.of_nat (length msg), None),
             set_flushed (wire w ++ frame_bytes op mk msg) [] None None w).
Proof.
  intros Hh Hk. unfold tcpFrameWriter_Write, frame_bytes.
  cbn [writer_header]. fold (written_header op mk).
  destruct mk as [k |]; cbn [MaskingKey written_header key_ok] in *.
  - rewrite Hk. cbn [Nat.eqb negb].
    destruct (xor_key_total k msg Hk 0) as [payload Hx]. rewrite Hx.
    rewrite emit_healthy by assumption.
    rewrite length_app, Nat2Z.inj_add, build_header_length by lia.
    rewrite Hk. unfold header_width. rewrite <- !app_assoc.
    match goal with
    | |- Returns (?a, _, _) = Returns (?b, _, _) => replace a with b; [reflexivity|]
    end.
    change (Z.of_nat (length preambule)) with 4.
    destruct (Z.of_nat (length msg) <=? 125);
      [| destruct (Z.of_nat (length msg) <? 65536)]; lia.
  - rewrite emit_healthy by assumption.
    rewrite build_header_length by lia.
    unfold header_width.
    match goal with
    | |- Returns (?a, _, _) = Returns (?b, _, _) => replace a with b; [reflexivity|]
    end.
    change (Z.of_nat (length preambule)) with 4.
    destruct (Z.of_nat (length msg) <=? 125);
      [| destruct (Z.of_nat (length msg) <? 65536)]; lia.
Qed.




Lemma NewFrameWriter_ok (masked : bool) (op : Z) (w : World) :
  can_draw masked w ->
  NewFrameWriter (mkWriterFactory masked) op w
  = (inl (mkWriter (written_header op (drawn_key masked w))), after_draw masked w).
Proof.
  intros Hd. unfold NewFrameWriter, drawn_key, after_draw. cbn [needMaskingKey].
  destruct masked; [| reflexivity].
  unfold generateMaskingKey, rand_Read.
  destruct (4 <=? length (entropy w))%nat eqn:E; [reflexivity|].
  apply Nat.leb_gt in E. specialize (Hd eq_refl). lia.
Qed.

Lemma drawn_key_ok (masked : bool) (w : World) :
  can_draw masked w -> key_ok (drawn_key masked w).
Proof.
  intros Hd. unfold drawn_key. destruct masked; cbn [key_ok]; [| exact I].
  rewrite length_firstn. specialize (Hd eq_refl). lia.
Qed.

Lemma drawn_key_masked (masked : bool) (w : World) :
  match drawn_key masked w with Some _ => true | None => false end = masked.
Proof. now destruct masked. Qed.

Lemma after_draw_healthy (masked : bool) (w : World) :
  healthy w -> healthy (after_draw masked w).
Proof. destruct masked; [| trivial]. now destruct w. Qed.

Lemma after_draw_wire (masked : bool) (w : World) : wire (after_draw masked w) = wire w.
Proof. now destruct masked. Qed.

Section WritePath.
Context {X : Type} {XOps : FrameReaderOps X}.
Context {H : Type} {HOps : FrameHandlerOps (X := X) H}.

Lemma Conn_Write_healthy (msg : list Z) (conn : @Conn X H) (w : World) :
  let masked := needMaskingKey (conn_frameWriterFactory conn) in
  healthy w -> can_draw masked w ->
  Conn_Write msg conn w
  = Returns ((4 + header_width masked (Z.of_nat (length msg)) + Z.of_nat (length msg),
              None),
             conn,
             set_flushed
               (wire w ++ frame_bytes (PayloadType conn) (drawn_key masked w) msg)
               [] None None (after_draw masked w)).
Proof.
  intros masked Hh Hd. unfold Conn_Write.
  destruct (conn_frameWriterFactory conn) as [m] eqn:Ef. cbn [needMaskingKey] in masked.
  subst masked.
  rewrite NewFrameWriter_ok by assumption.
  rewrite tcpFrameWriter_Write_healthy
    by (auto using after_draw_healthy, drawn_key_ok).
  cbn [bind]. now rewrite drawn_key_masked, after_draw_wire.
Qed.
End WritePath.

(** ** The frame handler on codec frames *)

Section HandlerFacts.
Context {X : Type} {XOps : FrameReaderOps X}.

Lemma HandleFrame_close (handler : tcpFrameHandler) (r : tcpFrameReader) :
  OpCode (header r) = CloseFrame ->
  tcpFrameHandler_HandleFrame (X := X) handler (TcpFrame r)
  = Returns ((None, Some EOF), handler).
Proof.
  intros Hop. unfold tcpFrameHandler_HandleFrame.
  cbn [frame_PayloadType]. unfold tcpFrameReader_PayloadType. now rewrite Hop.
Qed.

Lemma HandleFrame_continuation (handler : tcpFrameHandler) (r : tcpFrameReader) :
  OpCode (header r) = ContinuationFrame ->
  tcpFrameHandler_HandleFrame (X := X) handler (TcpFrame r)
  = Returns ((Some (TcpFrame (set_OpCode (payloadType handler) r)), None), handler).
Proof.
  intros Hop. unfold tcpFrameHandler_HandleFrame.
  cbn [frame_PayloadType]. unfold tcpFrameReader_PayloadType. now rewrite Hop.
Qed.

(** Every frame but a close frame is handed on; the handler touches at
    most its opcode. *)
Lemma HandleFrame_passes (handler : tcpFrameHandler) (r : tcpFrameReader) :
  OpCode (header r) <> CloseFrame ->
  exists op handler',
    tcpFrameHandler_HandleFrame (X := X) handler (TcpFrame r)
    = Returns ((Some (TcpFrame (set_OpCode op r)), None), handler').
Proof.
  intros Hop. unfold tcpFrameHandler_HandleFrame.
  cbn [frame_PayloadType]. unfold tcpFrameReader_PayloadType.
  assert (Hid : set_OpCode (OpCode (header r)) r = r).
  { destruct r as [l [f rs o len mk d] p n]. reflexivity. }
  destruct (OpCode (header r) =? ContinuationFrame) eqn:E0.
  - now eexists _, _.
  - destruct ((OpCode (header r) =? TextFrame) || (OpCode (header r) =? BinaryFrame)).
    + exists (OpCode (header r)). eexists. now rewrite Hid.
    + destruct (OpCode (header r) =? CloseFrame) eqn:E8.
      * apply Z.eqb_eq in E8. contradiction.
      * exists (OpCode (header r)). eexists. now rewrite Hid.
Qed.

Lemma reading_set_OpCode op r w plain rest :
  reading r w plain rest -> reading (set_OpCode op r) w plain rest.
Proof. intros (m & ?). now exists m. Qed.
End HandlerFacts.

(** ** What a decoded header tells *)

Lemma ReadByte_inv (w w' : World) (b : Z) :
  ReadByte w = ((b, None), w') ->
  wire w = b :: wire w' /\ w' = set_read (wire w') (short w) w.
Proof.
  unfold ReadByte. destruct (wire w) as [| x rest] eqn:E; [discriminate|].
  intros [= <- <-]. now split.
Qed.

Lemma check_preambule_inv (ps : list Z) :
  forall w w',
    check_preambule ps w = (None, w') ->
    wire w = ps ++ wire w' /\ w' = set_read (wire w') (short w) w.
Proof.
  induction ps as [| p ps IH]; intros w w'; cbn [check_preambule].
  - intros [= <-]. split; [reflexivity | now rewrite set_read_same].
  - destruct (ReadByte w) as [[b [e |]] w1] eqn:E; [discriminate|].
    destruct (b =? p) eqn:Eb; [| discriminate].
    apply Z.eqb_eq in Eb. subst b. intros Hrec.
    apply ReadByte_inv in E as [Hw Hw1].
    apply IH in Hrec as [Hw' Hw2].
    split; [rewrite Hw, Hw'; reflexivity|].
    rewrite Hw2, Hw1. reflexivity.
Qed.

Lemma read_length_inv (n : nat) :
  forall hdr len w hdr' len' w',
    read_length n hdr len w = ((hdr', len', None), w') ->
    exists bs,
      length bs = n /\ hdr' = hdr ++ bs /\ wire w = bs ++ wire w'
      /\ w' = set_read (wire w') (short w) w
      /\ (- 2 ^ 63 <= len < 2 ^ 63 -> - 2 ^ 63 <= len' < 2 ^ 63).
Proof.
  induction n as [| n IH]; intros hdr len w hdr' len' w'; cbn [read_length].
  - intros [= <- <- <-]. exists []. rewrite app_nil_r, set_read_same. auto.
  - destruct (ReadByte w) as [[b [e |]] w1] eqn:E; [discriminate|].
    intros Hrec. apply ReadByte_inv in E as [Hw Hw1].
    apply IH in Hrec as (bs & Hlen & Hh & Hw' & Hw2 & Hr).
    pose proof (Hr (wrap64_range _)) as Hr'.
    exists (b :: bs).
    split; [simpl; congruence|].
    split; [rewrite Hh, <- app_assoc; reflexivity|].
    split; [rewrite Hw, Hw'; reflexivity|].
    split; [rewrite Hw2, Hw1; reflexivity|].
    intros _. exact Hr'.
Qed.

Lemma read_mask_inv (n : nat) :
  forall hdr key w hdr' key' w',
    read_mask n hdr key w = ((hdr', key', None), w') ->
    exists bs,
      length bs = n /\ hdr' = hdr ++ bs /\ key' = key ++ bs /\ wire w = bs ++ wire w'
      /\ w' = set_read (wire w') (short w) w.
Proof.
  induction n as [| n IH]; intros hdr key w hdr' key' w'; cbn [read_mask].
  - intros [= <- <- <-]. exists []. rewrite !app_nil_r, set_read_same. auto.
  - destruct (ReadByte w) as [[b [e |]] w1] eqn:E; [discriminate|].
    intros Hrec. apply ReadByte_inv in E as [Hw Hw1].
    apply IH in Hrec as (bs & Hlen & Hh & Hk & Hw' & Hw2).
    exists (b :: bs). repeat split.
    + simpl. congruence.
    + rewrite Hh, <- app_assoc. reflexivity.
    + rewrite Hk, <- app_assoc. reflexivity.
    + rewrite Hw, Hw'. reflexivity.
    + rewrite Hw2, Hw1. reflexivity.
Qed.

Lemma NewFrameReader_inv (w w1 : World) (r : tcpFrameReader) :
  NewFrameReader w = (inl r, w1) ->
  exists hdr,
    data (header r) = Some hdr
    /\ wire w = preambule ++ hdr ++ wire w1
    /\ w1 = set_read (wire w1) (short w) w
    /\ limit r = Length (header r)
    /\ pos r = 0
    /\ key_ok (MaskingKey (header r))
    /\ length_ r = wrap64 (Z.of_nat (length hdr) + Length (header r))
    /\ - 2 ^ 63 <= Length (header r) < 2 ^ 63
    /\ (2 <= length hdr <= 14)%nat.
Proof.
  unfold NewFrameReader.
  destruct (check_preambule preambule w) as [[e |] wa] eqn:Ep; [discriminate|].
  destruct (ReadByte wa) as [[b1 [e |]] wb] eqn:E1; [discriminate|].
  destruct (ReadByte wb) as [[b2 [e |]] wc] eqn:E2; [discriminate|].
  set (b := Z.land b2 0x7f).
  assert (Hb : 0 <= b < 128).
  { unfold b. rewrite land_127_mod. apply Z.mod_pos_bound. lia. }
  set (sel := if b <=? 125 then (b, O)
              else if b =? 126 then (0, 2%nat)
              else if b =? 127 then (0, 8%nat) else (0, O)).
  assert (Hsel : - 2 ^ 63 <= fst sel < 2 ^ 63 /\ (snd sel <= 8)%nat).
  { unfold sel. destruct (b <=? 125) eqn:Ea; [simpl; lia|].
    destruct (b =? 126); [simpl; lia|]. destruct (b =? 127); simpl; lia. }
  destruct sel as [len0 lengthFields]. cbn [fst snd] in Hsel.
  destruct (read_length lengthFields ([b1] ++ [b2]) len0 wc)
    as [[[hdr1 len] [e |]] wd] eqn:El; [discriminate|].
  set (m := negb (Z.land b2 0x80 =? 0)).
  destruct (if m then read_mask 4 hdr1 [] wd else ((hdr1, [], None), wd))
    as [[[hdr2 key] [e |]] we] eqn:Em; [discriminate|].
  intros [= <- <-]. cbn [header data limit pos length_ Length MaskingKey].
  apply check_preambule_inv in Ep as [Hwa Hwa'].
  apply ReadByte_inv in E1 as [Hwb Hwb'].
  apply ReadByte_inv in E2 as [Hwc Hwc'].
  apply read_length_inv in El as (ext & Hext & Hh1 & Hwd & Hwd' & Hrange).
  assert (Hkey : exists kb, hdr2 = hdr1 ++ kb /\ wire wd = kb ++ wire we
                   /\ we = set_read (wire we) (short wd) wd
                   /\ key_ok (if m then Some key else None)
                   /\ (length kb <= 4)%nat).
  { destruct m.
    - apply read_mask_inv in Em as (kb & Hkb & Hh2 & Hk & Hwe & Hwe').
      exists kb. simpl in Hk. subst key. simpl. repeat split; auto; lia.
    - injection Em as <- <- <-. exists []. rewrite app_nil_r, set_read_same.
      simpl. repeat split; auto. }
  destruct Hkey as (kb & Hh2 & Hwe & Hwe' & Hk & Hkb).
  exists hdr2. repeat split; try tauto.
  - rewrite Hwa, Hwb, Hwc, Hwd, Hwe, Hh2, Hh1. cbn [app].
    now rewrite <- !app_assoc.
  - rewrite Hwe', Hwd', Hwc', Hwb', Hwa'. reflexivity.
  - rewrite Hh2, Hh1, !length_app. simpl. lia.
  - rewrite Hh2, Hh1, !length_app. simpl. lia.
Qed.

Lemma frame_bytes_shape (op : Z) (mk : option (list Z)) (msg : list Z) :
  key_ok mk ->
  exists body,
    frame_bytes op mk msg
    = preambule ++ build_header (written_header op mk) (Z.of_nat (length msg))
      ++ key_bytes mk ++ body
    /\ unmasks mk 0 body msg.
Proof.
  intros Hk. unfold frame_bytes. fold (written_header op mk).
  destruct mk as [k |]; cbn [key_bytes key_ok unmasks] in *.
  - destruct (xor_key_total k msg Hk 0) as [body Hx]. rewrite Hx.
    exists body. split; [reflexivity | now apply xor_key_involutive].
  - now exists msg.
Qed.

Lemma tcpFrameReader_Read_done r w want :
  limit r <= 0 -> key_ok (MaskingKey (header r)) ->
  exists r', tcpFrameReader_Read r want w = Returns (([], Some EOF), r', w).
Proof.
  intros Hl Hk. unfold tcpFrameReader_Read.
  rewrite LimitedReader_Read_done by assumption.
  destruct (MaskingKey (header r)); simpl; now eexists.
Qed.

Lemma classic_healthy (w : World) : healthy w \/ ~ healthy w.
Proof.
  unfold healthy. destruct (bw_err w), (pending w), (write_room w);
    try (right; intros (? & ? & ?); discriminate).
  now left.
Qed.

Lemma classic_can_draw (masked : bool) (w : World) :
  can_draw masked w \/ ~ can_draw masked w.
Proof.
  unfold can_draw. destruct masked.
  - destruct (le_dec 4 (length (entropy w))); [now left | right; auto].
  - left. discriminate.
Qed.

Section Claims.
Context {X : Type} {XOps : FrameReaderOps X}.

Lemma io_Copy_Discard_decoded (fuel : nat) (r : tcpFrameReader) (w : World) :
  key_ok (MaskingKey (header r)) ->
  (Z.to_nat (limit r) <= length (wire w))%nat ->
  (Z.to_nat (limit r) < fuel)%nat ->
  exists r' w',
    io_Copy_Discard (X := X) fuel (TcpFrame r) w = Returns (None, TcpFrame r', w')
    /\ wire w' = skipn (Z.to_nat (limit r)) (wire w)
    /\ w' = set_read (wire w') (short w') w.
Proof.
  intros Hk Hav Hfuel.
  destruct (Z_le_gt_dec (limit r) 0) as [Hle | Hgt].
  - destruct fuel as [| fuel]; [lia|]. cbn [io_Copy_Discard frame_Read].
    destruct (tcpFrameReader_Read_done r w discard_block Hle Hk) as [r' ->].
    cbn [bind is_EOF]. exists r', w.
    replace (Z.to_nat (limit r)) with O by lia.
    repeat split. now rewrite set_read_same.
  - set (n := Z.to_nat (limit r)) in *.
    assert (Hplain : exists plain,
               unmasks (MaskingKey (header r)) (pos r) (firstn n (wire w)) plain).
    { destruct (MaskingKey (header r)) as [k |]; simpl.
      - apply xor_key_total. exact Hk.
      - now eexists. }
    destruct Hplain as [plain Hu].
    assert (Hr : reading r w plain (skipn n (wire w))).
    { exists (firstn n (wire w)). rewrite firstn_skipn, length_firstn.
      repeat split; try assumption. lia. }
    destruct (io_Copy_Discard_tcp (X := X) fuel r w plain _ Hr) as (r' & w' & HD & Hw & Hw').
    { apply unmasks_length in Hu. rewrite Hu, length_firstn. lia. }
    exists r', w'. repeat split; try assumption.
    rewrite Hw' at 1. now rewrite Hw.
Qed.

(** C1.  Round trip.  On a fresh connection over an empty, healthy stream,
  [Conn.Write] of a payload [P], by a masking or a plain writer, followed
  by a loop of [Conn.Read] calls with any positive buffer sizes and any
  schedule of short reads, delivers a prefix of [P], byte for byte and in
  order, and all of [P], followed by the end of the stream, once there
  are more calls than bytes.  The payload type of the connection is any
  but one that carries the close opcode. *)
Theorem write_read_round_trip (P : list Z) (conn : @Conn X tcpFrameHandler)
    (w : World) (sizes : list nat) (fuel : nat) :
  let masked := needMaskingKey (conn_frameWriterFactory conn) in
  Z.of_nat (length P) <= max_int64 ->
  conn_frameReader conn = None ->
  wire w = [] -> healthy w -> can_draw masked w ->
  Z.land (PayloadType conn) 0x0f <> CloseFrame ->
  Forall (fun n => (0 < n)%nat) sizes ->
  (2 <= fuel)%nat ->
  exists n conn1 w1 got err conn2 w2,
    Conn_Write P conn w = Returns ((n, None), conn1, w1)
    /\ read_calls fuel sizes conn1 w1 = Returns ((got, err), conn2, w2)
    /\ (exists rest, P = got ++ rest)
    /\ ((length P < length sizes)%nat -> got = P /\ err = Some (read_end w)).
Proof.
  intros masked Hlen Hnone Hwire Hh Hd Hop Hpos Hfuel.
  rewrite Conn_Write_healthy by assumption. fold masked.
  set (mk := drawn_key masked w).
  set (w1 := set_flushed _ _ _ _ _).
  exists (4 + header_width masked (Z.of_nat (length P)) + Z.of_nat (length P)), conn, w1.
  destruct sizes as [| n sizes].
  { exists [], None, conn, w1. simpl. repeat split; [now exists P | lia | lia]. }
  destruct fuel as [| [| fuel]]; [lia | lia |].
  assert (Hk : key_ok mk) by now apply drawn_key_ok.
  destruct (frame_bytes_shape (PayloadType conn) mk P Hk) as (body & Hfb & Hu).
  destruct (NewFrameReader_written (PayloadType conn) mk (Z.of_nat (length P)) body w1)
    as [rsv Hnew]; [ | assumption | unfold max_int64 in Hlen; lia | ].
  { unfold w1. cbn [wire set_flushed]. now rewrite Hwire, Hfb. }
  match type of Hnew with _ = (inl ?r0, ?w0) => set (r := r0) in *; set (w2 := w0) in * end.
  destruct (HandleFrame_passes (X := X) (conn_frameHandler conn) r Hop) as (op & h' & Hh').
  assert (Hr : reading (set_OpCode op r) w2 P []).
  { exists body. unfold w2, r. cbn. rewrite app_nil_r.
    repeat split; try assumption.
    apply unmasks_length in Hu. congruence. }
  destruct (read_calls_payload fuel (n :: sizes)
              (set_handled (Some (TcpFrame (set_OpCode op r))) h' conn) w2
              (set_OpCode op r) P eq_refl Hr Hpos)
    as (got & err & conn2 & w3 & HC & Hpre & Hfull).
  exists got, err, conn2, w3. split; [reflexivity|].
  split; [| split; [assumption|]].
  - cbn [read_calls] in HC |- *.
    change (HandleFrame (conn_frameHandler conn) (TcpFrame r)
            = Returns ((Some (TcpFrame (set_OpCode op r)), None), h')) in Hh'.
    rewrite (Conn_Read_fetch (S fuel) n conn w1 w2 r _ h' Hnone Hnew Hh').
    exact HC.
  - intros Hlt. destruct (Hfull Hlt) as [-> ->]. split; [reflexivity|].
    unfold w2, w1. destruct masked; reflexivity.
Qed.

(** The held payload type after a run of frames. *)
Lemma handle_frames_app (fs gs : list tcpFrameReader) :
  forall handler,
    handle_frames (X := X) handler (fs ++ gs)
    = (h <- handle_frames (X := X) handler fs ;; handle_frames (X := X) h gs).
Proof.
  induction fs as [| f fs IH]; intros handler; [reflexivity|].
  cbn [app handle_frames].
  destruct (tcpFrameHandler_HandleFrame handler (TcpFrame f)) as [[res h'] | |];
    cbn [bind]; auto.
Qed.

Lemma handle_frames_returns (fs : list tcpFrameReader) :
  forall handler, exists h, handle_frames (X := X) handler fs = Returns h.
Proof.
  induction fs as [| f fs IH]; intros handler; [now eexists|].
  cbn [handle_frames]. unfold tcpFrameHandler_HandleFrame.
  cbn [frame_PayloadType].
  repeat match goal with
         | |- context [if ?c then _ else _] => destruct c
         end; cbn [bind]; apply IH.
Qed.

Lemma handle_frames_keeps (fs : list tcpFrameReader) :
  forall handler,
    Forall (fun f => OpCode (header f) <> TextFrame /\ OpCode (header f) <> BinaryFrame) fs ->
    handle_frames (X := X) handler fs = Returns handler.
Proof.
  induction fs as [| f fs IH]; intros handler Hfs; [reflexivity|].
  inversion Hfs as [| ? ? [H1 H2] Hfs']; subst.
  cbn [handle_frames]. unfold tcpFrameHandler_HandleFrame.
  cbn [frame_PayloadType]. unfold tcpFrameReader_PayloadType.
  apply Z.eqb_neq in H1, H2. rewrite H1, H2. cbn [orb].
  repeat match goal with
         | |- context [if ?c then _ else _] => destruct c
         end; cbn [bind]; now apply IH.
Qed.

Lemma handle_frames_data (handler : tcpFrameHandler) (t : tcpFrameReader) :
  OpCode (header t) = TextFrame \/ OpCode (header t) = BinaryFrame ->
  handle_frames (X := X) handler [t] = Returns (mkHandler (OpCode (header t))).
Proof.
  intros Ht. cbn [handle_frames]. unfold tcpFrameHandler_HandleFrame.
  cbn [frame_PayloadType]. unfold tcpFrameReader_PayloadType.
  destruct Ht as [-> | ->]; reflexivity.
Qed.

(** C4.  A continuation frame handed to the handler is reported with the
  held payload type; after a text or binary frame [t], and any frames
  that are neither, the held type is the opcode of [t], so that a
  continuation frame is then reported with the opcode of [t]. *)
Theorem continuation_takes_held_type (handler0 : tcpFrameHandler)
    (before between : list tcpFrameReader) (t c : tcpFrameReader) :
  OpCode (header t) = TextFrame \/ OpCode (header t) = BinaryFrame ->
  Forall (fun f => OpCode (header f) <> TextFrame /\ OpCode (header f) <> BinaryFrame)
         between ->
  OpCode (header c) = ContinuationFrame ->
  (forall handler,
      tcpFrameHandler_HandleFrame (X := X) handler (TcpFrame c)
      = Returns ((Some (TcpFrame (set_OpCode (payloadType handler) c)), None), handler)
      /\ frame_PayloadType (X := X) (TcpFrame (set_OpCode (payloadType handler) c))
         = payloadType handler)
  /\ exists handler,
      handle_frames (X := X) handler0 (before ++ t :: between) = Returns handler
      /\ payloadType handler = OpCode (header t)
      /\ tcpFrameHandler_HandleFrame (X := X) handler (TcpFrame c)
         = Returns ((Some (TcpFrame (set_OpCode (OpCode (header t)) c)), None), handler).
Proof.
  intros Ht Hbetween Hc. split.
  - intros handler. split; [now apply HandleFrame_continuation | reflexivity].
  - exists (mkHandler (OpCode (header t))).
    assert (Hrun : handle_frames (X := X) handler0 (before ++ t :: between)
                   = Returns (mkHandler (OpCode (header t)))).
    { rewrite handle_frames_app.
      destruct (handle_frames_returns before handler0) as [h1 ->]. cbn [bind].
      change (t :: between) with ([t] ++ between).
      rewrite handle_frames_app, (handle_frames_data h1 t Ht). cbn [bind].
      now apply handle_frames_keeps. }
    split; [exact Hrun|]. split; [reflexivity|].
    now rewrite (HandleFrame_continuation _ c Hc).
Qed.

(** C5.  For payloads of 125, 126, 65535 and 65536 bytes the header the
  writer sends has, after its first byte, 1, 3, 3 and 9 bytes: the
  length indicator and 0, 2, 2 and 8 big-endian bytes of extended length;
  decoding the frame gives back the payload length. *)
Theorem length_indicator_boundaries (len extra : Z) (msg : list Z)
    (conn : @Conn X tcpFrameHandler) (w : World) :
  let masked := needMaskingKey (conn_frameWriterFactory conn) in
  let mk := drawn_key masked w in
  let hdr := build_header (written_header (PayloadType conn) mk) len in
  In (len, extra) [(125, 1); (126, 3); (65535, 3); (65536, 9)] ->
  Z.of_nat (length msg) = len ->
  wire w = [] -> healthy w -> can_draw masked w ->
  exists n w1 r w2 body b1 b2,
    Conn_Write msg conn w = Returns ((n, None), conn, w1)
    /\ wire w1 = preambule ++ hdr ++ key_bytes mk ++ body
    /\ hdr = [b1; b2] ++ big_endian (Z.to_nat (extra - 1)) len
    /\ Z.of_nat (length hdr) = 1 + extra
    /\ length body = length msg
    /\ NewFrameReader w1 = (inl r, w2)
    /\ Length (header r) = len
    /\ wire w2 = body.
Proof.
  intros masked mk hdr Hin Hlen Hwire Hh Hd.
  assert (Hk : key_ok mk) by now apply drawn_key_ok.
  rewrite Conn_Write_healthy by assumption. fold masked. fold mk.
  destruct (frame_bytes_shape (PayloadType conn) mk msg Hk) as (body & Hfb & Hu).
  rewrite Hlen in Hfb. fold hdr in Hfb.
  set (w1 := set_flushed _ _ _ _ _).
  assert (Hw1 : wire w1 = preambule ++ hdr ++ key_bytes mk ++ body).
  { unfold w1. cbn [wire set_flushed]. now rewrite Hwire, Hfb. }
  assert (Hrange : 0 <= len < 2 ^ 63).
  { cbn [In] in Hin.
    destruct Hin as [[= <- <-] | [[= <- <-] | [[= <- <-] | [[= <- <-] | []]]]]; lia. }
  destruct (NewFrameReader_written (PayloadType conn) mk len body w1 Hw1 Hk Hrange)
    as [rsv Hnew].
  assert (Hshape : exists b1 b2,
             hdr = [b1; b2] ++ big_endian (Z.to_nat (extra - 1)) len
             /\ Z.of_nat (length hdr) = 1 + extra).
  { unfold hdr. cbn [In] in Hin.
    destruct Hin as [[= <- <-] | [[= <- <-] | [[= <- <-] | [[= <- <-] | []]]]].
    - rewrite build_header_short by lia. now eexists _, _.
    - rewrite build_header_medium by lia. now eexists _, _.
    - rewrite build_header_medium by lia. now eexists _, _.
    - rewrite build_header_long by lia. now eexists _, _. }
  destruct Hshape as (b1 & b2 & Hhdr & Hhl).
  eexists _, w1, _, _, body, b1, b2.
  split; [reflexivity|]. split; [exact Hw1|]. split; [exact Hhdr|].
  split; [exact Hhl|]. split; [now apply unmasks_length in Hu|].
  split; [exact Hnew|]. split; reflexivity.
Qed.

(** What the writer returns and leaves, whatever the state of the
    buffered writer. *)
Lemma bufio_Write_facts (p : list Z) (w : World) :
  exists res w',
    bufio_Write p w = (res, w')
    /\ close_err w' = close_err w /\ closed w' = closed w /\ bw_err w' = bw_err w.
Proof.
  unfold bufio_Write. destruct (bw_err w) as [e |] eqn:E; eexists _, _;
    (split; [reflexivity|]); cbn [close_err closed bw_err set_pending]; auto.
Qed.

Lemma bufio_Flush_facts (w : World) :
  exists err w',
    bufio_Flush w = (err, w')
    /\ close_err w' = close_err w /\ closed w' = closed w
    /\ (forall e, bw_err w = Some e -> err = Some e).
Proof.
  unfold bufio_Flush. destruct (bw_err w) as [e |] eqn:E.
  - eexists _, _. do 3 (split; [reflexivity|]). intros e0 He0; exact He0.
  - destruct (pending w) as [| b bs] eqn:Ep.
    + eexists _, _. do 3 (split; [reflexivity|]). intros e0 He0; discriminate He0.
    + destruct (rwc_Write (b :: bs) w) as [[n [e |]] [out room]];
        eexists _, _; (do 3 (split; [reflexivity|])); intros e0 He0; discriminate He0.
Qed.

Lemma emit_facts (hdr payload : list Z) (w : World) :
  exists err w',
    emit hdr payload w = (err, w')
    /\ close_err w' = close_err w /\ closed w' = closed w
    /\ (forall e, bw_err w = Some e -> err = Some e).
Proof.
  unfold emit.
  destruct (bufio_Write_facts preambule w) as (r1 & w1 & -> & Hc1 & Hd1 & He1).
  destruct (bufio_Write_facts hdr w1) as (r2 & w2 & -> & Hc2 & Hd2 & He2).
  destruct (bufio_Write_facts payload w2) as (r3 & w3 & -> & Hc3 & Hd3 & He3).
  destruct (bufio_Flush_facts w3) as (err & w4 & -> & Hc4 & Hd4 & He4).
  exists err, w4. split; [reflexivity|].
  split; [congruence|]. split; [congruence|].
  intros e He. apply He4. congruence.
Qed.

Lemma tcpFrameWriter_Write_returns (op : Z) (mk : option (list Z)) (msg : list Z)
    (w : World) :
  key_ok mk ->
  exists err w',
    tcpFrameWriter_Write (mkWriter (written_header op mk)) msg w
    = Returns ((4 + header_width (match mk with Some _ => true | None => false end)
                     (Z.of_nat (length msg)) + Z.of_nat (length msg), err), w')
    /\ close_err w' = close_err w /\ closed w' = closed w
    /\ (forall e, bw_err w = Some e -> err = Some e).
Proof.
  intros Hk. unfold tcpFrameWriter_Write. cbn [writer_header].
  destruct mk as [k |]; cbn [MaskingKey written_header key_ok] in *.
  - rewrite Hk. cbn [Nat.eqb negb].
    destruct (xor_key_total k msg Hk 0) as [payload ->].
    destruct (emit_facts (build_header (written_header op (Some k))
                            (Z.of_nat (length msg)) ++ k) payload w)
      as (err & w' & -> & Hfacts).
    exists err, w'. split; [| exact Hfacts].
    rewrite length_app, Nat2Z.inj_add, build_header_length, Hk by lia.
    unfold header_width. change (Z.of_nat (length preambule)) with 4.
    match goal with
    | |- Returns (?a, _, _) = Returns (?b, _, _) => replace a with b; [reflexivity|]
    end.
    destruct (Z.of_nat (length msg) <=? 125);
      [| destruct (Z.of_nat (length msg) <? 65536)]; lia.
  - destruct (emit_facts (build_header (written_header op None)
                            (Z.of_nat (length msg))) msg w)
      as (err & w' & -> & Hfacts).
    exists err, w'. split; [| exact Hfacts].
    rewrite build_header_length by lia.
    unfold header_width. change (Z.of_nat (length preambule)) with 4.
    match goal with
    | |- Returns (?a, _, _) = Returns (?b, _, _) => replace a with b; [reflexivity|]
    end.
    destruct (Z.of_nat (length msg) <=? 125);
      [| destruct (Z.of_nat (length msg) <? 65536)]; lia.
Qed.

(** C6, as amended.  When the random source delivers the key a masking
  writer needs, [Conn.Write] returns the size of the whole frame: the 4
  bytes of the preamble, the header bytes and the payload bytes; the
  error is [nil] when the stream writes succeed. *)
Theorem Conn_Write_returns_frame_size (msg : list Z)
    (conn : @Conn X tcpFrameHandler) (w : World) :
  let masked := needMaskingKey (conn_frameWriterFactory conn) in
  can_draw masked w ->
  exists err w',
    Conn_Write msg conn w
    = Returns ((4 + header_width masked (Z.of_nat (length msg))
                + Z.of_nat (length msg), err), conn, w')
    /\ (healthy w -> err = None).
Proof.
  intros masked Hd.
  destruct (classic_healthy w) as [Hh | Hn].
  - rewrite Conn_Write_healthy by assumption. now eexists _, _.
  - unfold Conn_Write.
    destruct (conn_frameWriterFactory conn) as [m] eqn:Ef.
    cbn [needMaskingKey] in masked. subst masked.
    rewrite NewFrameWriter_ok by assumption.
    destruct (tcpFrameWriter_Write_returns (PayloadType conn) (drawn_key m w) msg
                (after_draw m w) (drawn_key_ok m w Hd)) as (err & w' & -> & _).
    cbn [bind]. rewrite drawn_key_masked. exists err, w'. split; [reflexivity|].
    intros Hh. contradiction.
Qed.

(** C7, as amended.  For every decoded frame, [Len] is the number of header
  bytes consumed after the 4 bytes of the preamble, plus the payload
  length, in the arithmetic of [int]; it is their exact sum whenever the
  payload length leaves room for the header. *)
Theorem Len_is_header_plus_payload (w w1 : World) (r : tcpFrameReader) :
  NewFrameReader w = (inl r, w1) ->
  let consumed := Z.of_nat (length (wire w)) - Z.of_nat (length (wire w1)) in
  tcpFrameReader_Len r = wrap64 (consumed - 4 + Length (header r))
  /\ (Length (header r) <= max_int64 - 14 ->
      tcpFrameReader_Len r = consumed - 4 + Length (header r)).
Proof.
  intros Hnew consumed.
  destruct (NewFrameReader_inv w w1 r Hnew)
    as (hdr & _ & Hw & _ & _ & _ & _ & Hlen & Hrange & Hhdr).
  assert (Hc : consumed - 4 = Z.of_nat (length hdr)).
  { unfold consumed. rewrite Hw, !length_app.
    change (length preambule) with 4%nat. lia. }
  unfold tcpFrameReader_Len. rewrite Hc, Hlen. split; [reflexivity|].
  intros Hsmall. apply wrap64_small. unfold max_int64 in Hsmall. lia.
Qed.

Lemma big_endian_2 (v : Z) :
  0 <= v < 65536 -> big_endian 2 v = [v / 256; v mod 256].
Proof.
  intros Hv. cbn [big_endian]. rewrite !land_255_mod.
  change (8 * Z.of_nat 1) with 8. change (8 * Z.of_nat 0) with 0.
  rewrite Z.shiftr_0_r, Z.shiftr_div_pow2 by lia.
  change (2 ^ 8) with 256. f_equal. apply Z.mod_small.
  split; [apply Z.div_pos; lia | apply Z.div_lt_upper_bound; lia].
Qed.

(** The bytes of a close frame with status [s], by masking key. *)
Lemma close_frame_bytes (mk : option (list Z)) (hi lo : Z) :
  key_ok mk ->
  frame_bytes CloseFrame mk [hi; lo]
  = [0x5A; 0xA5; 0x5A; 0xA5; 0x88]
    ++ match mk with
       | None => [0x02; hi; lo]
       | Some k => 0x82 :: k ++ [Z.lxor hi (nth 0 k 0); Z.lxor lo (nth 1 k 0)]
       end.
Proof.
  intros Hk. destruct mk as [k |]; [| reflexivity].
  destruct k as [| k0 [| k1 [| k2 [| k3 [| ? ?]]]]]; try discriminate.
  reflexivity.
Qed.

(** C8.  [Conn.Close] writes a close frame, opcode 8, whose payload is the
  big-endian pair of bytes of the default close status (1000 on a new
  connection), closes the stream whatever the outcome of that write, and
  returns the error of the write if it failed and the result of closing
  the stream otherwise. *)
Theorem Conn_Close_sends_close_frame_then_closes (conn : @Conn X tcpFrameHandler)
    (w : World) :
  let masked := needMaskingKey (conn_frameWriterFactory conn) in
  let status := uint16 (defaultCloseStatus conn) in
  exists werr w1,
    tcpFrameHandler_WriteClose (conn_frameHandler conn) (conn_frameWriterFactory conn)
      (defaultCloseStatus conn) w
    = Returns (werr, conn_frameHandler conn, w1)
    /\ Conn_Close conn w
       = Returns (match werr with Some e => Some e | None => close_err w end,
                  conn, set_closed w1)
    /\ closed (set_closed w1) = true
    /\ (healthy w -> can_draw masked w ->
        werr = None
        /\ wire w1
           = wire w ++ [0x5A; 0xA5; 0x5A; 0xA5; 0x88]
             ++ match drawn_key masked w with
                | None => [0x02; status / 256; status mod 256]
                | Some k => 0x82 :: k ++ [Z.lxor (status / 256) (nth 0 k 0);
                                          Z.lxor (status mod 256) (nth 1 k 0)]
                end)
    /\ (forall e, bw_err w = Some e -> can_draw masked w -> werr = Some e)
    /\ (forall (handler : tcpFrameHandler) (maxPayloadBytes : Z),
          defaultCloseStatus (NewFrameConnection (X := X) handler maxPayloadBytes) = 1000).
Proof.
  intros masked status.
  assert (Hstatus : 0 <= status < 65536)
    by (unfold status, uint16; apply Z.mod_pos_bound; lia).
  assert (Hsame : set_handled (conn_frameReader conn) (conn_frameHandler conn) conn = conn)
    by now destruct conn.
  assert (Hpayload : AppendUint16 [] (uint16 (defaultCloseStatus conn))
                     = [status / 256; status mod 256]).
  { unfold AppendUint16. cbn [app]. now apply big_endian_2. }
  unfold Conn_Close.
  change (WriteClose (conn_frameHandler conn) (conn_frameWriterFactory conn)
            (defaultCloseStatus conn) w)
    with (tcpFrameHandler_WriteClose (conn_frameHandler conn)
            (conn_frameWriterFactory conn) (defaultCloseStatus conn) w).
  unfold tcpFrameHandler_WriteClose. rewrite Hpayload.
  destruct (conn_frameWriterFactory conn) as [m] eqn:Ef.
  cbn [needMaskingKey] in masked. subst masked.
  destruct (classic_can_draw m w) as [Hd | Hn].
  - rewrite NewFrameWriter_ok by assumption.
    destruct (tcpFrameWriter_Write_returns CloseFrame (drawn_key m w)
                [status / 256; status mod 256] (after_draw m w) (drawn_key_ok m w Hd))
      as (err & w1 & HW & Hce & Hcl & Hsticky).
    rewrite HW. cbn [bind]. exists err, w1.
    split; [reflexivity|]. split.
    { unfold rwc_Close. rewrite Hsame, Hce. destruct err, m; reflexivity. }
    split; [reflexivity|]. split; [| split; [| reflexivity]].
    + intros Hh _.
      rewrite tcpFrameWriter_Write_healthy in HW
        by (auto using after_draw_healthy, drawn_key_ok).
      injection HW as <- <-. split; [reflexivity|].
      cbn [wire set_flushed]. rewrite after_draw_wire.
      now rewrite close_frame_bytes by (now apply drawn_key_ok).
    + intros e He _. apply Hsticky. destruct m; exact He.
  - assert (Hm : m = true /\ (length (entropy w) < 4)%nat).
    { unfold can_draw in Hn. destruct m; [split; [reflexivity | lia] |].
      exfalso. apply Hn. discriminate. }
    destruct Hm as [-> Hshort].
    unfold NewFrameWriter, generateMaskingKey, rand_Read. cbn [needMaskingKey].
    destruct (4 <=? length (entropy w))%nat eqn:E; [apply Nat.leb_le in E; lia|].
    exists (Some ErrRand), w. split; [reflexivity|].
    split; [unfold rwc_Close; cbn [bind]; now rewrite Hsame|].
    split; [reflexivity|]. split; [| split; [| reflexivity]].
    + intros _ Hd. contradiction.
    + intros e _ Hd. contradiction.
Qed.

(** C9, as amended.  The held payload type of a new handler is 0, the
  continuation opcode; it stays so through frames that are neither text
  nor binary, and a continuation frame handled then is reported with
  opcode 0. *)
Theorem zero_handler_holds_continuation (earlier : list tcpFrameReader)
    (c : tcpFrameReader) :
  Forall (fun f => OpCode (header f) <> TextFrame /\ OpCode (header f) <> BinaryFrame)
         earlier ->
  OpCode (header c) = ContinuationFrame ->
  payloadType zero_tcpFrameHandler = ContinuationFrame
  /\ handle_frames (X := X) zero_tcpFrameHandler earlier = Returns zero_tcpFrameHandler
  /\ tcpFrameHandler_HandleFrame (X := X) zero_tcpFrameHandler (TcpFrame c)
     = Returns ((Some (TcpFrame (set_OpCode ContinuationFrame c)), None),
                zero_tcpFrameHandler)
  /\ frame_PayloadType (X := X) (TcpFrame (set_OpCode ContinuationFrame c))
     = ContinuationFrame.
Proof.
  intros Hearlier Hc. split; [reflexivity|].
  split; [now apply handle_frames_keeps|].
  split; [now apply HandleFrame_continuation | reflexivity].
Qed.

(** C10.  [Conn.ReadFrame] compares the payload length with the maximum
  only for a frame of the codec's own type: such a frame is drained and
  refused when it is larger, while a frame of any other type is read to
  its end and returned, whatever [MaxPayloadBytes] is. *)
Theorem ReadFrame_checks_size_of_codec_frames_only
    {H : Type} {HOps : FrameHandlerOps (X := X) H}
    (factory : tcpFrameWriterFactory) (handler handler' : H)
    (payloadType status maxPayloadBytes : Z)
    (w w1 : World) (r : tcpFrameReader) (frame : frameReader X) (fuel : nat) :
  let conn := mkConn None factory handler payloadType status maxPayloadBytes in
  NewFrameReader w = (inl r, w1) ->
  HandleFrame handler (TcpFrame r) = Returns ((Some frame, None), handler') ->
  match frame with
  | OtherFrame x =>
    Conn_ReadFrame (S fuel) conn w
    = ('(res, _, w2) <- io_ReadAll (S fuel) [] (OtherFrame x) w1 ;;
       Returns (res, set_handled None handler' conn, w2))
  | TcpFrame r' =>
    if effective_max maxPayloadBytes <? Length (header r')
    then
      Conn_ReadFrame (S fuel) conn w
      = ('(err, _, w2) <- io_Copy_Discard (S fuel) (TcpFrame r') w1 ;;
         Returns (([], Some (match err with
                             | Some e => e
                             | None => ErrFrameTooLarge
                             end)), set_handled None handler' conn, w2))
    else
      Conn_ReadFrame (S fuel) conn w
      = ('(res, _, w2) <- io_ReadAll (S fuel) [] (TcpFrame r') w1 ;;
         Returns (res, set_handled None handler' conn, w2))
  end.
Proof.
  intros conn Hnew Hh.
  unfold Conn_ReadFrame. cbn [conn_frameReader conn].
  cbn [ReadFrame_loop]. rewrite Hnew. cbn [conn_frameHandler conn].
  rewrite Hh. cbn [bind]. cbn [MaxPayloadBytes set_handled conn_frameReader conn].
  fold (effective_max maxPayloadBytes).
  destruct frame as [r' | x].
  - destruct (effective_max maxPayloadBytes <? Length (header r')).
    + destruct (io_Copy_Discard (S fuel) (TcpFrame r') w1) as [[[err f] w2] | |];
        [| reflexivity | reflexivity].
      cbn [bind]. now destruct err.
    + reflexivity.
  - reflexivity.
Qed.
End Claims.

(** ** Concrete runs *)

(** A masked text payload of five bytes, read back two bytes at a time
    from a stream that serves short reads. *)
Lemma write_read_round_trip_witness :
  let P := [1; 2; 3; 4; 5] in
  let sizes := [2; 2; 2; 2; 2; 2]%nat in
  exists n conn1 w1 got err conn2 w2,
    Conn_Write P (demo_conn true TextFrame 0) (demo_world [] [0; 2]%nat)
    = Returns ((n, None), conn1, w1)
    /\ read_calls 2 sizes conn1 w1 = Returns ((got, err), conn2, w2)
    /\ (exists rest, P = got ++ rest)
    /\ ((length P < length sizes)%nat -> got = P /\ err = Some EOF).
Proof.
  intros P sizes.
  apply (write_read_round_trip P (demo_conn true TextFrame 0)
           (demo_world [] [0; 2]%nat) sizes 2).
  - unfold max_int64. simpl. lia.
  - reflexivity.
  - reflexivity.
  - repeat split.
  - intros _. simpl. lia.
  - vm_compute. discriminate.
  - repeat constructor.
  - lia.
Defined.

(** The handler comes before the size check: with [MaxPayloadBytes = 1], a
    close frame with a payload of two bytes is not refused as too large
    and is not drained; [Conn.ReadFrame] fails with [EOF]. *)
Lemma ReadFrame_oversized_close_frame :
  (exists r w1,
      NewFrameReader (demo_world close_1000 []) = (inl r, w1)
      /\ effective_max (MaxPayloadBytes (demo_conn false BinaryFrame 1)) < Length (header r))
  /\ Conn_ReadFrame 5 (demo_conn false BinaryFrame 1) (demo_world close_1000 [])
     = Returns (([], Some EOF), demo_conn false BinaryFrame 1, demo_world [0x03; 0xE8] [])
  /\ ~ (exists conn' w',
          Conn_ReadFrame 5 (demo_conn false BinaryFrame 1) (demo_world close_1000 [])
          = Returns (([], Some ErrFrameTooLarge), conn', w')).
Proof.
  split; [| split].
  - eexists _, _. split; [reflexivity | reflexivity].
  - reflexivity.
  - intros (conn' & w' & Hrun). vm_compute in Hrun. discriminate Hrun.
Qed.

(** A text frame, then a continuation frame. *)
Lemma continuation_takes_held_type_witness :
  exists handler,
    handle_frames (X := memFrame) zero_tcpFrameHandler [reader_of TextFrame 3]
    = Returns handler
    /\ payloadType handler = TextFrame
    /\ tcpFrameHandler_HandleFrame (X := memFrame) handler
         (TcpFrame (reader_of ContinuationFrame 4))
       = Returns ((Some (TcpFrame (reader_of TextFrame 4)), None), handler).
Proof.
  apply (continuation_takes_held_type (X := memFrame) zero_tcpFrameHandler [] []
           (reader_of TextFrame 3) (reader_of ContinuationFrame 4)).
  - left. reflexivity.
  - constructor.
  - reflexivity.
Defined.

(** A masked payload of 126 bytes. *)
Lemma length_indicator_boundaries_witness :
  let msg := repeat 7 126 in
  exists n w1 r w2 body b1 b2,
    Conn_Write msg (demo_conn true BinaryFrame 0) (demo_world [] []) = Returns ((n, None), demo_conn true BinaryFrame 0, w1)
    /\ wire w1 = preambule ++ [0x82; 0xFE; 0; 126] ++ [0x11; 0x22; 0x33; 0x44] ++ body
    /\ [0x82; 0xFE; 0; 126] = [b1; b2] ++ big_endian 2 126
    /\ Z.of_nat (length [0x82; 0xFE; 0; 126]) = 1 + 3
    /\ length body = length msg
    /\ NewFrameReader w1 = (inl r, w2)
    /\ Length (header r) = 126
    /\ wire w2 = body.
Proof.
  intros msg.
  apply (length_indicator_boundaries 126 3 msg (demo_conn true BinaryFrame 0)
           (demo_world [] [])).
  - right. left. reflexivity.
  - reflexivity.
  - reflexivity.
  - repeat split.
  - intros _. simpl. lia.
Defined.

(** Against C6 as stated: the write of a payload of one byte returns 7. *)
Lemma Conn_Write_counts_header_bytes :
  Conn_Write [7] (demo_conn false TextFrame 0) (demo_world [] [])
  = Returns ((7, None), demo_conn false TextFrame 0,
             demo_world [0x5A; 0xA5; 0x5A; 0xA5; 0x81; 0x01; 7] [])
  /\ 7 <> Z.of_nat (length [7]).
Proof. split; [reflexivity | discriminate]. Qed.

(** A masked payload of one byte. *)
Lemma Conn_Write_returns_frame_size_witness :
  exists err w',
    Conn_Write [7] (demo_conn true TextFrame 0) (demo_world [] [])
    = Returns ((4 + header_width true 1 + 1, err), demo_conn true TextFrame 0, w')
    /\ (healthy (demo_world [] []) -> err = None).
Proof.
  apply (Conn_Write_returns_frame_size [7] (demo_conn true TextFrame 0) (demo_world [] [])).
  intros _. simpl. lia.
Defined.

(** Against C7 as stated: the frame of the reader test takes 10 header
    bytes with the preamble and 4 payload bytes, and its [Len] is 10. *)
Lemma Len_leaves_preambule_out :
  NewFrameReader (demo_world test_frame []) = (inl test_reader, demo_world [116; 101; 115; 116] [])
  /\ Z.of_nat (length test_frame) - Z.of_nat (length [116; 101; 115; 116]) = 10
  /\ Length (header test_reader) = 4
  /\ tcpFrameReader_Len test_reader = 10
  /\ tcpFrameReader_Len test_reader <> 10 + 4.
Proof.
  split; [reflexivity|].
  repeat split. discriminate.
Qed.

(** The frame of the reader test. *)
Lemma Len_is_header_plus_payload_witness :
  NewFrameReader (demo_world test_frame []) = (inl test_reader, demo_world [116; 101; 115; 116] [])
  /\ tcpFrameReader_Len test_reader = wrap64 (14 - 4 - 4 + 4)
  /\ (4 <= max_int64 - 14 -> tcpFrameReader_Len test_reader = 14 - 4 - 4 + 4).
Proof.
  assert (Hnew : NewFrameReader (demo_world test_frame [])
                 = (inl test_reader, demo_world [116; 101; 115; 116] []))
    by reflexivity.
  split; [exact Hnew|].
  exact (Len_is_header_plus_payload (demo_world test_frame [])
           (demo_world [116; 101; 115; 116] []) test_reader Hnew).
Defined.

(** Against C9 as stated: a new handler holds 0, not [UnknownFrame], and
    reports a first continuation frame with opcode 0. *)
Lemma zero_handler_is_not_unknown :
  payloadType zero_tcpFrameHandler <> UnknownFrame
  /\ tcpFrameHandler_HandleFrame (X := memFrame) zero_tcpFrameHandler
       (TcpFrame (reader_of ContinuationFrame 4))
     = Returns ((Some (TcpFrame (reader_of ContinuationFrame 4)), None),
                zero_tcpFrameHandler)
  /\ frame_PayloadType (X := memFrame) (TcpFrame (reader_of ContinuationFrame 4))
     <> UnknownFrame.
Proof. repeat split; discriminate. Qed.

(** A frame of opcode 9, then a continuation frame. *)
Lemma zero_handler_holds_continuation_witness :
  payloadType zero_tcpFrameHandler = ContinuationFrame
  /\ handle_frames (X := memFrame) zero_tcpFrameHandler [reader_of 9 1]
     = Returns zero_tcpFrameHandler
  /\ tcpFrameHandler_HandleFrame (X := memFrame) zero_tcpFrameHandler
       (TcpFrame (reader_of ContinuationFrame 4))
     = Returns ((Some (TcpFrame (set_OpCode ContinuationFrame (reader_of ContinuationFrame 4))),
                 None), zero_tcpFrameHandler)
  /\ frame_PayloadType (X := memFrame)
       (TcpFrame (set_OpCode ContinuationFrame (reader_of ContinuationFrame 4)))
     = ContinuationFrame.
Proof.
  apply (zero_handler_holds_continuation (X := memFrame) [reader_of 9 1]
           (reader_of ContinuationFrame 4)).
  - repeat constructor; discriminate.
  - reflexivity.
Defined.

(** A handler that hands on a memory frame of twelve bytes, and a maximum of
    ten: the twelve bytes are returned. *)
Lemma ReadFrame_checks_size_of_codec_frames_only_witness :
  Conn_ReadFrame 3
    (mkConn (X := memFrame) None (mkWriterFactory false) (mkWrap twelve) BinaryFrame
            closeStatusNormal 10)
    (demo_world [0x5A; 0xA5; 0x5A; 0xA5; 0x82; 0x00] [])
  = Returns ((twelve, None),
             mkConn None (mkWriterFactory false) (mkWrap twelve) BinaryFrame
                    closeStatusNormal 10,
             demo_world [] []).
Proof.
  exact (ReadFrame_checks_size_of_codec_frames_only (X := memFrame)
           (mkWriterFactory false) (mkWrap twelve) (mkWrap twelve)
           BinaryFrame closeStatusNormal 10
           (demo_world [0x5A; 0xA5; 0x5A; 0xA5; 0x82; 0x00] []) (demo_world [] [])
           (mkReader 0 (mkHeader true (false, false, false) 2 0 None (Some [0x82; 0])) 0 2)
           (OtherFrame (mkMem BinaryFrame twelve)) 2 eq_refl eq_refl).
Defined.

(** [Conn.Close] on a healthy stream, on a stream that accepts three more
    bytes, and on a stream whose [Close] fails. *)
Example Conn_Close_run :
  Conn_Close (demo_conn false TextFrame 0) (demo_world [] [])
  = Returns (None, demo_conn false TextFrame 0,
             mkWorld close_1000 EOF [] [] None None None true [0x11; 0x22; 0x33; 0x44]).
Proof. reflexivity. Qed.

Example Conn_Close_run_write_fails :
  Conn_Close (demo_conn false TextFrame 0)
    (mkWorld [] EOF [] [] None (Some (3%nat, ErrIO 1)) (Some (ErrIO 2)) false [])
  = Returns (Some (ErrIO 1), demo_conn false TextFrame 0,
             mkWorld [0x5A; 0xA5; 0x5A] EOF [] [0xA5; 0x88; 0x02; 0x03; 0xE8]
                     (Some (ErrIO 1)) (Some (O, ErrIO 1)) (Some (ErrIO 2)) true []).
Proof. reflexivity. Qed.

Example Conn_Close_run_close_fails :
  Conn_Close (demo_conn false TextFrame 0)
    (mkWorld [] EOF [] [] None None (Some (ErrIO 2)) false [])
  = Returns (Some (ErrIO 2), demo_conn false TextFrame 0,
             mkWorld close_1000 EOF [] [] None None (Some (ErrIO 2)) true []).
Proof. reflexivity. Qed.

(** A round trip of twelve bytes through a plain writer, read five bytes at
    a time from a stream that serves two short reads. *)
Example round_trip_run :
  ('(_, conn, w) <- Conn_Write twelve (demo_conn false TextFrame 0) (demo_world [] [3; 0]%nat) ;;
   read_calls 2 [5; 5; 5; 5; 5; 5; 5; 5]%nat conn w)
  = Returns ((twelve, Some EOF),
             mkConn None (mkWriterFactory false) (mkHandler TextFrame) TextFrame
                    closeStatusNormal 0,
             demo_world [] []).
Proof. reflexivity. Qed.

(** * Further properties *)

(** ** More on the header codec *)

Lemma bit_test (x : Z) (k : Z) :
  0 <= k -> negb (Z.land (Z.shiftr x k) 1 =? 0) = Z.testbit x k.
Proof.
  intros Hk. change 1 with (Z.ones 1). rewrite Z.land_ones by lia.
  change (2 ^ 1) with 2. rewrite Zmod_odd, <- Z.bit0_odd, Z.shiftr_spec by lia.
  rewrite Z.add_0_l. now destruct (Z.testbit x k).
Qed.

Lemma bit7_test (x : Z) : negb (Z.land x 0x80 =? 0) = Z.testbit x 7.
Proof.
  destruct (Z.testbit x 7) eqn:E.
  - apply negb_true_iff, Z.eqb_neq. intros H0.
    assert (Hb : Z.testbit (Z.land x 0x80) 7 = true).
    { rewrite Z.land_spec, E. reflexivity. }
    rewrite H0 in Hb. discriminate.
  - apply negb_false_iff, Z.eqb_eq. apply Z.bits_inj'. intros i Hi.
    rewrite Z.land_spec, Z.bits_0.
    destruct (Z.eq_dec i 7) as [-> | Hne]; [now rewrite E|].
    change 0x80 with (Z.shiftl 1 7).
    destruct (Z_lt_dec i 7).
    + rewrite Z.shiftl_spec_low by lia. apply andb_false_r.
    + rewrite Z.shiftl_spec by lia.
      replace (Z.testbit 1 (i - 7)) with false; [apply andb_false_r|].
      symmetry. apply Z.bits_above_log2; simpl; lia.
Qed.

(** What the first header byte decodes to. *)
Lemma NewFrameReader_first_byte (w w1 : World) (r : tcpFrameReader) :
  NewFrameReader w = (inl r, w1) ->
  exists b1 tl,
    wire w = preambule ++ b1 :: tl
    /\ Fin (header r) = Z.testbit b1 7
    /\ Rsv (header r) = (Z.testbit b1 6, Z.testbit b1 5, Z.testbit b1 4)
    /\ OpCode (header r) = Z.land b1 0x0f.
Proof.
  unfold NewFrameReader.
  destruct (check_preambule preambule w) as [[e |] wa] eqn:Ep; [discriminate|].
  destruct (ReadByte wa) as [[b1 [e |]] wb] eqn:E1; [discriminate|].
  destruct (ReadByte wb) as [[b2 [e |]] wc] eqn:E2; [discriminate|].
  destruct (if Z.land b2 127 <=? 125 then (Z.land b2 127, 0%nat)
            else if Z.land b2 127 =? 126 then (0, 2%nat)
            else if Z.land b2 127 =? 127 then (0, 8%nat) else (0, 0%nat))
    as [len0 lengthFields].
  destruct (read_length lengthFields ([b1] ++ [b2]) len0 wc)
    as [[[hdr1 len] [e |]] wd]; [discriminate|].
  destruct (if negb (Z.land b2 128 =? 0) then read_mask 4 hdr1 [] wd
            else ((hdr1, [], None), wd))
    as [[[hdr2 key] [e |]] we]; [discriminate|].
  intros [= <- <-]. cbn [header Fin Rsv OpCode].
  apply check_preambule_inv in Ep as [Hwa _].
  apply ReadByte_inv in E1 as [Hwb _].
  exists b1, (wire wb). split; [now rewrite Hwa, Hwb|].
  rewrite bit7_test, !bit_test by lia. repeat split.
Qed.

Lemma lor_128_testbit (op k : Z) :
  0 <= k < 7 -> Z.testbit (Z.lor 0x80 op) k = Z.testbit op k.
Proof.
  intros Hk. rewrite Z.lor_spec. change 0x80 with (Z.shiftl 1 7).
  rewrite Z.shiftl_spec_low by lia. reflexivity.
Qed.

Lemma land_15_small (op : Z) : 0 <= op < 16 -> Z.land op 0x0f = op.
Proof. intros Hop. rewrite land_15_mod. apply Z.mod_small. lia. Qed.

Lemma testbit_small (op k : Z) : 0 <= op < 16 -> 4 <= k -> Z.testbit op k = false.
Proof.
  intros Hop Hk. destruct (Z.eq_dec op 0) as [-> | Hne]; [apply Z.bits_0|].
  apply Z.bits_above_log2; [lia|].
  assert (Z.log2 op < 4) by (apply Z.log2_lt_pow2; lia). lia.
Qed.

Lemma build_header_first h len :
  exists b2 ext, build_header h len = first_byte h :: b2 :: ext.
Proof.
  unfold build_header.
  destruct (len <=? 125); [now eexists _, _|].
  destruct (len <? 65536); now eexists _, _.
Qed.

(** Decoding the frame a writer sends. *)
Lemma decode_frame_bytes (op : Z) (mk : option (list Z)) (msg tail : list Z) (w : World) :
  let len := Z.of_nat (length msg) in
  let masked := match mk with Some _ => true | None => false end in
  wire w = frame_bytes op mk msg ++ tail ->
  key_ok mk -> len <= max_int64 - 14 ->
  exists r w1,
    NewFrameReader w = (inl r, w1)
    /\ Fin (header r) = true
    /\ OpCode (header r) = Z.land op 0x0f
    /\ Rsv (header r) = (Z.testbit op 6, Z.testbit op 5, Z.testbit op 4)
    /\ (0 <= op < 16 -> OpCode (header r) = op /\ Rsv (header r) = (false, false, false))
    /\ Length (header r) = len
    /\ MaskingKey (header r) = mk
    /\ tcpFrameReader_HeaderReader r
       = Some (build_header (written_header op mk) len ++ key_bytes mk)
    /\ tcpFrameReader_Len r = header_width masked len + len
    /\ reading r w1 msg tail.
Proof.
  intros len masked Hw Hk Hlen.
  destruct (frame_bytes_shape op mk msg Hk) as (body & Hfb & Hu). fold len in Hfb.
  assert (Hw' : wire w = preambule ++ build_header (written_header op mk) len
                          ++ key_bytes mk ++ body ++ tail).
  { rewrite Hw, Hfb. now rewrite <- !app_assoc. }
  unfold max_int64 in Hlen.
  destruct (NewFrameReader_written op mk len (body ++ tail) w Hw' Hk ltac:(lia))
    as [rsv Hnew].
  match type of Hnew with _ = (inl ?r0, ?w0) => set (r := r0) in *; set (w1 := w0) in * end.
  destruct (NewFrameReader_first_byte w w1 r Hnew) as (b1 & tl & Hb1 & _ & Hrsv & _).
  assert (Hb : b1 = Z.lor 0x80 op).
  { rewrite Hw' in Hb1. apply app_inv_head in Hb1.
    destruct (build_header_first (written_header op mk) len) as (b2 & ext & Hbh).
    rewrite Hbh, first_byte_written in Hb1. cbn [app] in Hb1. congruence. }
  rewrite Hb, !lor_128_testbit in Hrsv by lia.
  exists r, w1. split; [exact Hnew|]. split; [reflexivity|]. split; [reflexivity|].
  split; [exact Hrsv|]. split.
  { intros Hop. split; [now apply land_15_small|].
    rewrite Hrsv, !testbit_small by lia. reflexivity. }
  split; [reflexivity|]. split; [reflexivity|]. split.
  { unfold tcpFrameReader_HeaderReader, r. cbn [header data].
    destruct (build_header_first (written_header op mk) len) as (b2 & ext & ->).
    reflexivity. }
  split.
  { unfold tcpFrameReader_Len, r. cbn [length_].
    rewrite length_app, Nat2Z.inj_add, build_header_length by lia.
    assert (Hkb : Z.of_nat (length (key_bytes mk)) = if masked then 4 else 0).
    { unfold masked. destruct mk as [k |]; simpl in *; [now rewrite Hk | reflexivity]. }
    rewrite Hkb. unfold header_width.
    assert (Hsum : 2 + (if len <=? 125 then 0 else if len <? 65536 then 2 else 8) + 0
                   + (if masked then 4 else 0) + len
                   = 2 + (if len <=? 125 then 0 else if len <? 65536 then 2 else 8)
                     + (if masked then 4 else 0) + len) by lia.
    rewrite Hsum. apply wrap64_small.
    destruct (len <=? 125); [| destruct (len <? 65536)]; destruct masked; lia. }
  exists body. unfold w1, r. cbn [wire set_read limit header MaskingKey pos].
  repeat split; try assumption.
  apply unmasks_length in Hu. unfold len. congruence.
Qed.

(** ** Failures of the decoder *)

Lemma ReadByte_fail (w w' : World) (b : Z) (e : error) :
  ReadByte w = ((b, Some e), w') -> e = read_end w /\ w' = w /\ wire w = [].
Proof.
  unfold ReadByte. destruct (wire w) as [| x rest] eqn:E; [| discriminate].
  intros [= <- <- <-]. auto.
Qed.

Lemma ReadByte_read_end (w w' : World) (res : Z * option error) :
  ReadByte w = (res, w') -> read_end w' = read_end w.
Proof.
  unfold ReadByte. destruct (wire w); intros [= <- <-]; reflexivity.
Qed.

Lemma check_preambule_fail (ps : list Z) :
  forall w w' e,
    check_preambule ps w = (Some e, w') ->
    (e = ErrBadPreambule
     /\ exists i b, (i < length ps)%nat
          /\ wire w = firstn i ps ++ b :: wire w' /\ nth i ps 0 <> b)
    \/ (e = read_end w /\ wire w' = []
        /\ exists i, (i < length ps)%nat /\ wire w = firstn i ps).
Proof.
  induction ps as [| p ps IH]; intros w w' e; cbn [check_preambule].
  - discriminate.
  - destruct (ReadByte w) as [[b [e1 |]] w1] eqn:E.
    + intros [= <- <-]. apply ReadByte_fail in E as (-> & -> & Hnil).
      right. repeat split; [assumption|]. exists O. simpl. split; [lia | assumption].
    + pose proof (ReadByte_read_end _ _ _ E) as Hre.
      apply ReadByte_inv in E as [Hw _].
      destruct (b =? p) eqn:Eb.
      * apply Z.eqb_eq in Eb. subst b. intros Hrec.
        apply IH in Hrec as [(-> & i & b & Hi & Hw1 & Hne) | (-> & Hnil & i & Hi & Hw1)].
        -- left. split; [reflexivity|]. exists (S i), b. simpl.
           repeat split; [lia | now rewrite Hw, Hw1 | assumption].
        -- right. repeat split; [congruence | assumption |].
           exists (S i). simpl. split; [lia | now rewrite Hw, Hw1].
      * intros [= <- <-]. apply Z.eqb_neq in Eb.
        left. split; [reflexivity|]. exists O, b. simpl.
        repeat split; [lia | assumption | congruence].
Qed.

Lemma check_preambule_read_end (ps : list Z) :
  forall w w' res, check_preambule ps w = (res, w') -> read_end w' = read_end w.
Proof.
  induction ps as [| p ps IH]; intros w w' res; cbn [check_preambule].
  - now intros [= <- <-].
  - destruct (ReadByte w) as [[b [e1 |]] w1] eqn:E.
    + intros [= <- <-]. eapply ReadByte_read_end; eassumption.
    + apply ReadByte_read_end in E. destruct (b =? p).
      * intros Hrec. apply IH in Hrec. congruence.
      * intros [= <- <-]. assumption.
Qed.

Lemma read_length_fail (n : nat) :
  forall hdr len w hdr' len' e w',
    read_length n hdr len w = ((hdr', len', Some e), w') ->
    e = read_end w /\ wire w' = [].
Proof.
  induction n as [| n IH]; intros hdr len w hdr' len' e w'; cbn [read_length].
  - discriminate.
  - destruct (ReadByte w) as [[b [e1 |]] w1] eqn:E.
    + intros [= <- <- <- <-]. apply ReadByte_fail in E as (-> & -> & Hnil). auto.
    + pose proof (ReadByte_read_end _ _ _ E) as Hre.
      intros Hrec. apply IH in Hrec as [-> Hnil]. split; [congruence | assumption].
Qed.

Lemma read_length_read_end (n : nat) :
  forall hdr len w res w', read_length n hdr len w = (res, w') -> read_end w' = read_end w.
Proof.
  induction n as [| n IH]; intros hdr len w res w'; cbn [read_length].
  - now intros [= <- <-].
  - destruct (ReadByte w) as [[b [e1 |]] w1] eqn:E.
    + intros [= <- <-]. eapply ReadByte_read_end; eassumption.
    + apply ReadByte_read_end in E. intros Hrec. apply IH in Hrec. congruence.
Qed.

Lemma read_mask_fail (n : nat) :
  forall hdr key w hdr' key' e w',
    read_mask n hdr key w = ((hdr', key', Some e), w') ->
    e = read_end w /\ wire w' = [].
Proof.
  induction n as [| n IH]; intros hdr key w hdr' key' e w'; cbn [read_mask].
  - discriminate.
  - destruct (ReadByte w) as [[b [e1 |]] w1] eqn:E.
    + intros [= <- <- <- <-]. apply ReadByte_fail in E as (-> & -> & Hnil). auto.
    + pose proof (ReadByte_read_end _ _ _ E) as Hre.
      intros Hrec. apply IH in Hrec as [-> Hnil]. split; [congruence | assumption].
Qed.

(** X1.  [NewFrameReader] fails in two ways only.  Either the error is
    [ErrBadPreambule]: one of the first four bytes differs from the
    preamble, and the stream is left just after that byte.  Or the error
    is the one the stream reports at its end, and the stream is left
    empty. *)
Theorem NewFrameReader_failures (w w1 : World) (e : error) :
  NewFrameReader w = (inr e, w1) ->
  (e = ErrBadPreambule
   /\ exists i b, (i < 4)%nat
        /\ wire w = firstn i preambule ++ b :: wire w1 /\ nth i preambule 0 <> b)
  \/ (e = read_end w /\ wire w1 = []).
Proof.
  unfold NewFrameReader.
  destruct (check_preambule preambule w) as [[e0 |] wa] eqn:Ep.
  { intros [= <- <-].
    apply check_preambule_fail in Ep as [(-> & i & b & Hi & Hw & Hne) | (-> & Hnil & _)].
    - left. split; [reflexivity|]. now exists i, b.
    - now right. }
  pose proof (check_preambule_read_end _ _ _ _ Ep) as Ha.
  destruct (ReadByte wa) as [[b1 [e1 |]] wb] eqn:E1.
  { intros [= <- <-]. apply ReadByte_fail in E1 as (-> & -> & Hnil).
    right. split; [congruence | assumption]. }
  pose proof (ReadByte_read_end _ _ _ E1) as Hb.
  destruct (ReadByte wb) as [[b2 [e2 |]] wc] eqn:E2.
  { intros [= <- <-]. apply ReadByte_fail in E2 as (-> & -> & Hnil).
    right. split; [congruence | assumption]. }
  pose proof (ReadByte_read_end _ _ _ E2) as Hc.
  destruct (if Z.land b2 127 <=? 125 then (Z.land b2 127, 0%nat)
            else if Z.land b2 127 =? 126 then (0, 2%nat)
            else if Z.land b2 127 =? 127 then (0, 8%nat) else (0, 0%nat))
    as [len0 lengthFields].
  destruct (read_length lengthFields ([b1] ++ [b2]) len0 wc)
    as [[[hdr1 len] [e3 |]] wd] eqn:El.
  { intros [= <- <-]. apply read_length_fail in El as [-> Hnil].
    right. split; [congruence | assumption]. }
  pose proof (read_length_read_end _ _ _ _ _ _ El) as Hd.
  destruct (negb (Z.land b2 128 =? 0)).
  - destruct (read_mask 4 hdr1 [] wd) as [[[hdr2 key] [e4 |]] we] eqn:Em;
      [| discriminate].
    intros [= <- <-]. apply read_mask_fail in Em as [-> Hnil].
    right. split; [congruence | assumption].
  - discriminate.
Qed.

Lemma check_preambule_bad (ps : list Z) :
  forall (i : nat) (b : Z) (rest : list Z) (w : World),
    (i < length ps)%nat ->
    wire w = firstn i ps ++ b :: rest ->
    nth i ps 0 <> b ->
    check_preambule ps w = (Some ErrBadPreambule, set_read rest (short w) w).
Proof.
  induction ps as [| p ps IH]; intros i b rest w Hi Hw Hne; [simpl in Hi; lia|].
  cbn [check_preambule]. destruct i as [| i]; cbn [firstn app nth] in Hw, Hne.
  - rewrite (ReadByte_cons _ _ _ Hw). cbv beta iota.
    destruct (b =? p) eqn:E; [apply Z.eqb_eq in E; congruence | reflexivity].
  - rewrite (ReadByte_cons _ _ _ Hw). cbv beta iota. rewrite Z.eqb_refl.
    rewrite (IH i b rest); [reflexivity | simpl in Hi; lia | reflexivity | assumption].
Qed.

(** X2.  When the stream agrees with the preamble on [i < 4] bytes and
    differs at the next, [NewFrameReader] fails with [ErrBadPreambule]; it
    has consumed the bytes up to and including the differing one, and
    does not look for a preamble further on. *)
Theorem bad_preambule_is_not_resynchronised (i : nat) (b : Z) (rest : list Z) (w : World) :
  (i < 4)%nat ->
  wire w = firstn i preambule ++ b :: rest ->
  nth i preambule 0 <> b ->
  NewFrameReader w = (inr ErrBadPreambule, set_read rest (short w) w).
Proof.
  intros Hi Hw Hne. unfold NewFrameReader.
  now rewrite (check_preambule_bad preambule i b rest w Hi Hw Hne).
Qed.

(** ** Lengths beyond [int64] *)

Lemma wrap64_shift (x m : Z) : wrap64 (x + m * 2 ^ 64) = wrap64 x.
Proof.
  unfold wrap64. replace (x + m * 2 ^ 64 + 2 ^ 63) with (x + 2 ^ 63 + m * 2 ^ 64) by ring.
  now rewrite Z.mod_add by lia.
Qed.

Lemma wrap64_absorb (x c d : Z) : wrap64 (wrap64 x * c + d) = wrap64 (x * c + d).
Proof.
  assert (Hq : wrap64 x = x - ((x + 2 ^ 63) / 2 ^ 64) * 2 ^ 64).
  { unfold wrap64. rewrite Z.mod_eq by lia. ring. }
  rewrite Hq.
  replace ((x - (x + 2 ^ 63) / 2 ^ 64 * 2 ^ 64) * c + d)
    with (x * c + d + (- ((x + 2 ^ 63) / 2 ^ 64) * c) * 2 ^ 64) by ring.
  apply wrap64_shift.
Qed.

(** The extended length as the decoder accumulates it, with its wrap. *)
Lemma read_length_wraps (n : nat) :
  forall (hdr : list Z) (acc v : Z) (rest : list Z) (w : World),
    wire w = big_endian n v ++ rest ->
    - 2 ^ 63 <= acc < 2 ^ 63 -> 0 <= v ->
    read_length n hdr acc w =
      ((hdr ++ big_endian n v, wrap64 (acc * 256 ^ Z.of_nat n + v mod 256 ^ Z.of_nat n), None),
       set_read rest (short w) w).
Proof.
  induction n as [| n IH]; intros hdr acc v rest w Hw Hacc Hv.
  - simpl in *. subst rest. rewrite Z.mod_1_r, app_nil_r, set_read_same.
    rewrite Z.mul_1_r, Z.add_0_r, wrap64_small by lia. reflexivity.
  - cbn [big_endian] in Hw. rewrite <- app_comm_cons in Hw.
    cbn [read_length]. rewrite (ReadByte_cons _ _ _ Hw).
    set (b := Z.land (Z.shiftr v (8 * Z.of_nat n)) 255) in *.
    assert (Hb : b = (v / 256 ^ Z.of_nat n) mod 256).
    { unfold b. rewrite land_255_mod, Z.shiftr_div_pow2 by lia.
      rewrite Z.pow_mul_r by lia. reflexivity. }
    assert (Hpow : 0 < 256 ^ Z.of_nat n) by (apply Z.pow_pos_nonneg; lia).
    assert (Hsplit : v mod 256 ^ Z.of_nat (S n)
                     = v mod 256 ^ Z.of_nat n + 256 ^ Z.of_nat n * b).
    { rewrite Nat2Z.inj_succ, Z.pow_succ_r by lia.
      rewrite (Z.mul_comm 256), Z.rem_mul_r by lia. now rewrite Hb. }
    assert (Hexp : 256 ^ Z.of_nat (S n) = 256 * 256 ^ Z.of_nat n).
    { rewrite Nat2Z.inj_succ, Z.pow_succ_r by lia. reflexivity. }
    rewrite (IH (hdr ++ [b]) (wrap64 (acc * 256 + b)) v rest
               (set_read (big_endian n v ++ rest) (short w) w));
      [ | reflexivity | apply wrap64_range | assumption ].
    rewrite <- app_assoc. cbn [app short set_read].
    rewrite set_read_set_read, wrap64_absorb, Hsplit, Hexp.
    match goal with
    | |- (_, wrap64 ?a, _, _) = (_, wrap64 ?b, _, _) => replace a with b by ring
    end.
    reflexivity.
Qed.

(** ** Reading a whole payload *)

Lemma tcpFrameReader_Read_chunk r w plain rest want :
  reading r w plain rest -> plain <> [] -> (0 < want)%nat ->
  exists k r' w',
    (1 <= k <= want)%nat /\ (k <= length plain)%nat
    /\ (short w = [] -> k = Nat.min want (length plain))
    /\ tcpFrameReader_Read r want w = Returns ((firstn k plain, None), r', w')
    /\ reading r' w' (skipn k plain) rest
    /\ header r' = header r
    /\ w' = set_read (wire w') (tl (short w)) w.
Proof.
  intros (masked & Hw & Hl & Hk & Hu) Hne Hwant.
  pose proof (unmasks_length _ _ _ _ Hu) as Hlen.
  assert (Hm : masked <> []) by (destruct masked, plain; simpl in *; congruence).
  assert (Hpos : 0 < limit r) by (destruct masked; [congruence | simpl in Hl; lia]).
  assert (Hwne : wire w <> []) by (rewrite Hw; destruct masked; [congruence | discriminate]).
  unfold tcpFrameReader_Read, LimitedReader_Read.
  destruct (limit r <=? 0) eqn:E0; [lia|].
  set (want' := if limit r <? Z.of_nat want then Z.to_nat (limit r) else want).
  assert (Hw' : want' = Nat.min want (length masked)).
  { unfold want'. destruct (limit r <? Z.of_nat want) eqn:E'; lia. }
  unfold bufio_Read. destruct want' as [| n'] eqn:Ewant'; [lia|].
  destruct (wire w) as [| b0 bs0] eqn:Ewire; [congruence|].
  set (k := match short w with [] => S n' | c :: _ => Nat.min (S n') (S c) end).
  assert (Hkb : (1 <= k <= want)%nat /\ (k <= length masked)%nat
                /\ (short w = [] -> k = Nat.min want (length masked))).
  { unfold k. destruct (short w); repeat split; try lia. discriminate. }
  destruct Hkb as (Hk1 & Hk2 & Hk3).
  rewrite Hw, firstn_app, skipn_app.
  replace (k - length masked)%nat with O by lia.
  rewrite firstn_O, skipn_O, app_nil_r.
  cbv beta iota.
  destruct r as [lim hdr p len]; cbn [limit header pos length_ MaskingKey] in *.
  destruct (MaskingKey hdr) as [key |] eqn:Ekey; cbn [unmasks key_ok] in *.
  - destruct (xor_key_split key masked p plain k Hu) as [H1 H2].
    rewrite H1.
    exists k. eexists. eexists. split; [lia|]. split; [lia|]. split; [rewrite Hlen; exact Hk3|].
    split; [reflexivity|].
    split; [| split; [reflexivity | reflexivity]].
    exists (skipn k masked). cbn [wire set_read limit header pos MaskingKey].
    rewrite Ekey. cbn [key_ok unmasks].
    repeat split; try assumption.
    rewrite length_skipn, length_firstn. lia.
  - subst plain.
    exists k. eexists. eexists. split; [lia|]. split; [lia|]. split; [exact Hk3|].
    split; [reflexivity|].
    split; [| split; [reflexivity | reflexivity]].
    exists (skipn k masked). cbn [wire set_read limit header pos MaskingKey].
    rewrite Ekey. cbn [key_ok unmasks].
    repeat split.
    rewrite length_skipn, length_firstn. lia.
Qed.

Lemma starved_nil r w : starved r w [] -> wire w = [] /\ 0 < limit r.
Proof.
  intros (Hl & _ & Hu). apply unmasks_length in Hu.
  destruct (wire w); [simpl in Hl; split; [reflexivity | lia] | discriminate].
Qed.

Lemma tcpFrameReader_Read_starved_end r w want :
  starved r w [] -> (0 < want)%nat ->
  exists r', tcpFrameReader_Read r want w = Returns (([], Some (read_end w)), r', w)
             /\ starved r' w [].
Proof.
  intros Hs Hwant. destruct (starved_nil r w Hs) as [Hnil Hpos].
  destruct Hs as (Hl & Hk & Hu).
  unfold tcpFrameReader_Read. rewrite LimitedReader_Read_dry by assumption.
  destruct r as [lim hdr p len]; cbn [limit header pos length_ MaskingKey] in *.
  destruct (MaskingKey hdr) as [key |] eqn:Ekey; cbn [xor_key length].
  - eexists. split; [reflexivity|]. repeat split; cbn; rewrite ?Ekey, ?Z.add_0_r; auto.
  - eexists. split; [reflexivity|]. repeat split; cbn; rewrite ?Ekey; auto.
Qed.

Lemma tcpFrameReader_Read_starved_step r w plain want :
  starved r w plain -> plain <> [] -> (0 < want)%nat ->
  exists k r' w',
    (1 <= k)%nat
    /\ tcpFrameReader_Read r want w = Returns ((firstn k plain, None), r', w')
    /\ starved r' w' (skipn k plain)
    /\ read_end w' = read_end w.
Proof.
  intros (Hl & Hk & Hu) Hne Hwant.
  pose proof (unmasks_length _ _ _ _ Hu) as Hlen.
  assert (Hwne : wire w <> []) by (destruct (wire w), plain; simpl in *; congruence).
  destruct (LimitedReader_Read_some (limit r) want w) as (k & Hk1 & Hk2 & HL);
    [lia | assumption | assumption |].
  unfold tcpFrameReader_Read. rewrite HL.
  destruct r as [lim hdr p len]; cbn [limit header pos length_ MaskingKey] in *.
  destruct (MaskingKey hdr) as [key |] eqn:Ekey; cbn [unmasks key_ok] in *.
  - destruct (xor_key_split key (wire w) p plain k Hu) as [H1 H2].
    rewrite H1. exists k. eexists. eexists. split; [lia|]. split; [reflexivity|].
    split; [| reflexivity].
    unfold starved. cbn [wire set_read limit header pos MaskingKey].
    rewrite Ekey. cbn [key_ok unmasks]. repeat split; try assumption.
    rewrite length_skipn, length_firstn. lia.
  - subst plain. exists k. eexists. eexists. split; [lia|]. split; [reflexivity|].
    split; [| reflexivity].
    unfold starved. cbn [wire set_read limit header pos MaskingKey].
    rewrite Ekey. cbn [key_ok unmasks]. repeat split.
    rewrite length_skipn, length_firstn. lia.
Qed.

Section ReadAll.
Context {X : Type} {XOps : FrameReaderOps X}.

Lemma io_ReadAll_done (fuel : nat) (acc : list Z) (r : tcpFrameReader) (w : World) :
  limit r <= 0 -> key_ok (MaskingKey (header r)) ->
  exists r', io_ReadAll (X := X) (S fuel) acc (TcpFrame r) w
             = Returns ((acc, None), TcpFrame r', w).
Proof.
  intros Hl Hk. cbn [io_ReadAll frame_Read].
  destruct (tcpFrameReader_Read_done r w readall_block Hl Hk) as [r' ->].
  cbn [bind is_EOF]. rewrite app_nil_r. now exists r'.
Qed.

Lemma io_ReadAll_tcp (fuel : nat) :
  forall acc r w plain rest,
    reading r w plain rest -> (length plain < fuel)%nat ->
    exists r' w',
      io_ReadAll (X := X) fuel acc (TcpFrame r) w
      = Returns ((acc ++ plain, None), TcpFrame r', w')
      /\ wire w' = rest
      /\ w' = set_read rest (short w') w.
Proof.
  induction fuel as [| fuel IH]; intros acc r w plain rest Hr Hlen; [lia|].
  cbn [io_ReadAll frame_Read].
  destruct plain as [| b plain'] eqn:Ep.
  - rewrite (tcpFrameReader_Read_end _ _ _ _ Hr). cbn [bind is_EOF].
    exists r, w. apply reading_nil_wire in Hr as [Hw _].
    repeat split; [assumption|]. rewrite <- Hw. symmetry. apply set_read_same.
  - destruct (tcpFrameReader_Read_step r w (b :: plain') rest readall_block Hr)
      as (k & r' & w' & Hk & HR & Hr' & _ & Hw');
      [discriminate | unfold readall_block; lia |].
    rewrite HR. cbn [bind].
    destruct (IH (acc ++ firstn k (b :: plain')) r' w' _ rest Hr')
      as (r'' & w'' & HD & Hw1 & Hw2).
    { pose proof (firstn_skipn_length_lt k (b :: plain') Hk ltac:(discriminate)). lia. }
    rewrite HD. exists r'', w''.
    rewrite <- app_assoc, firstn_skipn. repeat split; [assumption|].
    rewrite Hw2, Hw'. reflexivity.
Qed.

Lemma io_ReadAll_starved (fuel : nat) :
  forall acc r w plain,
    starved r w plain -> (length plain < fuel)%nat ->
    exists r' w',
      io_ReadAll (X := X) fuel acc (TcpFrame r) w
      = Returns ((acc ++ plain,
                  if is_EOF (Some (read_end w)) then None else Some (read_end w)),
                 TcpFrame r', w')
      /\ wire w' = [].
Proof.
  induction fuel as [| fuel IH]; intros acc r w plain Hs Hlen; [lia|].
  cbn [io_ReadAll frame_Read].
  destruct plain as [| b plain'] eqn:Ep.
  - destruct (tcpFrameReader_Read_starved_end r w readall_block Hs) as (r' & -> & _);
      [unfold readall_block; lia|].
    cbn [bind]. rewrite app_nil_r. exists r', w.
    split; [reflexivity | apply (starved_nil r w Hs)].
  - destruct (tcpFrameReader_Read_starved_step r w (b :: plain') readall_block Hs)
      as (k & r' & w' & Hk & HR & Hs' & He);
      [discriminate | unfold readall_block; lia |].
    rewrite HR. cbn [bind].
    destruct (IH (acc ++ firstn k (b :: plain')) r' w' _ Hs') as (r'' & w'' & HD & Hw1).
    { pose proof (firstn_skipn_length_lt k (b :: plain') Hk ltac:(discriminate)). lia. }
    rewrite HD, He. exists r'', w''.
    rewrite <- app_assoc, firstn_skipn. split; [reflexivity | assumption].
Qed.

(** [Conn.ReadFrame] on a frame that passes the handler and the size check. *)
Lemma ReadFrame_accepts (fuel : nat) (conn : @Conn X tcpFrameHandler)
    (w w1 : World) (r : tcpFrameReader) :
  conn_frameReader conn = None ->
  NewFrameReader w = (inl r, w1) ->
  OpCode (header r) <> CloseFrame ->
  Length (header r) <= effective_max (MaxPayloadBytes conn) ->
  exists op handler',
    Conn_ReadFrame (S fuel) conn w
    = ('(res, _, w2) <- io_ReadAll (S fuel) [] (TcpFrame (set_OpCode op r)) w1 ;;
       Returns (res, set_handled None handler' conn, w2)).
Proof.
  intros Hnone Hnew Hop Hmax.
  destruct (HandleFrame_passes (X := X) (conn_frameHandler conn) r Hop) as (op & h' & Hh').
  exists op, h'.
  unfold Conn_ReadFrame. rewrite Hnone. cbn [ReadFrame_loop]. rewrite Hnew.
  change (HandleFrame (conn_frameHandler conn) (TcpFrame r))
    with (tcpFrameHandler_HandleFrame (conn_frameHandler conn) (TcpFrame (X := X) r)).
  rewrite Hh'. cbn [bind]. cbn [MaxPayloadBytes set_handled].
  change (Length (header (set_OpCode op r))) with (Length (header r)).
  fold (effective_max (MaxPayloadBytes conn)).
  destruct (effective_max (MaxPayloadBytes conn) <? Length (header r)) eqn:E; [lia|].
  now rewrite Hnone.
Qed.
End ReadAll.

Section ReadFrameFacts.
Context {X : Type} {XOps : FrameReaderOps X}.

Lemma ReadFrame_frame_bytes (op : Z) (mk : option (list Z)) (msg rest : list Z)
    (conn : @Conn X tcpFrameHandler) (w : World) (fuel : nat) :
  conn_frameReader conn = None ->
  wire w = frame_bytes op mk msg ++ rest ->
  key_ok mk ->
  Z.land op 0x0f <> CloseFrame ->
  Z.of_nat (length msg) <= effective_max (MaxPayloadBytes conn) ->
  Z.of_nat (length msg) <= max_int64 - 14 ->
  (length msg < fuel)%nat ->
  exists handler' w',
    Conn_ReadFrame fuel conn w = Returns ((msg, None), set_handled None handler' conn, w')
    /\ wire w' = rest
    /\ read_end w' = read_end w.
Proof.
  intros Hnone Hw Hk Hop Hmax Hlen Hfuel.
  destruct (decode_frame_bytes op mk msg rest w Hw Hk Hlen)
    as (r & w1 & Hnew & _ & Hopc & _ & _ & HL & _ & _ & _ & Hr).
  destruct fuel as [| fuel]; [lia|].
  destruct (ReadFrame_accepts fuel conn w w1 r Hnone Hnew) as (op' & h' & HRF);
    [congruence | lia |].
  destruct (io_ReadAll_tcp (X := X) (S fuel) [] (set_OpCode op' r) w1 msg rest)
    as (r' & w2 & HA & Hw2 & Hw2'); [now apply reading_set_OpCode | lia |].
  exists h', w2. rewrite HRF, HA. cbn [bind app].
  split; [reflexivity|]. split; [assumption|].
  rewrite Hw2'. cbn [read_end set_read].
  destruct (NewFrameReader_inv w w1 r Hnew) as (_ & _ & _ & Hw1 & _).
  rewrite Hw1. reflexivity.
Qed.

Lemma wrap64_high (v : Z) : 2 ^ 63 <= v < 2 ^ 64 -> wrap64 v = v - 2 ^ 64.
Proof.
  intros Hv. unfold wrap64.
  replace (v + 2 ^ 63) with (v - 2 ^ 63 + 1 * 2 ^ 64) by ring.
  rewrite Z.mod_add, Z.mod_small by lia. ring.
Qed.

(** A header whose eight length bytes have the top bit set. *)
Lemma decode_huge_length (b1 v : Z) (tail : list Z) (w : World) :
  wire w = preambule ++ b1 :: 127 :: big_endian 8 v ++ tail ->
  2 ^ 63 <= v < 2 ^ 64 ->
  exists r,
    NewFrameReader w = (inl r, set_read tail (short w) w)
    /\ Length (header r) = v - 2 ^ 64
    /\ limit r = v - 2 ^ 64
    /\ OpCode (header r) = Z.land b1 0x0f
    /\ MaskingKey (header r) = None.
Proof.
  intros Hw Hv. unfold NewFrameReader.
  rewrite (check_preambule_ok w _ Hw). cbv beta iota.
  rewrite (ReadByte_cons _ b1 (127 :: big_endian 8 v ++ tail)) by reflexivity.
  cbv beta iota.
  rewrite (ReadByte_cons _ 127 (big_endian 8 v ++ tail)) by reflexivity.
  cbv beta iota.
  change (Z.land 127 128 =? 0) with true. change (Z.land 127 127) with 127.
  change (127 <=? 125) with false. change (127 =? 126) with false.
  change (127 =? 127) with true. cbv beta iota. cbn [negb].
  rewrite (read_length_wraps 8 _ 0 v tail) by (try reflexivity; lia).
  cbv beta iota.
  assert (Hp : 256 ^ Z.of_nat 8 = 2 ^ 64) by reflexivity.
  rewrite Hp, Z.mul_0_l, Z.add_0_l, Z.mod_small, wrap64_high by lia.
  eexists. split; [reflexivity|]. repeat split.
Qed.

(** X3.  An eight-byte length field of 2^63 or more, in an unmasked
    header, is decoded as a negative length.  [Conn.ReadFrame], with no
    frame in progress, does not refuse such a frame as too large (for an
    opcode that is not close and a maximum that is not negative): it
    returns an empty payload and no error, and leaves the bytes after the
    header on the stream. *)
Theorem huge_length_reads_as_empty_frame (b1 v : Z) (tail : list Z)
    (conn : @Conn X tcpFrameHandler) (w : World) (fuel : nat) :
  conn_frameReader conn = None ->
  wire w = preambule ++ b1 :: 127 :: big_endian 8 v ++ tail ->
  2 ^ 63 <= v < 2 ^ 64 ->
  Z.land b1 0x0f <> CloseFrame ->
  0 <= MaxPayloadBytes conn ->
  exists r handler',
    NewFrameReader w = (inl r, set_read tail (short w) w)
    /\ Length (header r) = v - 2 ^ 64
    /\ Length (header r) < 0
    /\ Conn_ReadFrame (S fuel) conn w
       = Returns (([], None), set_handled None handler' conn, set_read tail (short w) w).
Proof.
  intros Hnone Hw Hv Hop Hmax.
  destruct (decode_huge_length b1 v tail w Hw Hv) as (r & Hnew & HL & Hlim & Hopc & Hmk).
  assert (Heff : 0 <= effective_max (MaxPayloadBytes conn)).
  { unfold effective_max. destruct (MaxPayloadBytes conn =? 0); [| assumption].
    unfold DefaultMaxPayloadBytes. rewrite Z.shiftl_mul_pow2 by lia. lia. }
  destruct (ReadFrame_accepts fuel conn w _ r Hnone Hnew) as (op' & h' & HRF);
    [congruence | lia |].
  destruct (io_ReadAll_done (X := X) fuel [] (set_OpCode op' r) (set_read tail (short w) w))
    as [r' HA].
  { cbn [limit set_OpCode]. lia. }
  { cbn [header set_OpCode MaskingKey]. rewrite Hmk. exact I. }
  exists r, h'. rewrite HRF, HA. cbn [bind].
  repeat split; try assumption. lia.
Qed.

(** X4.  When the stream ends inside the payload of a frame (of an opcode
    that is not close and a length within the maximum, with no frame in
    progress before it), [Conn.ReadFrame] returns the bytes that were
    there, unmasked; the error is [nil] when the stream ends with [EOF],
    and the error of the stream otherwise. *)
Theorem ReadFrame_returns_truncated_payload (conn : @Conn X tcpFrameHandler)
    (w w1 : World) (r : tcpFrameReader) (fuel : nat) :
  conn_frameReader conn = None ->
  NewFrameReader w = (inl r, w1) ->
  OpCode (header r) <> CloseFrame ->
  Length (header r) <= effective_max (MaxPayloadBytes conn) ->
  Z.of_nat (length (wire w1)) < Length (header r) ->
  (length (wire w1) < fuel)%nat ->
  exists plain handler' w2,
    unmasks (MaskingKey (header r)) 0 (wire w1) plain
    /\ length plain = length (wire w1)
    /\ Conn_ReadFrame fuel conn w
       = Returns ((plain, match read_end w with EOF => None | e => Some e end),
                  set_handled None handler' conn, w2)
    /\ wire w2 = [].
Proof.
  intros Hnone Hnew Hop Hmax Hshort Hfuel.
  destruct (NewFrameReader_inv w w1 r Hnew)
    as (hdr & _ & _ & Hw1 & Hlim & Hpos & Hk & _).
  assert (Hplain : exists plain, unmasks (MaskingKey (header r)) 0 (wire w1) plain).
  { destruct (MaskingKey (header r)) as [k |]; simpl.
    - apply xor_key_total. exact Hk.
    - now eexists. }
  destruct Hplain as [plain Hu].
  pose proof (unmasks_length _ _ _ _ Hu) as Hlen.
  destruct fuel as [| fuel]; [lia|].
  destruct (ReadFrame_accepts fuel conn w w1 r Hnone Hnew Hop Hmax) as (op' & h' & HRF).
  destruct (io_ReadAll_starved (X := X) (S fuel) [] (set_OpCode op' r) w1 plain)
    as (r' & w2 & HA & Hw2).
  { unfold starved. cbn [limit header pos set_OpCode MaskingKey].
    rewrite Hlim, Hpos. auto. }
  { lia. }
  exists plain, h', w2. rewrite HRF, HA. cbn [bind app].
  split; [assumption|]. split; [assumption|]. split; [| assumption].
  assert (Hre : read_end w1 = read_end w) by (rewrite Hw1; reflexivity).
  rewrite Hre. destruct (read_end w); reflexivity.
Qed.

(** [Conn.ReadFrame] on a frame above the maximum. *)
Lemma ReadFrame_refuses (op : Z) (mk : option (list Z)) (msg rest : list Z)
    (conn : @Conn X tcpFrameHandler) (w : World) (fuel : nat) :
  conn_frameReader conn = None ->
  wire w = frame_bytes op mk msg ++ rest ->
  key_ok mk ->
  Z.land op 0x0f <> CloseFrame ->
  effective_max (MaxPayloadBytes conn) < Z.of_nat (length msg) ->
  Z.of_nat (length msg) <= max_int64 - 14 ->
  (length msg < fuel)%nat ->
  exists handler' w',
    Conn_ReadFrame fuel conn w
    = Returns (([], Some ErrFrameTooLarge), set_handled None handler' conn, w')
    /\ wire w' = rest
    /\ read_end w' = read_end w.
Proof.
  intros Hnone Hw Hk Hop Hmax Hlen Hfuel.
  destruct (decode_frame_bytes op mk msg rest w Hw Hk Hlen)
    as (r & w1 & Hnew & _ & Hopc & _ & _ & HL & _ & _ & _ & Hr).
  destruct (HandleFrame_passes (X := X) (conn_frameHandler conn) r) as (op' & h' & Hh');
    [congruence|].
  destruct fuel as [| fuel]; [lia|].
  destruct (io_Copy_Discard_tcp (X := X) (S fuel) (set_OpCode op' r) w1 msg rest)
    as (r' & w2 & HD & Hw2 & Hw2'); [now apply reading_set_OpCode | lia |].
  exists h', w2. split; [| split; [assumption|]].
  - unfold Conn_ReadFrame. rewrite Hnone. cbn [ReadFrame_loop]. rewrite Hnew.
    change (HandleFrame (conn_frameHandler conn) (TcpFrame r))
      with (tcpFrameHandler_HandleFrame (conn_frameHandler conn) (TcpFrame (X := X) r)).
    rewrite Hh'. cbn [bind]. cbn [MaxPayloadBytes set_handled].
    change (Length (header (set_OpCode op' r))) with (Length (header r)).
    fold (effective_max (MaxPayloadBytes conn)).
    destruct (effective_max (MaxPayloadBytes conn) <? Length (header r)) eqn:E; [| lia].
    rewrite HD. cbn [bind]. now rewrite Hnone.
  - rewrite Hw2'. cbn [read_end set_read].
    destruct (NewFrameReader_inv w w1 r Hnew) as (_ & _ & _ & Hw1 & _).
    rewrite Hw1. reflexivity.
Qed.

(** X5.  [Conn.ReadFrame], with no frame in progress, on a stream that
    starts with a written frame, of any opcode but close and of a payload
    within the maximum, returns that payload whole, with no error, and
    leaves what follows the frame on the stream. *)
Theorem ReadFrame_returns_payload (op : Z) (mk : option (list Z)) (msg rest : list Z)
    (conn : @Conn X tcpFrameHandler) (w : World) (fuel : nat) :
  conn_frameReader conn = None ->
  wire w = frame_bytes op mk msg ++ rest ->
  key_ok mk ->
  Z.land op 0x0f <> CloseFrame ->
  Z.of_nat (length msg) <= effective_max (MaxPayloadBytes conn) ->
  Z.of_nat (length msg) <= max_int64 - 14 ->
  (length msg < fuel)%nat ->
  exists handler' w',
    Conn_ReadFrame fuel conn w = Returns ((msg, None), set_handled None handler' conn, w')
    /\ wire w' = rest
    /\ read_end w' = read_end w.
Proof. exact (ReadFrame_frame_bytes op mk msg rest conn w fuel). Qed.

(** X6.  After [Conn.ReadFrame], with no frame in progress, has refused a
    written frame with [ErrFrameTooLarge], the next call returns the
    payload of the frame that follows, a written frame of an opcode that
    is not close and a payload within the maximum: the refused frame was
    skipped in full. *)
Theorem ReadFrame_recovers_after_large_frame
    (op1 op2 : Z) (mk1 mk2 : option (list Z)) (big small rest : list Z)
    (conn : @Conn X tcpFrameHandler) (w : World) (fuel : nat) :
  conn_frameReader conn = None ->
  wire w = frame_bytes op1 mk1 big ++ frame_bytes op2 mk2 small ++ rest ->
  key_ok mk1 -> key_ok mk2 ->
  Z.land op1 0x0f <> CloseFrame -> Z.land op2 0x0f <> CloseFrame ->
  Z.of_nat (length small) <= effective_max (MaxPayloadBytes conn) ->
  effective_max (MaxPayloadBytes conn) < Z.of_nat (length big) ->
  Z.of_nat (length big) <= max_int64 - 14 ->
  (length big < fuel)%nat ->
  exists conn1 w1 conn2 w2,
    Conn_ReadFrame fuel conn w = Returns (([], Some ErrFrameTooLarge), conn1, w1)
    /\ Conn_ReadFrame fuel conn1 w1 = Returns ((small, None), conn2, w2)
    /\ wire w2 = rest.
Proof.
  intros Hnone Hw Hk1 Hk2 Hop1 Hop2 Hsmall Hbig Hlen Hfuel.
  destruct (ReadFrame_refuses op1 mk1 big (frame_bytes op2 mk2 small ++ rest) conn w fuel)
    as (h1 & w1 & HR1 & Hw1 & _); try assumption.
  destruct (ReadFrame_frame_bytes op2 mk2 small rest (set_handled None h1 conn) w1 fuel)
    as (h2 & w2 & HR2 & Hw2 & _); try assumption; try reflexivity.
  { cbn [MaxPayloadBytes set_handled]. lia. }
  { lia. }
  exists (set_handled None h1 conn), w1. eexists. exists w2.
  split; [exact HR1|]. split; [exact HR2 | exact Hw2].
Qed.

(** X7.  When [Conn.Read] has left a frame partly read, with the rest of
    it on the stream, [Conn.ReadFrame] discards the rest of that frame and
    returns the payload of the next one, a written frame of an opcode that
    is not close and a payload within the maximum. *)
Theorem ReadFrame_drops_frame_in_progress (r0 : tcpFrameReader) (left : list Z)
    (op : Z) (mk : option (list Z)) (msg rest : list Z)
    (conn : @Conn X tcpFrameHandler) (w : World) (fuel : nat) :
  conn_frameReader conn = Some (TcpFrame r0) ->
  reading r0 w left (frame_bytes op mk msg ++ rest) ->
  key_ok mk ->
  Z.land op 0x0f <> CloseFrame ->
  Z.of_nat (length msg) <= effective_max (MaxPayloadBytes conn) ->
  Z.of_nat (length msg) <= max_int64 - 14 ->
  (length left < fuel)%nat -> (length msg < fuel)%nat ->
  exists conn' w',
    Conn_ReadFrame fuel conn w = Returns ((msg, None), conn', w')
    /\ conn_frameReader conn' = None
    /\ wire w' = rest.
Proof.
  intros Hc Hr Hk Hop Hmax Hlen Hf1 Hf2.
  destruct (io_Copy_Discard_tcp (X := X) fuel r0 w left _ Hr Hf1) as (r' & w1 & HD & Hw1 & _).
  destruct (ReadFrame_frame_bytes op mk msg rest (set_frameReader None conn) w1 fuel)
    as (h2 & w2 & HR2 & Hw2 & _); try assumption; try reflexivity.
  unfold Conn_ReadFrame in *. rewrite Hc, HD. cbn [bind].
  cbn [conn_frameReader set_frameReader] in HR2.
  eexists _, w2. split; [exact HR2|]. split; [reflexivity | exact Hw2].
Qed.
End ReadFrameFacts.

(** ** Streaming reads over several frames *)

Section Streaming.
Context {X : Type} {XOps : FrameReaderOps X}.

(** X8.  With a frame in progress that has bytes left, [Conn.Read] into a
    buffer of [want > 0] bytes returns the next [k] bytes of that frame,
    with [k] between 1 and [want] and at most what is left of the frame,
    never bytes of the next frame, and no error; what it did not return
    stays to be read. *)
Theorem Read_stays_within_frame (fuel want : nat) (conn : @Conn X tcpFrameHandler)
    (w : World) (r : tcpFrameReader) (plain rest : list Z) :
  conn_frameReader conn = Some (TcpFrame r) ->
  reading r w plain rest -> plain <> [] -> (0 < want)%nat ->
  exists k r' w',
    (1 <= k <= want)%nat /\ (k <= length plain)%nat
    /\ Conn_Read (S fuel) want conn w
       = Returns ((firstn k plain, None), set_frameReader (Some (TcpFrame r')) conn, w')
    /\ reading r' w' (skipn k plain) rest.
Proof.
  intros Hc Hr Hne Hwant.
  destruct (tcpFrameReader_Read_chunk r w plain rest want Hr Hne Hwant)
    as (k & r' & w' & Hk1 & Hk2 & _ & HR & Hr' & _).
  exists k, r', w'. split; [assumption|]. split; [assumption|].
  cbn [Conn_Read]. rewrite Hc. cbn [frame_Read]. rewrite HR. cbn [bind is_EOF].
  split; [reflexivity | assumption].
Qed.

Lemma serving_more_fuel (conn : @Conn X tcpFrameHandler) (w : World) (all : list Z)
    (n m : nat) :
  serving conn w all n -> (n <= m)%nat -> serving conn w all m.
Proof.
  intros [(fs & ? & ? & ? & ? & ?) | (r & p & fs & ? & ? & ? & ? & ?)] Hnm.
  - left. exists fs. repeat split; try assumption. lia.
  - right. exists r, p, fs. repeat split; try assumption. lia.
Qed.

Lemma payloads_nil frames plain :
  plain ++ payloads frames = [] -> plain = [] /\ payloads frames = [].
Proof. apply app_eq_nil. Qed.

Lemma Conn_Read_active (fuel want : nat) :
  (forall conn w all, serving conn w all fuel -> served conn w all fuel want) ->
  (0 < want)%nat ->
  forall (conn : @Conn X tcpFrameHandler) w r plain frames,
    conn_frameReader conn = Some (TcpFrame r) ->
    reading r w plain (stream_of frames) ->
    Forall data_frame frames ->
    (length frames + 1 < S fuel)%nat ->
    served conn w (plain ++ payloads frames) (S fuel) want.
Proof.
  intros IH Hwant conn w r plain frames Hc Hr Hfs Hfuel.
  unfold served in *.
  destruct plain as [| b plain'] eqn:Ep.
  - (* the frame is exhausted: the loop goes on to the next one *)
    pose proof (reading_nil_wire _ _ _ Hr) as [Hw _].
    destruct (IH (set_frameReader None conn) w (payloads frames))
      as (res & conn' & w' & HR & Hre & Hcases).
    { left. exists frames. repeat split; try assumption. lia. }
    exists res, conn', w'. split; [| split; [assumption|]].
    + cbn [Conn_Read]. rewrite Hc. cbn [frame_Read].
      rewrite (tcpFrameReader_Read_end _ _ _ _ Hr). cbn [bind is_EOF]. exact HR.
    + cbn [app]. destruct Hcases as [? | (k & Hk & Hne & Hres & Hs)]; [now left|].
      right. exists k. repeat split; try assumption.
      apply (serving_more_fuel _ _ _ fuel); [assumption | lia].
  - destruct (tcpFrameReader_Read_chunk r w (b :: plain') (stream_of frames) want Hr)
      as (k & r' & w' & Hk1 & Hk2 & _ & HR & Hr' & _ & Hw'); [discriminate | assumption |].
    exists (firstn k (b :: plain'), None), (set_frameReader (Some (TcpFrame r')) conn), w'.
    split; [| split].
    + cbn [Conn_Read]. rewrite Hc. cbn [frame_Read]. rewrite HR. reflexivity.
    + rewrite Hw'. reflexivity.
    + right. exists k. split; [lia|]. split; [discriminate|]. split.
      * rewrite firstn_app. replace (k - length (b :: plain'))%nat with O by lia.
        now rewrite firstn_O, app_nil_r.
      * right. exists r', (skipn k (b :: plain')), frames.
        repeat split; try assumption.
        rewrite skipn_app. replace (k - length (b :: plain'))%nat with O by lia.
        now rewrite skipn_O.
Qed.

Lemma Conn_Read_serving (want : nat) :
  (0 < want)%nat ->
  forall fuel (conn : @Conn X tcpFrameHandler) w all,
    serving conn w all fuel -> served conn w all fuel want.
Proof.
  intros Hwant. unfold served.
  induction fuel as [| fuel IH]; intros conn w all Hs.
  { destruct Hs as [(fs & _ & _ & _ & _ & ?) | (r & p & fs & _ & _ & _ & _ & ?)]; lia. }
  destruct Hs as [(fs & Hc & Hw & Hfs & -> & Hfuel) | (r & p & fs & Hc & Hr & Hfs & -> & Hfuel)].
  - destruct fs as [| [[op mk] msg] fs'].
    + (* nothing is left on the stream *)
      exists ([], Some (read_end w)), conn, w. split; [| split; [reflexivity | now left]].
      cbn [Conn_Read]. rewrite Hc. unfold NewFrameReader. cbn [preambule check_preambule].
      rewrite (ReadByte_nil _ Hw). reflexivity.
    + (* the next frame is fetched and read *)
      inversion Hfs as [| ? ? Hd Hfs']; subst.
      unfold data_frame in Hd. destruct Hd as (Hk & Hop & Hlen).
      cbn [stream_of flat_map] in Hw. fold (stream_of fs') in Hw.
      destruct (decode_frame_bytes op mk msg (stream_of fs') w Hw Hk Hlen)
        as (r & w1 & Hnew & _ & Hopc & _ & _ & _ & _ & _ & _ & Hr).
      destruct (HandleFrame_passes (X := X) (conn_frameHandler conn) r)
        as (op' & h' & Hh'); [congruence|].
      change (tcpFrameHandler_HandleFrame (conn_frameHandler conn) (TcpFrame r))
        with (HandleFrame (conn_frameHandler conn) (TcpFrame (X := X) r)) in Hh'.
      pose proof (Conn_Read_fetch fuel want conn w w1 r _ h' Hc Hnew Hh') as Hfetch.
      destruct (Conn_Read_active fuel want IH Hwant
                  (set_handled (Some (TcpFrame (set_OpCode op' r))) h' conn) w1
                  (set_OpCode op' r) msg fs' eq_refl)
        as (res & conn' & w' & HR & Hre & Hcases);
        [now apply reading_set_OpCode | assumption | simpl in Hfuel; lia |].
      assert (Hre1 : read_end w1 = read_end w).
      { destruct (NewFrameReader_inv w w1 r Hnew) as (_ & _ & _ & Hw1 & _).
        rewrite Hw1. reflexivity. }
      exists res, conn', w'. rewrite Hfetch. split; [exact HR|].
      split; [congruence|].
      cbn [payloads flat_map]. fold (payloads fs').
      rewrite Hre1 in Hcases. exact Hcases.
  - now apply (Conn_Read_active fuel want IH Hwant conn w r p fs).
Qed.

Lemma read_calls_serving (fuel : nat) (sizes : list nat) :
  forall (conn : @Conn X tcpFrameHandler) w all,
    serving conn w all fuel ->
    Forall (fun n => (0 < n)%nat) sizes ->
    exists got err conn' w',
      read_calls fuel sizes conn w = Returns ((got, err), conn', w')
      /\ (exists rest, all = got ++ rest)
      /\ ((length all < length sizes)%nat -> got = all /\ err = Some (read_end w)).
Proof.
  induction sizes as [| n sizes IH]; intros conn w all Hs Hpos.
  - exists [], None, conn, w. simpl. repeat split; [now exists all | lia | lia].
  - inversion Hpos as [| ? ? Hn Hpos']; subst.
    cbn [read_calls].
    pose proof (Conn_Read_serving n Hn fuel conn w all Hs) as Hserved.
    unfold served in Hserved.
    destruct Hserved
      as (res & conn1 & w1 & HR & Hre & [[-> ->] | (k & Hk & Hne & -> & Hs1)]).
    + rewrite HR. cbn [bind].
      do 4 eexists. split; [reflexivity|]. split; [now exists [] | auto].
    + rewrite HR. cbn [bind].
      destruct (IH conn1 w1 (skipn k all) Hs1 Hpos')
        as (got & err & conn2 & w2 & HC & [rest Hrest] & Hfull).
      rewrite HC. cbn [bind].
      do 4 eexists. split; [reflexivity|]. split.
      * exists rest. rewrite <- app_assoc, <- Hrest. symmetry. apply firstn_skipn.
      * intros Hlt. destruct Hfull as [-> ->].
        { pose proof (firstn_skipn_length_lt k all Hk Hne). simpl in Hlt. lia. }
        split; [apply firstn_skipn | congruence].
Qed.

(** X9.  Over a stream of written frames, none a close frame, and with no
    frame in progress at the start, a loop of [Conn.Read] calls with
    buffers that are not empty delivers a prefix of the concatenation of
    their payloads, in order, and all of it, followed by the end of the
    stream, once there are more calls than bytes. *)
Theorem Read_delivers_frames_in_order (frames : list (Z * option (list Z) * list Z))
    (conn : @Conn X tcpFrameHandler) (w : World) (sizes : list nat) (fuel : nat) :
  conn_frameReader conn = None ->
  wire w = stream_of frames ->
  Forall data_frame frames ->
  Forall (fun n => (0 < n)%nat) sizes ->
  (length frames < fuel)%nat ->
  exists got err conn' w',
    read_calls fuel sizes conn w = Returns ((got, err), conn', w')
    /\ (exists rest, payloads frames = got ++ rest)
    /\ ((length (payloads frames) < length sizes)%nat ->
        got = payloads frames /\ err = Some (read_end w)).
Proof.
  intros Hc Hw Hfs Hpos Hfuel.
  apply read_calls_serving; [| assumption].
  left. exists frames. repeat split; assumption.
Qed.
End Streaming.

(** ** Writes in a row, and the reads that follow them *)

Section WriteRead.
Context {X : Type} {XOps : FrameReaderOps X}.

Lemma stream_of_app fs gs : stream_of (fs ++ gs) = stream_of fs ++ stream_of gs.
Proof. unfold stream_of. apply flat_map_app. Qed.

Lemma payloads_written masked op : forall msgs en,
  payloads (written masked op en msgs) = concat msgs.
Proof.
  induction msgs as [| m ms IH]; intros en; [reflexivity|].
  cbn [written payloads flat_map concat]. f_equal. apply IH.
Qed.

Lemma written_length masked op : forall msgs en,
  length (written masked op en msgs) = length msgs.
Proof.
  induction msgs as [| m ms IH]; intros en; [reflexivity|].
  cbn [written length]. f_equal. apply IH.
Qed.

Lemma written_data_frames masked op : forall msgs en,
  Z.land op 0x0f <> CloseFrame ->
  Forall (fun m => Z.of_nat (length m) <= max_int64 - 14) msgs ->
  (masked = true -> (4 * length msgs <= length en)%nat) ->
  Forall data_frame (written masked op en msgs).
Proof.
  induction msgs as [| m ms IH]; intros en Hop Hlen Hen; [constructor|].
  inversion Hlen as [| ? ? Hm Hms]; subst.
  cbn [written]. constructor.
  - unfold data_frame. repeat split; [| assumption | assumption].
    destruct masked; cbn [key_ok]; [| exact I].
    specialize (Hen eq_refl). cbn [length] in Hen. rewrite length_firstn. lia.
  - apply IH; [assumption | assumption |].
    intros ->. specialize (Hen eq_refl). cbn [length] in Hen. rewrite length_skipn. lia.
Qed.

Lemma write_calls_healthy {H : Type} {HOps : FrameHandlerOps (X := X) H} :
  forall (msgs : list (list Z)) (conn : @Conn X H) (w : World),
    let masked := needMaskingKey (conn_frameWriterFactory conn) in
    healthy w ->
    (masked = true -> (4 * length msgs <= length (entropy w))%nat) ->
    exists counts w',
      write_calls msgs conn w = Returns (counts, conn, w')
      /\ wire w' = wire w ++ stream_of (written masked (PayloadType conn) (entropy w) msgs)
      /\ healthy w'
      /\ read_end w' = read_end w
      /\ short w' = short w
      /\ counts = map (fun m => (4 + header_width masked (Z.of_nat (length m))
                                 + Z.of_nat (length m), None)) msgs.
Proof.
  induction msgs as [| m ms IH]; intros conn w masked Hh Hen.
  - exists [], w. cbn [write_calls written stream_of flat_map map].
    rewrite app_nil_r. split; [reflexivity|]. split; [reflexivity|].
    split; [assumption|]. repeat split.
  - cbn [write_calls].
    assert (Hd : can_draw masked w).
    { intros Hm. specialize (Hen Hm). cbn [length] in Hen. lia. }
    rewrite (Conn_Write_healthy m conn w Hh Hd). fold masked. cbn [bind].
    set (w1 := set_flushed _ _ _ _ _).
    assert (Hh1 : healthy w1) by (unfold w1; repeat split).
    assert (Hen1 : entropy w1 = if masked then skipn 4 (entropy w) else entropy w).
    { unfold w1. cbn [entropy set_flushed]. unfold after_draw. now destruct masked. }
    destruct (IH conn w1 Hh1) as (counts & w' & HW & Hw' & Hh' & Hre & Hsh & Hcounts).
    { fold masked. intros Hm. specialize (Hen Hm). cbn [length] in Hen.
      rewrite Hen1, Hm, length_skipn. lia. }
    fold masked in HW, Hw', Hcounts.
    rewrite HW. cbn [bind]. eexists _, w'. split; [reflexivity|].
    split; [| split; [assumption | split; [| split]]].
    + rewrite Hw'. unfold w1 at 1. cbn [wire set_flushed written stream_of flat_map].
      fold (stream_of (written masked (PayloadType conn)
                         (if masked then skipn 4 (entropy w) else entropy w) ms)).
      rewrite Hen1, <- app_assoc. unfold drawn_key. reflexivity.
    + rewrite Hre. unfold w1. cbn [read_end set_flushed]. now destruct masked.
    + rewrite Hsh. unfold w1. cbn [short set_flushed]. now destruct masked.
    + cbn [map]. now rewrite Hcounts.
Qed.

(** X10.  Several calls of [Conn.Write] on a fresh connection over an
    empty, healthy stream all succeed, and a loop of [Conn.Read] calls
    with buffers that are not empty then delivers the concatenation of
    the messages, in order: a prefix of it in general, and all of it,
    followed by the end of the stream, once there are more calls than
    bytes.  The payload type of the connection is any but one that
    carries the close opcode, and a masking connection draws four random
    bytes for each message. *)
Theorem writes_then_reads (msgs : list (list Z)) (conn : @Conn X tcpFrameHandler)
    (w : World) (sizes : list nat) (fuel : nat) :
  let masked := needMaskingKey (conn_frameWriterFactory conn) in
  conn_frameReader conn = None ->
  wire w = [] -> healthy w ->
  (masked = true -> (4 * length msgs <= length (entropy w))%nat) ->
  Z.land (PayloadType conn) 0x0f <> CloseFrame ->
  Forall (fun m => Z.of_nat (length m) <= max_int64 - 14) msgs ->
  Forall (fun n => (0 < n)%nat) sizes ->
  (length msgs < fuel)%nat ->
  exists counts w1 got err conn2 w2,
    write_calls msgs conn w = Returns (counts, conn, w1)
    /\ Forall (fun res => snd res = None) counts
    /\ read_calls fuel sizes conn w1 = Returns ((got, err), conn2, w2)
    /\ (exists rest, concat msgs = got ++ rest)
    /\ ((length (concat msgs) < length sizes)%nat ->
        got = concat msgs /\ err = Some (read_end w)).
Proof.
  intros masked Hc Hw Hh Hen Hop Hlen Hpos Hfuel.
  destruct (write_calls_healthy msgs conn w Hh Hen)
    as (counts & w1 & HW & Hw1 & _ & Hre & _ & Hcounts).
  fold masked in Hw1, Hcounts. rewrite Hw in Hw1. cbn [app] in Hw1.
  destruct (read_calls_serving fuel sizes conn w1 (concat msgs))
    as (got & err & conn2 & w2 & HR & Hpre & Hfull); [| assumption |].
  { left. exists (written masked (PayloadType conn) (entropy w) msgs).
    repeat split; try assumption.
    - now apply written_data_frames.
    - symmetry. apply payloads_written.
    - now rewrite written_length. }
  exists counts, w1, got, err, conn2, w2.
  split; [exact HW|]. split.
  { rewrite Hcounts. apply Forall_forall. intros res Hin.
    apply in_map_iff in Hin as (m & <- & _). reflexivity. }
  split; [exact HR|]. split; [exact Hpre|].
  intros Hlt. rewrite <- Hre. now apply Hfull.
Qed.

Lemma readframe_calls_frames (fuel : nat) :
  forall (frames : list (Z * option (list Z) * list Z)) (rest : list Z)
         (conn : @Conn X tcpFrameHandler) (w : World),
    conn_frameReader conn = None ->
    wire w = stream_of frames ++ rest ->
    Forall data_frame frames ->
    Forall (fun f => Z.of_nat (length (snd f)) <= effective_max (MaxPayloadBytes conn)
                     /\ (length (snd f) < fuel)%nat) frames ->
    exists conn' w',
      readframe_calls fuel (length frames) conn w
      = Returns (map (fun f => (snd f, None)) frames, conn', w')
      /\ conn_frameReader conn' = None
      /\ MaxPayloadBytes conn' = MaxPayloadBytes conn
      /\ wire w' = rest.
Proof.
  induction frames as [| [[op mk] msg] fs IH]; intros rest conn w Hc Hw Hfs Hmax.
  - exists conn, w. repeat split; assumption.
  - inversion Hfs as [| ? ? Hd Hfs']; subst.
    inversion Hmax as [| ? ? [Hm Hf] Hmax']; subst.
    unfold data_frame in Hd. destruct Hd as (Hk & Hop & Hlen). cbn [snd] in Hm, Hf.
    cbn [stream_of flat_map] in Hw. fold (stream_of fs) in Hw. rewrite <- app_assoc in Hw.
    destruct (ReadFrame_frame_bytes op mk msg (stream_of fs ++ rest) conn w fuel)
      as (h1 & w1 & HR & Hw1 & _); try assumption.
    destruct (IH rest (set_handled None h1 conn) w1 eq_refl Hw1 Hfs' Hmax')
      as (conn' & w' & HRs & Hc' & Hmx & Hw').
    cbn [length readframe_calls]. rewrite HR. cbn [bind]. rewrite HRs. cbn [bind].
    exists conn', w'. repeat split; assumption.
Qed.

(** X11.  After several calls of [Conn.Write] on a fresh connection over
    an empty, healthy stream, with messages within the maximum, as many
    calls of [Conn.ReadFrame] return the messages one by one, in order and
    with no error, and leave the stream empty.  The payload type of the
    connection is any but one that carries the close opcode, and a masking
    connection draws four random bytes for each message. *)
Theorem writes_then_ReadFrames (msgs : list (list Z)) (conn : @Conn X tcpFrameHandler)
    (w : World) (fuel : nat) :
  let masked := needMaskingKey (conn_frameWriterFactory conn) in
  conn_frameReader conn = None ->
  wire w = [] -> healthy w ->
  (masked = true -> (4 * length msgs <= length (entropy w))%nat) ->
  Z.land (PayloadType conn) 0x0f <> CloseFrame ->
  Forall (fun m => Z.of_nat (length m) <= effective_max (MaxPayloadBytes conn)
                   /\ Z.of_nat (length m) <= max_int64 - 14
                   /\ (length m < fuel)%nat) msgs ->
  exists counts w1 conn2 w2,
    write_calls msgs conn w = Returns (counts, conn, w1)
    /\ readframe_calls fuel (length msgs) conn w1
       = Returns (map (fun m => (m, None)) msgs, conn2, w2)
    /\ wire w2 = [].
Proof.
  intros masked Hc Hw Hh Hen Hop Hmsgs.
  destruct (write_calls_healthy msgs conn w Hh Hen)
    as (counts & w1 & HW & Hw1 & _ & _ & _ & _).
  fold masked in Hw1. rewrite Hw in Hw1. cbn [app] in Hw1.
  set (frames := written masked (PayloadType conn) (entropy w) msgs) in *.
  assert (Hsnd : map (fun f : Z * option (list Z) * list Z => (snd f, @None error)) frames
                 = map (fun m => (m, None)) msgs).
  { unfold frames. clear. generalize (entropy w).
    induction msgs as [| m ms IH]; intros en; [reflexivity|].
    cbn [written map snd]. f_equal. apply IH. }
  destruct (readframe_calls_frames fuel frames [] conn w1 Hc)
    as (conn2 & w2 & HR & _ & _ & Hw2).
  - now rewrite app_nil_r.
  - apply written_data_frames; [assumption | | assumption].
    eapply Forall_impl; [| exact Hmsgs]. intros m (_ & ? & _). assumption.
  - unfold frames. clear - Hmsgs. revert Hmsgs. generalize (entropy w).
    induction msgs as [| m ms IH]; intros en Hmsgs; [constructor|].
    inversion Hmsgs as [| ? ? (? & ? & ?) Hms]; subst.
    cbn [written]. constructor; [cbn [snd]; split; assumption | now apply IH].
  - exists counts, w1, conn2, w2. split; [exact HW|]. split; [| exact Hw2].
    unfold frames in HR. rewrite written_length in HR. now rewrite <- Hsnd.
Qed.
End WriteRead.

(** ** The header round trip *)

(** X12.  [NewFrameReader] on a frame sent by a writer with opcode [op],
    key [mk] and payload [msg] succeeds, with the final bit set, the low
    four bits of [op] as opcode, bits 6 to 4 of [op] as reserved bits, the
    payload length, the key, the header bytes after the preamble as
    [HeaderReader], their number plus the payload length as [Len], and the
    payload left to read. *)
Theorem header_round_trip (op : Z) (mk : option (list Z)) (msg tail : list Z) (w : World) :
  let len := Z.of_nat (length msg) in
  let masked := match mk with Some _ => true | None => false end in
  wire w = frame_bytes op mk msg ++ tail ->
  key_ok mk -> len <= max_int64 - 14 ->
  exists r w1,
    NewFrameReader w = (inl r, w1)
    /\ Fin (header r) = true
    /\ OpCode (header r) = Z.land op 0x0f
    /\ Rsv (header r) = (Z.testbit op 6, Z.testbit op 5, Z.testbit op 4)
    /\ (0 <= op < 16 -> OpCode (header r) = op /\ Rsv (header r) = (false, false, false))
    /\ Length (header r) = len
    /\ MaskingKey (header r) = mk
    /\ tcpFrameReader_HeaderReader r
       = Some (build_header (written_header op mk) len ++ key_bytes mk)
    /\ tcpFrameReader_Len r = header_width masked len + len
    /\ reading r w1 msg tail.
Proof. exact (decode_frame_bytes op mk msg tail w). Qed.

(** ** Writes that fail *)

Lemma emit_failed (hdr payload : list Z) (w : World) (e : error) :
  bw_err w = Some e -> emit hdr payload w = (Some e, w).
Proof.
  intros He. unfold emit, bufio_Write, bufio_Flush.
  repeat (rewrite He; cbv beta iota). reflexivity.
Qed.

Lemma emit_room (hdr payload : list Z) (w : World) (k : nat) (e : error) :
  bw_err w = None -> pending w = [] -> write_room w = Some (k, e) ->
  let bytes := preambule ++ hdr ++ payload in
  emit hdr payload w
  = if (length bytes <=? k)%nat
    then (None, set_flushed (wire w ++ bytes) [] None (Some ((k - length bytes)%nat, e)) w)
    else (Some e, set_flushed (wire w ++ firstn k bytes) (skipn k bytes) (Some e)
                    (Some (O, e)) w).
Proof.
  intros He Hp Hr bytes. destruct w as [wi re sh pe be wr ce cl en].
  cbn [bw_err pending write_room] in He, Hp, Hr. subst pe be wr.
  unfold emit, bufio_Write, bufio_Flush, rwc_Write.
  cbn [bw_err pending write_room set_pending wire app preambule].
  cbv beta iota.
  change (0x5A :: 0xA5 :: 0x5A :: 0xA5 :: hdr ++ payload) with bytes.
  destruct (length bytes <=? k)%nat; reflexivity.
Qed.

Lemma frame_bytes_length (op : Z) (mk : option (list Z)) (msg : list Z) :
  key_ok mk ->
  Z.of_nat (length (frame_bytes op mk msg))
  = Z.of_nat (length preambule)
    + Z.of_nat (length (build_header (written_header op mk) (Z.of_nat (length msg))
                        ++ key_bytes mk))
    + Z.of_nat (length msg).
Proof.
  intros Hk. destruct (frame_bytes_shape op mk msg Hk) as (body & -> & Hu).
  apply unmasks_length in Hu. rewrite !length_app. lia.
Qed.

Section WriteFailures.
Context {X : Type} {XOps : FrameReaderOps X} {H : Type} {HOps : FrameHandlerOps (X := X) H}.

Lemma tcpFrameWriter_Write_room (op : Z) (mk : option (list Z)) (msg : list Z)
    (w : World) (k : nat) (e : error) :
  bw_err w = None -> pending w = [] -> write_room w = Some (k, e) ->
  key_ok mk ->
  let frame := frame_bytes op mk msg in
  (k < length frame)%nat ->
  tcpFrameWriter_Write (mkWriter (written_header op mk)) msg w
  = Returns ((Z.of_nat (length frame), Some e),
             set_flushed (wire w ++ firstn k frame) (skipn k frame) (Some e)
               (Some (O, e)) w).
Proof.
  intros He Hp Hr Hk frame Hlt.
  pose proof (frame_bytes_length op mk msg Hk) as HL. fold frame in HL.
  unfold frame, frame_bytes in *. fold (written_header op mk) in *.
  unfold tcpFrameWriter_Write. cbn [writer_header].
  destruct mk as [key |]; cbn [MaskingKey written_header key_ok key_bytes] in *.
  - rewrite Hk. cbn [Nat.eqb negb].
    destruct (xor_key_total key msg Hk 0) as [payload Hx]. rewrite Hx in *.
    rewrite (emit_room _ _ w k e He Hp Hr). cbv zeta.
    rewrite <- app_assoc.
    destruct (_ <=? k)%nat eqn:E; [apply Nat.leb_le in E; lia|].
    rewrite HL. reflexivity.
  - rewrite (emit_room _ _ w k e He Hp Hr). cbv zeta.
    destruct (_ <=? k)%nat eqn:E; [apply Nat.leb_le in E; lia|].
    rewrite HL, app_nil_r. reflexivity.
Qed.

Lemma tcpFrameWriter_Write_failed (op : Z) (mk : option (list Z)) (msg : list Z)
    (w : World) (e : error) :
  bw_err w = Some e -> key_ok mk ->
  tcpFrameWriter_Write (mkWriter (written_header op mk)) msg w
  = Returns ((Z.of_nat (length (frame_bytes op mk msg)), Some e), w).
Proof.
  intros He Hk.
  pose proof (frame_bytes_length op mk msg Hk) as HL.
  unfold tcpFrameWriter_Write. cbn [writer_header].
  destruct mk as [key |]; cbn [MaskingKey written_header key_ok key_bytes] in *.
  - rewrite Hk. cbn [Nat.eqb negb].
    destruct (xor_key_total key msg Hk 0) as [payload Hx]. rewrite Hx.
    rewrite (emit_failed _ _ w e He). now rewrite HL.
  - rewrite (emit_failed _ _ w e He). now rewrite HL, app_nil_r.
Qed.

(** X13.  When the stream accepts only [k] bytes, fewer than the frame
    has, [Conn.Write] returns the size of the whole frame together with
    the error of the stream; the first [k] bytes of the frame are on the
    stream, and the buffered writer keeps the error. *)
Theorem Write_stops_where_the_stream_fails (msg : list Z) (conn : @Conn X H)
    (w : World) (k : nat) (e : error) :
  let masked := needMaskingKey (conn_frameWriterFactory conn) in
  let frame := frame_bytes (PayloadType conn) (drawn_key masked w) msg in
  bw_err w = None -> pending w = [] -> write_room w = Some (k, e) ->
  can_draw masked w ->
  (k < length frame)%nat ->
  exists w',
    Conn_Write msg conn w = Returns ((Z.of_nat (length frame), Some e), conn, w')
    /\ wire w' = wire w ++ firstn k frame
    /\ bw_err w' = Some e.
Proof.
  intros masked frame He Hp Hr Hd Hlt. unfold Conn_Write.
  destruct (conn_frameWriterFactory conn) as [m] eqn:Ef. cbn [needMaskingKey] in masked.
  subst masked. rewrite NewFrameWriter_ok by assumption.
  rewrite (tcpFrameWriter_Write_room _ _ msg (after_draw m w) k e).
  - cbn [bind]. eexists. split; [reflexivity|].
    cbn [wire bw_err set_flushed]. rewrite after_draw_wire. split; reflexivity.
  - now destruct m.
  - now destruct m.
  - now destruct m.
  - now apply drawn_key_ok.
  - exact Hlt.
Qed.

(** X14.  Once the buffered writer has failed, [Conn.Write] sends nothing
    and returns the size the frame would have had, with the same error,
    which the writer keeps. *)
Theorem Write_after_a_failure_sends_nothing (msg : list Z) (conn : @Conn X H)
    (w : World) (e : error) :
  let masked := needMaskingKey (conn_frameWriterFactory conn) in
  let frame := frame_bytes (PayloadType conn) (drawn_key masked w) msg in
  bw_err w = Some e ->
  can_draw masked w ->
  exists w',
    Conn_Write msg conn w = Returns ((Z.of_nat (length frame), Some e), conn, w')
    /\ wire w' = wire w /\ pending w' = pending w
    /\ bw_err w' = Some e.
Proof.
  intros masked frame He Hd. unfold Conn_Write.
  destruct (conn_frameWriterFactory conn) as [m] eqn:Ef. cbn [needMaskingKey] in masked.
  subst masked. rewrite NewFrameWriter_ok by assumption.
  rewrite (tcpFrameWriter_Write_failed _ _ msg (after_draw m w) e).
  - cbn [bind]. eexists. split; [reflexivity|].
    rewrite after_draw_wire. destruct m; repeat split; assumption.
  - now destruct m.
  - now apply drawn_key_ok.
Qed.
End WriteFailures.

Section RandomSource.
Context {X : Type} {XOps : FrameReaderOps X}.

(** X15.  When a masking connection cannot draw four random bytes,
    [Conn.Write] returns 0 and the error of the random source and leaves
    the stream as it was; [Conn.Close] returns that error, sends no close
    frame, and closes the stream. *)
Theorem no_random_bytes_no_frame (msg : list Z) (conn : @Conn X tcpFrameHandler)
    (w : World) :
  needMaskingKey (conn_frameWriterFactory conn) = true ->
  (length (entropy w) < 4)%nat ->
  Conn_Write msg conn w = Returns ((0, Some ErrRand), conn, w)
  /\ Conn_Close conn w = Returns (Some ErrRand, conn, set_closed w).
Proof.
  intros Hm Hen.
  assert (Hg : generateMaskingKey w = (([0; 0; 0; 0], Some ErrRand), w)).
  { unfold generateMaskingKey, rand_Read.
    destruct (4 <=? length (entropy w))%nat eqn:E; [apply Nat.leb_le in E; lia|].
    reflexivity. }
  split.
  - unfold Conn_Write, NewFrameWriter. rewrite Hm, Hg. reflexivity.
  - unfold Conn_Close. cbn [WriteClose tcpFrameHandlerOps].
    unfold tcpFrameHandler_WriteClose, NewFrameWriter. rewrite Hm, Hg.
    cbn [bind]. unfold rwc_Close.
    destruct conn as [fr wf h pt st mx]. reflexivity.
Qed.
End RandomSource.

(** ** Close frames *)

Lemma tcpFrameReader_Read_exhausted r w want :
  limit r <= 0 ->
  exists r', tcpFrameReader_Read r want w = Returns (([], Some EOF), r', w)
             /\ limit r' = limit r.
Proof.
  intros Hl. unfold tcpFrameReader_Read.
  rewrite LimitedReader_Read_done by assumption.
  destruct (MaskingKey (header r)); cbn [xor_key]; eexists; split; reflexivity.
Qed.

Section CloseFrames.
Context {X : Type} {XOps : FrameReaderOps X}.

Lemma WriteClose_healthy (handler : tcpFrameHandler) (masked : bool) (status : Z)
    (w : World) :
  healthy w -> can_draw masked w ->
  tcpFrameHandler_WriteClose handler (mkWriterFactory masked) status w
  = Returns (None, handler,
             set_flushed
               (wire w ++ frame_bytes CloseFrame (drawn_key masked w)
                            (big_endian 2 (uint16 status)))
               [] None None (after_draw masked w)).
Proof.
  intros Hh Hd. unfold tcpFrameHandler_WriteClose.
  rewrite NewFrameWriter_ok by assumption.
  unfold AppendUint16. cbn [app].
  rewrite tcpFrameWriter_Write_healthy
    by (auto using after_draw_healthy, drawn_key_ok).
  cbn [bind]. now rewrite after_draw_wire.
Qed.

Lemma close_frame_decodes (mk : option (list Z)) (msg tail : list Z) (w : World) :
  wire w = frame_bytes CloseFrame mk msg ++ tail ->
  key_ok mk -> Z.of_nat (length msg) <= max_int64 - 14 ->
  exists r w1,
    NewFrameReader w = (inl r, w1)
    /\ (forall handler : tcpFrameHandler,
          tcpFrameHandler_HandleFrame (X := X) handler (TcpFrame r)
          = Returns ((None, Some EOF), handler))
    /\ reading r w1 msg tail
    /\ short w1 = short w.
Proof.
  intros Hw Hk Hlen.
  destruct (decode_frame_bytes CloseFrame mk msg tail w Hw Hk Hlen)
    as (r & w1 & Hnew & _ & Hop & _ & _ & _ & _ & _ & _ & Hr).
  exists r, w1. split; [exact Hnew|]. split; [| split; [exact Hr|]].
  - intros handler. apply HandleFrame_close. rewrite Hop. reflexivity.
  - destruct (NewFrameReader_inv w w1 r Hnew) as (_ & _ & _ & Hw1 & _).
    rewrite Hw1. reflexivity.
Qed.

(** X16.  The frame that [WriteClose] writes for [status] onto an empty,
    healthy stream is decoded by [NewFrameReader], answered by
    [HandleFrame] with no frame and [EOF], and its payload, read in one
    call into two bytes or more that nothing cuts short, is the two
    big-endian bytes of [uint16(status)]. *)
Theorem WriteClose_is_read_as_end_of_stream (handler : tcpFrameHandler)
    (masked : bool) (status : Z) (w : World) (want : nat) :
  healthy w -> wire w = [] -> short w = [] -> can_draw masked w ->
  (2 <= want)%nat ->
  exists w1 r w2 r' w3,
    tcpFrameHandler_WriteClose handler (mkWriterFactory masked) status w
    = Returns (None, handler, w1)
    /\ NewFrameReader w1 = (inl r, w2)
    /\ tcpFrameHandler_HandleFrame (X := X) handler (TcpFrame r)
       = Returns ((None, Some EOF), handler)
    /\ tcpFrameReader_Read r want w2
       = Returns (([(status mod 65536) / 256; status mod 256], None), r', w3)
    /\ wire w3 = [].
Proof.
  intros Hh Hw Hs Hd Hwant.
  rewrite (WriteClose_healthy handler masked status w Hh Hd).
  set (w1 := set_flushed _ _ _ _ _).
  assert (Hst : 0 <= uint16 status < 65536).
  { unfold uint16. apply Z.mod_pos_bound. lia. }
  assert (Hbytes : big_endian 2 (uint16 status)
                   = [(status mod 65536) / 256; status mod 256]).
  { rewrite big_endian_2 by assumption. unfold uint16. change (2 ^ 16) with 65536.
    do 2 f_equal. change 65536 with (256 * 256).
    rewrite Z.rem_mul_r by lia.
    rewrite Z.mul_comm, Z.mod_add by lia. apply Z.mod_mod. lia. }
  destruct (close_frame_decodes (drawn_key masked w) (big_endian 2 (uint16 status)) [] w1)
    as (r & w2 & Hnew & Hclose & Hr & Hs2).
  { unfold w1. cbn [wire set_flushed]. now rewrite Hw, app_nil_r. }
  { now apply drawn_key_ok. }
  { rewrite big_endian_length. unfold max_int64. simpl. lia. }
  destruct (tcpFrameReader_Read_chunk r w2 _ [] want Hr) as
    (k & r' & w3 & Hk1 & Hk2 & Hk3 & HR & Hr' & _); [| lia |].
  { rewrite Hbytes. discriminate. }
  assert (Hk : k = 2%nat).
  { rewrite Hk3.
    - rewrite big_endian_length. lia.
    - rewrite Hs2. unfold w1. cbn [short set_flushed].
      destruct masked; exact Hs. }
  subst k. rewrite Hbytes in HR, Hr'. cbn [firstn skipn] in HR, Hr'.
  exists w1, r, w2, r', w3. split; [reflexivity|]. split; [exact Hnew|].
  split; [apply Hclose|]. split; [exact HR|].
  now apply reading_nil_wire in Hr' as [Hnil _].
Qed.

(** X17.  Over a stream that gives back what was written to it, empty and
    healthy before the call, and with no frame in progress or one that is
    exhausted, [Conn.Close] succeeds as the stream's [Close] does, and
    [Conn.Read] and [Conn.ReadFrame] on the same connection then fail
    with [EOF]. *)
Theorem Read_after_Close_is_EOF (conn : @Conn X tcpFrameHandler) (w : World)
    (fuel want : nat) :
  let masked := needMaskingKey (conn_frameWriterFactory conn) in
  conn_frameReader conn = None
  \/ (exists r, conn_frameReader conn = Some (TcpFrame r) /\ limit r <= 0) ->
  healthy w -> wire w = [] -> can_draw masked w ->
  exists conn1 w1 conn2 w2,
    Conn_Close conn w = Returns (close_err w, conn1, w1)
    /\ closed w1 = true
    /\ Conn_Read (S (S fuel)) want conn1 w1 = Returns (([], Some EOF), conn2, w2)
    /\ Conn_ReadFrame (S fuel) conn1 w1 = Returns (([], Some EOF), conn2, w2)
    /\ conn_frameReader conn2 = None.
Proof.
  intros masked Hfr Hh Hw Hd.
  destruct conn as [fr [m] h pt st mx]. cbn [needMaskingKey conn_frameWriterFactory] in masked.
  subst masked. cbn [conn_frameReader] in Hfr.
  set (w0 := set_flushed
               (wire w ++ frame_bytes CloseFrame (drawn_key m w)
                            (big_endian 2 (uint16 st)))
               [] None None (after_draw m w)).
  assert (HC : Conn_Close (mkConn fr (mkWriterFactory m) h pt st mx) w
               = Returns (close_err w, mkConn fr (mkWriterFactory m) h pt st mx,
                          set_closed w0)).
  { unfold Conn_Close.
    cbn [WriteClose tcpFrameHandlerOps conn_frameHandler conn_frameWriterFactory
         defaultCloseStatus].
    rewrite (WriteClose_healthy h m st w Hh Hd). fold w0. cbn [bind]. unfold rwc_Close.
    cbn [set_handled conn_frameReader conn_frameWriterFactory PayloadType
         defaultCloseStatus MaxPayloadBytes].
    replace (close_err w0) with (close_err w); [reflexivity|].
    unfold w0. cbn [close_err set_flushed]. now destruct m. }
  destruct (close_frame_decodes (drawn_key m w) (big_endian 2 (uint16 st)) []
              (set_closed w0))
    as (r & w2 & Hnew & Hclose & _ & _).
  { cbn [wire set_closed]. unfold w0. cbn [wire set_flushed]. now rewrite Hw, app_nil_r. }
  { now apply drawn_key_ok. }
  { rewrite big_endian_length. unfold max_int64. simpl. lia. }
  exists (mkConn fr (mkWriterFactory m) h pt st mx), (set_closed w0),
         (mkConn None (mkWriterFactory m) h pt st mx), w2.
  split; [exact HC|]. split; [reflexivity|].
  destruct Hfr as [-> | (r0 & -> & Hl)].
  - split; [| split; [| reflexivity]].
    + cbn [Conn_Read conn_frameReader]. rewrite Hnew.
      cbn [HandleFrame tcpFrameHandlerOps conn_frameHandler]. rewrite Hclose.
      reflexivity.
    + unfold Conn_ReadFrame. cbn [conn_frameReader ReadFrame_loop]. rewrite Hnew.
      cbn [HandleFrame tcpFrameHandlerOps conn_frameHandler]. rewrite Hclose.
      reflexivity.
  - destruct (tcpFrameReader_Read_exhausted r0 (set_closed w0) want Hl) as (r1 & HR1 & _).
    destruct (tcpFrameReader_Read_exhausted r0 (set_closed w0) discard_block Hl)
      as (r2 & HR2 & _).
    split; [| split; [| reflexivity]].
    + cbn [Conn_Read conn_frameReader frame_Read]. rewrite HR1. cbn [bind is_EOF].
      cbn [conn_frameReader set_frameReader]. rewrite Hnew.
      cbn [HandleFrame tcpFrameHandlerOps conn_frameHandler]. rewrite Hclose.
      reflexivity.
    + unfold Conn_ReadFrame. cbn [conn_frameReader io_Copy_Discard frame_Read].
      rewrite HR2. cbn [bind is_EOF].
      cbn [ReadFrame_loop set_frameReader conn_frameReader]. rewrite Hnew.
      cbn [HandleFrame tcpFrameHandlerOps conn_frameHandler]. rewrite Hclose.
      reflexivity.
Qed.
End CloseFrames.

(** ** The example server *)

Section ExampleServer.
Context {X : Type} {XOps : FrameReaderOps X}.

(** X18.  On the connection that the example server builds, with a nil
    frame handler, [Conn.Close] panics; [Conn.ReadFrame] and [Conn.Read]
    panic as soon as a frame header is decoded, and return the decoding
    error otherwise; so [Serve], which ends in [conn.Close()], always
    panics. *)
Theorem example_server_connection_panics (w : World) (fuel want : nat) :
  let conn := NewFrameConnection (X := X) nil_handler 0 in
  Conn_Close conn w = Panics
  /\ Serve (S fuel) conn w = Panics
  /\ match NewFrameReader w with
     | (inl _, _) =>
       Conn_ReadFrame (S fuel) conn w = Panics
       /\ Conn_Read (S fuel) want conn w = Panics
     | (inr e, w1) =>
       Conn_ReadFrame (S fuel) conn w = Returns (([], Some e), conn, w1)
       /\ Conn_Read (S fuel) want conn w = Returns (([], Some e), conn, w1)
     end.
Proof.
  intros conn.
  assert (HC : forall w0, Conn_Close conn w0 = Panics) by reflexivity.
  split; [apply HC|].
  unfold Serve. cbn [Serve_loop]. unfold Conn_ReadFrame.
  cbn [conn NewFrameConnection conn_frameReader ReadFrame_loop Conn_Read].
  destruct (NewFrameReader w) as [[r | e] w1].
  - cbn [HandleFrame nilHandlerOps bind]. repeat split.
  - cbn [bind]. fold conn. rewrite HC. repeat split.
Qed.
End ExampleServer.

(** ** Edge cases of reading *)

Section ReadEdges.
Context {X : Type} {XOps : FrameReaderOps X}.

(** X19.  [Conn.Read] into a buffer of no bytes, with no frame in
    progress, when the stream starts with a written frame of an opcode
    that is not close and a payload that is not empty, consumes the header
    of the frame and returns 0 bytes and no error; the payload is left to
    later calls, and a further call with no bytes changes nothing. *)
Theorem Read_into_empty_buffer (op : Z) (mk : option (list Z)) (msg rest : list Z)
    (conn : @Conn X tcpFrameHandler) (w : World) (fuel : nat) :
  conn_frameReader conn = None ->
  wire w = frame_bytes op mk msg ++ rest ->
  key_ok mk ->
  Z.land op 0x0f <> CloseFrame ->
  Z.of_nat (length msg) <= max_int64 - 14 ->
  msg <> [] ->
  exists r conn' w',
    Conn_Read (S fuel) 0 conn w = Returns (([], None), conn', w')
    /\ conn_frameReader conn' = Some (TcpFrame r)
    /\ reading r w' msg rest
    /\ Conn_Read (S fuel) 0 conn' w' = Returns (([], None), conn', w').
Proof.
  intros Hnone Hw Hk Hop Hlen Hne.
  destruct (decode_frame_bytes op mk msg rest w Hw Hk Hlen)
    as (r & w1 & Hnew & _ & Hopc & _ & _ & _ & _ & _ & _ & Hr).
  destruct (HandleFrame_passes (X := X) (conn_frameHandler conn) r) as (op' & h' & Hh');
    [congruence|].
  apply (reading_set_OpCode op') in Hr.
  set (r1 := set_OpCode op' r) in *.
  assert (Hread : tcpFrameReader_Read r1 0 w1 = Returns (([], None), r1, w1)).
  { destruct Hr as (masked & Hw1 & Hl & Hk1 & Hu).
    pose proof (unmasks_length _ _ _ _ Hu) as Hlen1.
    assert (Hpos : 0 < limit r1).
    { rewrite Hl. destruct masked, msg; simpl in *; try congruence; lia. }
    unfold tcpFrameReader_Read, LimitedReader_Read.
    destruct (limit r1 <=? 0) eqn:E0; [lia|].
    destruct (limit r1 <? Z.of_nat 0) eqn:E1;
      [apply Z.ltb_lt in E1; change (Z.of_nat 0) with 0 in E1; lia|].
    cbn [bufio_Read length]. rewrite Z.sub_0_r.
    destruct r1 as [lim hdr p len]; cbn [limit header pos length_ MaskingKey].
    destruct (MaskingKey hdr); cbn [xor_key]; [now rewrite Z.add_0_r | reflexivity]. }
  exists r1, (set_handled (Some (TcpFrame r1)) h' conn), w1.
  assert (Hstay : forall c : @Conn X tcpFrameHandler,
            conn_frameReader c = Some (TcpFrame r1) ->
            Conn_Read (S fuel) 0 c w1
            = Returns (([], None), set_frameReader (Some (TcpFrame r1)) c, w1)).
  { intros c Hc. cbn [Conn_Read]. rewrite Hc. cbn [frame_Read]. rewrite Hread.
    reflexivity. }
  split; [| split; [reflexivity | split; [exact Hr|]]].
  - cbn [Conn_Read]. rewrite Hnone, Hnew.
    change (HandleFrame (conn_frameHandler conn) (TcpFrame r))
      with (tcpFrameHandler_HandleFrame (conn_frameHandler conn) (TcpFrame (X := X) r)).
    rewrite Hh'. cbn [bind frame_Read]. rewrite Hread. reflexivity.
  - now rewrite Hstay.
Qed.

(** X20.  [NewFrameReader] accepts a length sent in the two-byte form, in
    an unmasked header, whatever its value, also below 126, and accepts
    any first byte: the final bit and the reserved bits are recorded and
    not checked. *)
Theorem decoder_accepts_short_lengths_in_long_form (b1 v : Z) (tail : list Z) (w : World) :
  wire w = preambule ++ b1 :: 126 :: big_endian 2 v ++ tail ->
  0 <= v < 65536 ->
  exists r,
    NewFrameReader w = (inl r, set_read tail (short w) w)
    /\ Length (header r) = v
    /\ Fin (header r) = Z.testbit b1 7
    /\ Rsv (header r) = (Z.testbit b1 6, Z.testbit b1 5, Z.testbit b1 4)
    /\ OpCode (header r) = Z.land b1 0x0f
    /\ MaskingKey (header r) = None
    /\ tcpFrameReader_Len r = 4 + v.
Proof.
  intros Hw Hv.
  assert (Hnew : exists r,
            NewFrameReader w = (inl r, set_read tail (short w) w)
            /\ Length (header r) = v /\ MaskingKey (header r) = None
            /\ tcpFrameReader_Len r = 4 + v).
  { unfold NewFrameReader.
    rewrite (check_preambule_ok w _ Hw). cbv beta iota.
    rewrite (ReadByte_cons _ b1 (126 :: big_endian 2 v ++ tail)) by reflexivity.
    cbv beta iota.
    rewrite (ReadByte_cons _ 126 (big_endian 2 v ++ tail)) by reflexivity.
    cbv beta iota.
    change (Z.land 126 128 =? 0) with true. change (Z.land 126 127) with 126.
    change (126 <=? 125) with false. change (126 =? 126) with true.
    cbv beta iota. cbn [negb].
    rewrite (read_length_wraps 2 _ 0 v tail) by (try reflexivity; lia).
    cbv beta iota.
    assert (Hp : 256 ^ Z.of_nat 2 = 65536) by reflexivity.
    rewrite Hp, Z.mul_0_l, Z.add_0_l, Z.mod_small, wrap64_small by lia.
    eexists. split; [reflexivity|]. cbn [header Length MaskingKey].
    split; [reflexivity|]. split; [reflexivity|].
    unfold tcpFrameReader_Len. cbn [length_].
    rewrite !length_app, big_endian_length. cbn [length].
    apply wrap64_small. lia. }
  destruct Hnew as (r & Hnew & HL & Hmk & Hlen).
  destruct (NewFrameReader_first_byte w _ r Hnew) as (b1' & tl & Hb1 & Hfin & Hrsv & Hop).
  assert (Hb : b1' = b1).
  { rewrite Hw in Hb1. apply app_inv_head in Hb1. congruence. }
  subst b1'. exists r. repeat split; assumption.
Qed.
End ReadEdges.

(** ** No panic on the reading side *)

Lemma tcpFrameReader_Read_returns r want w :
  key_ok (MaskingKey (header r)) ->
  exists res r' w',
    tcpFrameReader_Read r want w = Returns (res, r', w') /\ header r' = header r.
Proof.
  intros Hk. unfold tcpFrameReader_Read.
  destruct (LimitedReader_Read (limit r) want w) as [[[bs err] N] w'].
  destruct (MaskingKey (header r)) as [key |] eqn:Ek; cbn [key_ok] in Hk.
  - destruct (xor_key_total key bs Hk (pos r)) as [out ->].
    eexists _, _, _. split; reflexivity.
  - eexists _, _, _. split; reflexivity.
Qed.

Section NoPanic.
Context {X : Type} {XOps : FrameReaderOps X}.

Lemma io_Copy_Discard_safe (fuel : nat) :
  forall r w,
    key_ok (MaskingKey (header r)) ->
    safely (io_Copy_Discard (X := X) fuel (TcpFrame r) w)
      (fun '(_, fr, _) => codec_frame (Some fr)).
Proof.
  induction fuel as [| fuel IH]; intros r w Hk; [exact I|].
  cbn [io_Copy_Discard frame_Read].
  destruct (tcpFrameReader_Read_returns r discard_block w Hk)
    as ([bs err] & r' & w' & -> & Hh).
  cbn [bind]. destruct err as [e |].
  - cbn [safely codec_frame]. now rewrite Hh.
  - apply IH. now rewrite Hh.
Qed.

Lemma io_ReadAll_safe (fuel : nat) :
  forall acc r w,
    key_ok (MaskingKey (header r)) ->
    safely (io_ReadAll (X := X) fuel acc (TcpFrame r) w) (fun _ => True).
Proof.
  induction fuel as [| fuel IH]; intros acc r w Hk; [exact I|].
  cbn [io_ReadAll frame_Read].
  destruct (tcpFrameReader_Read_returns r readall_block w Hk)
    as ([bs err] & r' & w' & -> & Hh).
  cbn [bind]. destruct err as [e |].
  - exact I.
  - apply IH. now rewrite Hh.
Qed.

Lemma HandleFrame_safe (handler : tcpFrameHandler) (r : tcpFrameReader) :
  key_ok (MaskingKey (header r)) ->
  exists fr err handler',
    tcpFrameHandler_HandleFrame (X := X) handler (TcpFrame r)
    = Returns ((fr, err), handler')
    /\ codec_frame fr.
Proof.
  intros Hk. unfold tcpFrameHandler_HandleFrame.
  destruct (frame_PayloadType (TcpFrame r) =? ContinuationFrame).
  { eexists _, _, _. split; [reflexivity | exact Hk]. }
  destruct ((frame_PayloadType (TcpFrame r) =? TextFrame)
            || (frame_PayloadType (TcpFrame r) =? BinaryFrame)).
  { eexists _, _, _. split; [reflexivity | exact Hk]. }
  destruct (frame_PayloadType (TcpFrame r) =? CloseFrame).
  { eexists _, _, _. split; [reflexivity | exact I]. }
  eexists _, _, _. split; [reflexivity | exact Hk].
Qed.

Lemma NewFrameReader_key_ok (w w1 : World) (r : tcpFrameReader) :
  NewFrameReader w = (inl r, w1) -> key_ok (MaskingKey (header r)).
Proof.
  intros Hnew. now destruct (NewFrameReader_inv w w1 r Hnew) as (_ & _ & _ & _ & _ & _ & Hk & _).
Qed.

Lemma Conn_Read_safe (want : nat) :
  forall (fuel : nat) (conn : @Conn X tcpFrameHandler) (w : World),
    codec_frame (conn_frameReader conn) ->
    safely (Conn_Read fuel want conn w)
      (fun '(_, conn', _) => codec_frame (conn_frameReader conn')).
Proof.
  induction fuel as [| fuel IH]; intros conn w Hc; [exact I|].
  assert (Hactive : forall r (c : @Conn X tcpFrameHandler) w0,
            key_ok (MaskingKey (header r)) ->
            safely ('((bs, err), frame', w') <- frame_Read (TcpFrame r) want w0 ;;
                    if is_EOF err
                    then Conn_Read fuel want (set_frameReader None c) w'
                    else Returns ((bs, err), set_frameReader (Some frame') c, w'))
              (fun '(_, conn', _) => codec_frame (conn_frameReader conn'))).
  { intros r c w0 Hk. cbn [frame_Read].
    destruct (tcpFrameReader_Read_returns r want w0 Hk) as ([bs err] & r' & w' & -> & Hh).
    cbn [bind]. destruct (is_EOF err).
    - apply IH. exact I.
    - cbn [safely conn_frameReader set_frameReader codec_frame]. now rewrite Hh. }
  cbn [Conn_Read].
  destruct (conn_frameReader conn) as [[r | x] |] eqn:Efr; cbn [codec_frame] in Hc.
  - now apply Hactive.
  - contradiction.
  - destruct (NewFrameReader w) as [[r | e] w1] eqn:Enew.
    + pose proof (NewFrameReader_key_ok _ _ _ Enew) as Hk.
      destruct (HandleFrame_safe (conn_frameHandler conn) r Hk)
        as (fr & err & h' & Hh & Hfr).
      change (HandleFrame (conn_frameHandler conn) (TcpFrame r))
        with (tcpFrameHandler_HandleFrame (conn_frameHandler conn) (TcpFrame (X := X) r)).
      rewrite Hh. cbn [bind].
      destruct err as [e |].
      * cbn [safely conn_frameReader set_handled]. exact Hfr.
      * destruct fr as [[r' | x] |]; cbn [codec_frame] in Hfr.
        -- now apply Hactive.
        -- contradiction.
        -- apply IH. exact I.
    + cbn [safely]. now rewrite Efr.
Qed.

Lemma ReadFrame_loop_safe :
  forall (fuel : nat) (conn : @Conn X tcpFrameHandler) (w : World),
    codec_frame (conn_frameReader conn) ->
    safely (ReadFrame_loop fuel conn w)
      (fun '(_, conn', _) => codec_frame (conn_frameReader conn')).
Proof.
  induction fuel as [| fuel IH]; intros conn w Hc; [exact I|].
  cbn [ReadFrame_loop].
  destruct (NewFrameReader w) as [[r | e] w1] eqn:Enew; [| exact Hc].
  pose proof (NewFrameReader_key_ok _ _ _ Enew) as Hk.
  destruct (HandleFrame_safe (conn_frameHandler conn) r Hk) as (fr & err & h' & Hh & Hfr).
  change (HandleFrame (conn_frameHandler conn) (TcpFrame r))
    with (tcpFrameHandler_HandleFrame (conn_frameHandler conn) (TcpFrame (X := X) r)).
  rewrite Hh. cbn [bind].
  destruct err as [e |]; [exact Hc|].
  destruct fr as [[r' | x] |]; cbn [codec_frame] in Hfr.
  - destruct (_ <? Length (header r')).
    + pose proof (io_Copy_Discard_safe (S fuel) r' w1 Hfr) as Hs.
      destruct (io_Copy_Discard (S fuel) (TcpFrame r') w1) as [[[err fr'] w2] | |];
        cbn [bind safely] in *; try assumption.
      destruct err; exact Hc.
    + pose proof (io_ReadAll_safe (S fuel) [] r' w1 Hfr) as Hs.
      destruct (io_ReadAll (S fuel) [] (TcpFrame r') w1) as [[[res fr'] w2] | |];
        cbn [bind safely] in *; try assumption; exact Hc.
  - contradiction.
  - apply IH. exact Hc.
Qed.

(** X21.  On a connection with the codec's handler whose frame in
    progress, if any, is the codec's, [Conn.Read] and [Conn.ReadFrame] do
    not panic, on any stream, and leave the connection in such a
    state. *)
Theorem Read_and_ReadFrame_never_panic (fuel want : nat)
    (conn : @Conn X tcpFrameHandler) (w : World) :
  codec_frame (conn_frameReader conn) ->
  safely (Conn_Read fuel want conn w)
    (fun '(_, conn', _) => codec_frame (conn_frameReader conn'))
  /\ safely (Conn_ReadFrame fuel conn w)
       (fun '(_, conn', _) => codec_frame (conn_frameReader conn')).
Proof.
  intros Hc. split; [now apply Conn_Read_safe|].
  unfold Conn_ReadFrame.
  destruct (conn_frameReader conn) as [[r | x] |] eqn:Efr; cbn [codec_frame] in Hc.
  - pose proof (io_Copy_Discard_safe fuel r w Hc) as Hs.
    destruct (io_Copy_Discard fuel (TcpFrame r) w) as [[[err fr'] w1] | |];
      cbn [bind safely] in *; try assumption.
    destruct err as [e |].
    + exact Hs.
    + apply ReadFrame_loop_safe. exact I.
  - contradiction.
  - apply ReadFrame_loop_safe. now rewrite Efr.
Qed.

(** X22.  When the stream is empty while the frame in progress has bytes
    outstanding, [Conn.Read] returns no byte and the error the stream
    reports at its end; when that error is [EOF] the frame in progress is
    dropped. *)
Theorem Read_at_truncated_payload (fuel want : nat) (conn : @Conn X tcpFrameHandler)
    (w : World) (r : tcpFrameReader) :
  conn_frameReader conn = Some (TcpFrame r) ->
  0 < limit r -> wire w = [] -> key_ok (MaskingKey (header r)) ->
  (0 < want)%nat ->
  exists conn',
    Conn_Read (S (S fuel)) want conn w = Returns (([], Some (read_end w)), conn', w)
    /\ (read_end w = EOF -> conn_frameReader conn' = None).
Proof.
  intros Hc Hl Hw Hk Hwant.
  assert (HR : exists r', tcpFrameReader_Read r want w
                          = Returns (([], Some (read_end w)), r', w)).
  { unfold tcpFrameReader_Read. rewrite LimitedReader_Read_dry by assumption.
    destruct (MaskingKey (header r)); cbn [xor_key]; now eexists. }
  destruct HR as [r' HR].
  cbn [Conn_Read]. rewrite Hc. cbn [frame_Read]. rewrite HR. cbn [bind].
  destruct (read_end w) eqn:Ere; cbn [is_EOF];
    try (eexists; split; [reflexivity | discriminate]).
  cbn [conn_frameReader set_frameReader].
  unfold NewFrameReader. cbn [preambule check_preambule].
  rewrite (ReadByte_nil _ Hw). rewrite Ere.
  eexists. split; [reflexivity|]. intros _. reflexivity.
Qed.
End NoPanic.

(** ** After a close frame *)

Section AfterClose.
Context {X : Type} {XOps : FrameReaderOps X}.

(** X23.  A close frame at the start of the stream, with no frame in
    progress, makes [Conn.Read] and [Conn.ReadFrame] fail with [EOF] right
    after its header: its payload is left on the stream.  Unless that payload starts with the first byte
    of the preamble, the next [Conn.Read] or [Conn.ReadFrame] takes its
    first byte for a bad preamble and fails with [ErrBadPreambule]. *)
Theorem close_frame_payload_is_left_unread (mk : option (list Z)) (msg rest : list Z)
    (conn : @Conn X tcpFrameHandler) (w : World) (fuel want : nat) :
  conn_frameReader conn = None ->
  wire w = frame_bytes CloseFrame mk msg ++ rest ->
  key_ok mk -> Z.of_nat (length msg) <= max_int64 - 14 ->
  exists w1 left,
    Conn_Read (S fuel) want conn w = Returns (([], Some EOF), conn, w1)
    /\ Conn_ReadFrame (S fuel) conn w = Returns (([], Some EOF), conn, w1)
    /\ wire w1 = left ++ rest /\ unmasks mk 0 left msg
    /\ (forall b tl,
          wire w1 = b :: tl -> b <> 0x5A ->
          Conn_Read (S fuel) want conn w1
          = Returns (([], Some ErrBadPreambule), conn, set_read tl (short w1) w1)
          /\ Conn_ReadFrame (S fuel) conn w1
             = Returns (([], Some ErrBadPreambule), conn, set_read tl (short w1) w1)).
Proof.
  intros Hnone Hw Hk Hlen.
  destruct (decode_frame_bytes CloseFrame mk msg rest w Hw Hk Hlen)
    as (r & w1 & Hnew & _ & Hop & _ & _ & _ & Hmk & _ & _ & Hr).
  assert (Hclose : tcpFrameHandler_HandleFrame (X := X) (conn_frameHandler conn) (TcpFrame r)
                   = Returns ((None, Some EOF), conn_frameHandler conn)).
  { apply HandleFrame_close. rewrite Hop. reflexivity. }
  assert (Hsame : set_handled None (conn_frameHandler conn) conn = conn).
  { destruct conn as [fr wf h pt st mx]. cbn in Hnone |- *. now subst fr. }
  destruct Hr as (left & Hw1 & _ & _ & Hu). rewrite Hmk in Hu.
  cbn [pos] in Hu.
  assert (Hpos : pos r = 0).
  { now destruct (NewFrameReader_inv w w1 r Hnew) as (_ & _ & _ & _ & _ & Hp & _). }
  rewrite Hpos in Hu.
  exists w1, left.
  split; [| split; [| split; [exact Hw1 | split; [exact Hu|]]]].
  - cbn [Conn_Read]. rewrite Hnone, Hnew.
    change (HandleFrame (conn_frameHandler conn) (TcpFrame r))
      with (tcpFrameHandler_HandleFrame (conn_frameHandler conn) (TcpFrame (X := X) r)).
    rewrite Hclose. cbn [bind]. now rewrite Hsame.
  - unfold Conn_ReadFrame. rewrite Hnone. cbn [ReadFrame_loop]. rewrite Hnew.
    change (HandleFrame (conn_frameHandler conn) (TcpFrame r))
      with (tcpFrameHandler_HandleFrame (conn_frameHandler conn) (TcpFrame (X := X) r)).
    rewrite Hclose. cbn [bind]. rewrite Hnone. now rewrite Hsame.
  - intros b tl Hb Hne.
    assert (Hbad : NewFrameReader w1 = (inr ErrBadPreambule, set_read tl (short w1) w1)).
    { unfold NewFrameReader.
      rewrite (check_preambule_bad preambule 0 b tl w1); [reflexivity | simpl; lia | exact Hb |].
      cbn [nth preambule]. congruence. }
    split.
    + cbn [Conn_Read]. now rewrite Hnone, Hbad.
    + unfold Conn_ReadFrame. rewrite Hnone. cbn [ReadFrame_loop]. now rewrite Hbad.
Qed.
End AfterClose.

(** ** Concrete runs of the further properties *)

(** A masked text frame of five bytes. *)
Lemma header_round_trip_witness :
  let mk := Some [0x0f; 0xff; 0xff; 0x0f] in
  let msg := [1; 2; 3; 4; 5] in
  exists r w1,
    NewFrameReader (demo_world (frame_bytes TextFrame mk msg) []) = (inl r, w1)
    /\ Fin (header r) = true
    /\ OpCode (header r) = Z.land TextFrame 0x0f
    /\ Rsv (header r) = (Z.testbit TextFrame 6, Z.testbit TextFrame 5, Z.testbit TextFrame 4)
    /\ (0 <= TextFrame < 16 ->
        OpCode (header r) = TextFrame /\ Rsv (header r) = (false, false, false))
    /\ Length (header r) = 5
    /\ MaskingKey (header r) = mk
    /\ tcpFrameReader_HeaderReader r
       = Some (build_header (written_header TextFrame mk) 5 ++ key_bytes mk)
    /\ tcpFrameReader_Len r = header_width true 5 + 5
    /\ reading r w1 msg [].
Proof.
  intros mk msg.
  apply (header_round_trip TextFrame mk msg [] (demo_world (frame_bytes TextFrame mk msg) [])).
  - vm_compute. reflexivity.
  - reflexivity.
  - unfold max_int64. simpl. lia.
Defined.

(** A stream whose second byte is not the preamble's. *)
Lemma NewFrameReader_failures_witness :
  (ErrBadPreambule = ErrBadPreambule
   /\ exists i b, (i < 4)%nat
        /\ wire (demo_world [0x5A; 0; 1] [])
           = firstn i preambule ++ b :: wire (demo_world [1] [])
        /\ nth i preambule 0 <> b)
  \/ (ErrBadPreambule = read_end (demo_world [0x5A; 0; 1] [])
      /\ wire (demo_world [1] []) = []).
Proof.
  apply (NewFrameReader_failures (demo_world [0x5A; 0; 1] []) (demo_world [1] [])
           ErrBadPreambule).
  reflexivity.
Defined.

Lemma bad_preambule_is_not_resynchronised_witness :
  NewFrameReader (demo_world [0x5A; 0; 1] [])
  = (inr ErrBadPreambule, demo_world [1] []).
Proof.
  apply (bad_preambule_is_not_resynchronised 1 0 [1] (demo_world [0x5A; 0; 1] [])).
  - lia.
  - reflexivity.
  - vm_compute. discriminate.
Defined.

(** A binary frame that announces 2^63 bytes. *)
Lemma huge_length_reads_as_empty_frame_witness :
  let w := demo_world (preambule ++ 0x82 :: 127 :: big_endian 8 (2 ^ 63) ++ [1; 2; 3]) [] in
  exists r handler',
    NewFrameReader w = (inl r, set_read [1; 2; 3] (short w) w)
    /\ Length (header r) = 2 ^ 63 - 2 ^ 64
    /\ Length (header r) < 0
    /\ Conn_ReadFrame 1 (demo_conn false BinaryFrame 0) w
       = Returns (([], None), set_handled None handler' (demo_conn false BinaryFrame 0),
                  set_read [1; 2; 3] (short w) w).
Proof.
  intros w.
  apply (huge_length_reads_as_empty_frame 0x82 (2 ^ 63) [1; 2; 3]
           (demo_conn false BinaryFrame 0) w 0).
  - reflexivity.
  - reflexivity.
  - simpl. lia.
  - vm_compute. discriminate.
  - simpl. lia.
Defined.

(** A text frame without the final bit whose length 3 is sent in two bytes. *)
Lemma decoder_accepts_short_lengths_in_long_form_witness :
  let w := demo_world (preambule ++ 1 :: 126 :: big_endian 2 3 ++ [7; 8; 9]) [] in
  exists r,
    NewFrameReader w = (inl r, set_read [7; 8; 9] (short w) w)
    /\ Length (header r) = 3
    /\ Fin (header r) = Z.testbit 1 7
    /\ Rsv (header r) = (Z.testbit 1 6, Z.testbit 1 5, Z.testbit 1 4)
    /\ OpCode (header r) = Z.land 1 0x0f
    /\ MaskingKey (header r) = None
    /\ tcpFrameReader_Len r = 4 + 3.
Proof.
  intros w.
  apply (decoder_accepts_short_lengths_in_long_form 1 3 [7; 8; 9] w).
  - reflexivity.
  - lia.
Defined.

Lemma ReadFrame_returns_payload_witness :
  exists handler' w',
    Conn_ReadFrame 20 (demo_conn false BinaryFrame 0) (demo_world frame_of_twelve [])
    = Returns ((twelve, None), set_handled None handler' (demo_conn false BinaryFrame 0), w')
    /\ wire w' = []
    /\ read_end w' = read_end (demo_world frame_of_twelve []).
Proof.
  apply (ReadFrame_returns_payload BinaryFrame None twelve []
           (demo_conn false BinaryFrame 0) (demo_world frame_of_twelve []) 20).
  - reflexivity.
  - reflexivity.
  - exact I.
  - vm_compute. discriminate.
  - vm_compute. discriminate.
  - vm_compute. discriminate.
  - simpl. lia.
Defined.

(** A frame of twelve bytes of which three are on the stream. *)
Lemma ReadFrame_returns_truncated_payload_witness :
  let w := demo_world [0x5A; 0xA5; 0x5A; 0xA5; 0x82; 12; 1; 2; 3] [] in
  let r := mkReader 12 (mkHeader true (false, false, false) 2 12 None (Some [0x82; 12]))
                    0 14 in
  exists plain handler' w2,
    unmasks (MaskingKey (header r)) 0 (wire (demo_world [1; 2; 3] [])) plain
    /\ length plain = length (wire (demo_world [1; 2; 3] []))
    /\ Conn_ReadFrame 10 (demo_conn false BinaryFrame 0) w
       = Returns ((plain, match read_end w with EOF => None | e => Some e end),
                  set_handled None handler' (demo_conn false BinaryFrame 0), w2)
    /\ wire w2 = [].
Proof.
  intros w r.
  apply (ReadFrame_returns_truncated_payload (demo_conn false BinaryFrame 0) w
           (demo_world [1; 2; 3] []) r 10).
  - reflexivity.
  - reflexivity.
  - vm_compute. discriminate.
  - vm_compute. discriminate.
  - simpl. lia.
  - simpl. lia.
Defined.

(** A frame of twelve bytes above a maximum of ten, then one of two bytes. *)
Lemma ReadFrame_recovers_after_large_frame_witness :
  exists conn1 w1 conn2 w2,
    Conn_ReadFrame 20 (demo_conn false BinaryFrame 10)
      (demo_world (frame_of_twelve ++ frame_bytes BinaryFrame None [7; 7]) [])
    = Returns (([], Some ErrFrameTooLarge), conn1, w1)
    /\ Conn_ReadFrame 20 conn1 w1 = Returns (([7; 7], None), conn2, w2)
    /\ wire w2 = [].
Proof.
  apply (ReadFrame_recovers_after_large_frame BinaryFrame BinaryFrame None None
           twelve [7; 7] [] (demo_conn false BinaryFrame 10)
           (demo_world (frame_of_twelve ++ frame_bytes BinaryFrame None [7; 7]) []) 20).
  - reflexivity.
  - reflexivity.
  - exact I.
  - exact I.
  - vm_compute. discriminate.
  - vm_compute. discriminate.
  - vm_compute. discriminate.
  - vm_compute. reflexivity.
  - vm_compute. discriminate.
  - simpl. lia.
Defined.

(** Three bytes of a frame are left unread when [ReadFrame] is called. *)
Lemma ReadFrame_drops_frame_in_progress_witness :
  exists conn' w',
    Conn_ReadFrame 20 (demo_conn_reading three_left 0)
      (demo_world ([10; 11; 12] ++ frame_bytes TextFrame None [7; 7]) [])
    = Returns (([7; 7], None), conn', w')
    /\ conn_frameReader conn' = None
    /\ wire w' = [].
Proof.
  apply (ReadFrame_drops_frame_in_progress three_left [10; 11; 12] TextFrame None [7; 7] []
           (demo_conn_reading three_left 0)
           (demo_world ([10; 11; 12] ++ frame_bytes TextFrame None [7; 7]) []) 20).
  - reflexivity.
  - exists [10; 11; 12]. split; [vm_compute; reflexivity|].
    split; [reflexivity|]. split; [exact I | reflexivity].
  - exact I.
  - vm_compute. discriminate.
  - vm_compute. discriminate.
  - vm_compute. discriminate.
  - simpl. lia.
  - simpl. lia.
Defined.

(** A buffer of eight bytes for the three bytes left of a frame. *)
Lemma Read_stays_within_frame_witness :
  let w := demo_world ([10; 11; 12] ++ frame_bytes TextFrame None [7; 7]) [] in
  exists k r' w',
    (1 <= k <= 8)%nat /\ (k <= length [10; 11; 12])%nat
    /\ Conn_Read 1 8 (demo_conn_reading three_left 0) w
       = Returns ((firstn k [10; 11; 12], None),
                  set_frameReader (Some (TcpFrame r')) (demo_conn_reading three_left 0), w')
    /\ reading r' w' (skipn k [10; 11; 12]) (frame_bytes TextFrame None [7; 7]).
Proof.
  intros w.
  apply (Read_stays_within_frame 0 8 (demo_conn_reading three_left 0) w three_left
           [10; 11; 12] (frame_bytes TextFrame None [7; 7])).
  - reflexivity.
  - exists [10; 11; 12]. split; [vm_compute; reflexivity|].
    split; [reflexivity|]. split; [exact I | reflexivity].
  - discriminate.
  - lia.
Defined.

(** Two frames, read two bytes at a time with short reads. *)
Lemma Read_delivers_frames_in_order_witness :
  let w := demo_world (stream_of two_frames) [0; 2]%nat in
  let sizes := [2; 2; 2; 2; 2; 2]%nat in
  exists got err conn' w',
    read_calls 3 sizes (demo_conn false TextFrame 0) w = Returns ((got, err), conn', w')
    /\ (exists rest, payloads two_frames = got ++ rest)
    /\ ((length (payloads two_frames) < length sizes)%nat ->
        got = payloads two_frames /\ err = Some (read_end w)).
Proof.
  intros w sizes.
  apply (Read_delivers_frames_in_order two_frames (demo_conn false TextFrame 0) w sizes 3).
  - reflexivity.
  - reflexivity.
  - repeat constructor; vm_compute; discriminate.
  - repeat constructor.
  - simpl. lia.
Defined.

Lemma Read_into_empty_buffer_witness :
  exists r conn' w',
    Conn_Read 1 0 (demo_conn false BinaryFrame 0) (demo_world frame_of_twelve [])
    = Returns (([], None), conn', w')
    /\ conn_frameReader conn' = Some (TcpFrame r)
    /\ reading r w' twelve []
    /\ Conn_Read 1 0 conn' w' = Returns (([], None), conn', w').
Proof.
  apply (Read_into_empty_buffer BinaryFrame None twelve []
           (demo_conn false BinaryFrame 0) (demo_world frame_of_twelve []) 0).
  - reflexivity.
  - reflexivity.
  - exact I.
  - vm_compute. discriminate.
  - vm_compute. discriminate.
  - discriminate.
Defined.

(** Two masked messages, read back two bytes at a time. *)
Lemma writes_then_reads_witness :
  let msgs := [[1; 2]; [3; 4; 5]] in
  let conn := demo_conn true TextFrame 0 in
  let w := mkWorld [] EOF [0; 2]%nat [] None None None false [1; 2; 3; 4; 5; 6; 7; 8] in
  let sizes := [2; 2; 2; 2; 2; 2]%nat in
  exists counts w1 got err conn2 w2,
    write_calls msgs conn w = Returns (counts, conn, w1)
    /\ Forall (fun res => snd res = None) counts
    /\ read_calls 3 sizes conn w1 = Returns ((got, err), conn2, w2)
    /\ (exists rest, concat msgs = got ++ rest)
    /\ ((length (concat msgs) < length sizes)%nat ->
        got = concat msgs /\ err = Some (read_end w)).
Proof.
  intros msgs conn w sizes.
  apply (writes_then_reads msgs conn w sizes 3).
  - reflexivity.
  - reflexivity.
  - repeat split.
  - intros _. simpl. lia.
  - vm_compute. discriminate.
  - repeat constructor; vm_compute; discriminate.
  - repeat constructor.
  - simpl. lia.
Defined.

Lemma writes_then_ReadFrames_witness :
  let msgs := [[1; 2]; [3; 4; 5]] in
  let conn := demo_conn true TextFrame 0 in
  let w := mkWorld [] EOF [0; 2]%nat [] None None None false [1; 2; 3; 4; 5; 6; 7; 8] in
  exists counts w1 conn2 w2,
    write_calls msgs conn w = Returns (counts, conn, w1)
    /\ readframe_calls 10 (length msgs) conn w1
       = Returns (map (fun m => (m, None)) msgs, conn2, w2)
    /\ wire w2 = [].
Proof.
  intros msgs conn w.
  apply (writes_then_ReadFrames msgs conn w 10).
  - reflexivity.
  - reflexivity.
  - repeat split.
  - intros _. simpl. lia.
  - vm_compute. discriminate.
  - repeat constructor; try (vm_compute; discriminate); simpl; lia.
Defined.

(** The stream takes five bytes of a frame of eighteen. *)
Lemma Write_stops_where_the_stream_fails_witness :
  let w := mkWorld [] EOF [] [] None (Some (5%nat, ErrIO 1)) None false [] in
  let frame := frame_bytes BinaryFrame None twelve in
  exists w',
    Conn_Write twelve (demo_conn false BinaryFrame 0) w
    = Returns ((Z.of_nat (length frame), Some (ErrIO 1)), demo_conn false BinaryFrame 0, w')
    /\ wire w' = wire w ++ firstn 5 frame
    /\ bw_err w' = Some (ErrIO 1).
Proof.
  intros w frame.
  apply (Write_stops_where_the_stream_fails twelve (demo_conn false BinaryFrame 0) w 5
           (ErrIO 1)).
  - reflexivity.
  - reflexivity.
  - reflexivity.
  - intros H. discriminate H.
  - simpl. lia.
Defined.

Lemma Write_after_a_failure_sends_nothing_witness :
  let w := mkWorld [9] EOF [] [] (Some (ErrIO 1)) None None false [] in
  let frame := frame_bytes BinaryFrame None twelve in
  exists w',
    Conn_Write twelve (demo_conn false BinaryFrame 0) w
    = Returns ((Z.of_nat (length frame), Some (ErrIO 1)), demo_conn false BinaryFrame 0, w')
    /\ wire w' = wire w /\ pending w' = pending w
    /\ bw_err w' = Some (ErrIO 1).
Proof.
  intros w frame.
  apply (Write_after_a_failure_sends_nothing twelve (demo_conn false BinaryFrame 0) w
           (ErrIO 1)).
  - reflexivity.
  - intros H. discriminate H.
Defined.

(** A random source with three bytes left. *)
Lemma no_random_bytes_no_frame_witness :
  let conn := demo_conn true TextFrame 0 in
  let w := mkWorld [] EOF [] [] None None None false [1; 2; 3] in
  Conn_Write twelve conn w = Returns ((0, Some ErrRand), conn, w)
  /\ Conn_Close conn w = Returns (Some ErrRand, conn, set_closed w).
Proof.
  intros conn w.
  apply (no_random_bytes_no_frame twelve conn w).
  - reflexivity.
  - simpl. lia.
Defined.

(** The case of the test: status 1000, read into fourteen bytes. *)
Lemma WriteClose_is_read_as_end_of_stream_witness :
  exists w1 r w2 r' w3,
    tcpFrameHandler_WriteClose zero_tcpFrameHandler (mkWriterFactory false) 1000
      (demo_world [] [])
    = Returns (None, zero_tcpFrameHandler, w1)
    /\ NewFrameReader w1 = (inl r, w2)
    /\ tcpFrameHandler_HandleFrame (X := memFrame) zero_tcpFrameHandler (TcpFrame r)
       = Returns ((None, Some EOF), zero_tcpFrameHandler)
    /\ tcpFrameReader_Read r 14 w2
       = Returns (([(1000 mod 65536) / 256; 1000 mod 256], None), r', w3)
    /\ wire w3 = [].
Proof.
  apply (WriteClose_is_read_as_end_of_stream (X := memFrame) zero_tcpFrameHandler false
           1000 (demo_world [] []) 14).
  - repeat split.
  - reflexivity.
  - reflexivity.
  - intros H. discriminate H.
  - lia.
Defined.

Lemma Read_after_Close_is_EOF_witness :
  exists conn1 w1 conn2 w2,
    Conn_Close (demo_conn false TextFrame 0) (demo_world [] [])
    = Returns (close_err (demo_world [] []), conn1, w1)
    /\ closed w1 = true
    /\ Conn_Read 2 16 conn1 w1 = Returns (([], Some EOF), conn2, w2)
    /\ Conn_ReadFrame 1 conn1 w1 = Returns (([], Some EOF), conn2, w2)
    /\ conn_frameReader conn2 = None.
Proof.
  apply (Read_after_Close_is_EOF (demo_conn false TextFrame 0) (demo_world [] []) 0 16).
  - left. reflexivity.
  - repeat split.
  - reflexivity.
  - intros H. discriminate H.
Defined.

Lemma Read_and_ReadFrame_never_panic_witness :
  safely (Conn_Read 5 4 (demo_conn false TextFrame 0) (demo_world test_frame []))
    (fun '(_, conn', _) => codec_frame (conn_frameReader conn'))
  /\ safely (Conn_ReadFrame 5 (demo_conn false TextFrame 0) (demo_world test_frame []))
       (fun '(_, conn', _) => codec_frame (conn_frameReader conn')).
Proof.
  apply (Read_and_ReadFrame_never_panic 5 4 (demo_conn false TextFrame 0)
           (demo_world test_frame [])).
  exact I.
Defined.

(** The stream is empty with three bytes of the frame outstanding. *)
Lemma Read_at_truncated_payload_witness :
  exists conn',
    Conn_Read 2 8 (demo_conn_reading three_left 0) (demo_world [] [])
    = Returns (([], Some (read_end (demo_world [] []))), conn', demo_world [] [])
    /\ (read_end (demo_world [] []) = EOF -> conn_frameReader conn' = None).
Proof.
  apply (Read_at_truncated_payload 0 8 (demo_conn_reading three_left 0) (demo_world [] [])
           three_left).
  - reflexivity.
  - simpl. lia.
  - reflexivity.
  - exact I.
  - lia.
Defined.

(** The close frame of status 1000, followed by a text frame. *)
Lemma close_frame_payload_is_left_unread_witness :
  let w := demo_world (close_1000 ++ frame_bytes TextFrame None [7; 7]) [] in
  let conn := demo_conn false TextFrame 0 in
  exists w1 left,
    Conn_Read 1 16 conn w = Returns (([], Some EOF), conn, w1)
    /\ Conn_ReadFrame 1 conn w = Returns (([], Some EOF), conn, w1)
    /\ wire w1 = left ++ frame_bytes TextFrame None [7; 7]
    /\ unmasks None 0 left [0x03; 0xE8]
    /\ (forall b tl,
          wire w1 = b :: tl -> b <> 0x5A ->
          Conn_Read 1 16 conn w1
          = Returns (([], Some ErrBadPreambule), conn, set_read tl (short w1) w1)
          /\ Conn_ReadFrame 1 conn w1
             = Returns (([], Some ErrBadPreambule), conn, set_read tl (short w1) w1)).
Proof.
  intros w conn.
  apply (close_frame_payload_is_left_unread None [0x03; 0xE8]
           (frame_bytes TextFrame None [7; 7]) conn w 0 16).
  - reflexivity.
  - reflexivity.
  - exact I.
  - vm_compute. discriminate.
Defined.

(** * The errors of the read path *)

Lemma bufio_Read_suffix (want : nat) (w w' : World) (res : list Z * option error) :
  bufio_Read want w = (res, w') ->
  read_end w' = read_end w /\ exists before, wire w = before ++ wire w'.
Proof.
  unfold bufio_Read. destruct want as [| n].
  - intros [= <- <-]. split; [reflexivity | now exists []].
  - destruct (wire w) as [| b bs] eqn:E.
    + intros [= <- <-]. split; [reflexivity|]. exists []. now rewrite E.
    + intros [= <- <-]. cbn [read_end wire set_read]. split; [reflexivity|].
      eexists. symmetry. apply firstn_skipn.
Qed.

Lemma tcpFrameReader_Read_suffix (r r' : tcpFrameReader) (want : nat) (w w' : World)
    (res : list Z * option error) :
  tcpFrameReader_Read r want w = Returns (res, r', w') ->
  header r' = header r /\ read_end w' = read_end w
  /\ exists before, wire w = before ++ wire w'.
Proof.
  unfold tcpFrameReader_Read, LimitedReader_Read.
  destruct (limit r <=? 0).
  - destruct (MaskingKey (header r)); cbn [xor_key]; intros [= <- <- <-];
      (split; [reflexivity | split; [reflexivity | now exists []]]).
  - destruct (bufio_Read _ w) as [[bs err] w1] eqn:EB.
    apply bufio_Read_suffix in EB.
    destruct (MaskingKey (header r)) as [key |].
    + destruct (xor_key key (pos r) bs); [| discriminate].
      intros [= <- <- <-]. cbn [header]. tauto.
    + intros [= <- <- <-]. cbn [header]. tauto.
Qed.

Lemma NewFrameReader_fails_with (w w1 : World) (e : error) :
  NewFrameReader w = (inr e, w1) ->
  e = ErrBadPreambule \/ (e = read_end w /\ wire w1 = []).
Proof.
  unfold NewFrameReader.
  destruct (check_preambule preambule w) as [[e0 |] wa] eqn:Ep.
  { intros [= <- <-].
    apply check_preambule_fail in Ep as [(-> & _) | (-> & Hnil & _)]; auto. }
  pose proof (check_preambule_read_end _ _ _ _ Ep) as Ha.
  destruct (ReadByte wa) as [[b1 [e1 |]] wb] eqn:E1.
  { intros [= <- <-]. apply ReadByte_fail in E1 as (-> & -> & Hnil).
    right. split; [congruence | assumption]. }
  pose proof (ReadByte_read_end _ _ _ E1) as Hb.
  destruct (ReadByte wb) as [[b2 [e2 |]] wc] eqn:E2.
  { intros [= <- <-]. apply ReadByte_fail in E2 as (-> & -> & Hnil).
    right. split; [congruence | assumption]. }
  pose proof (ReadByte_read_end _ _ _ E2) as Hc.
  destruct (if Z.land b2 127 <=? 125 then (Z.land b2 127, 0%nat)
            else if Z.land b2 127 =? 126 then (0, 2%nat)
            else if Z.land b2 127 =? 127 then (0, 8%nat) else (0, 0%nat))
    as [len0 lengthFields].
  destruct (read_length lengthFields ([b1] ++ [b2]) len0 wc)
    as [[[hdr1 len] [e3 |]] wd] eqn:El.
  { intros [= <- <-]. apply read_length_fail in El as [-> Hnil].
    right. split; [congruence | assumption]. }
  pose proof (read_length_read_end _ _ _ _ _ _ El) as Hd.
  destruct (negb (Z.land b2 128 =? 0)).
  - destruct (read_mask 4 hdr1 [] wd) as [[[hdr2 key] [e4 |]] we] eqn:Em;
      [| discriminate].
    intros [= <- <-]. apply read_mask_fail in Em as [-> Hnil].
    right. split; [congruence | assumption].
  - discriminate.
Qed.

Lemma NewFrameReader_suffix (w w1 : World) (r : tcpFrameReader) :
  NewFrameReader w = (inl r, w1) ->
  read_end w1 = read_end w /\ exists before, wire w = before ++ wire w1.
Proof.
  intros Hnew.
  destruct (NewFrameReader_inv w w1 r Hnew) as (hdr & _ & Hw & Hw1 & _).
  split; [rewrite Hw1; reflexivity|].
  exists (preambule ++ hdr). now rewrite <- app_assoc.
Qed.

(** What is true of the rest of a stream is true of the stream. *)
Lemma ended_earlier (w w1 w' : World) :
  read_end w1 = read_end w ->
  (exists before, wire w = before ++ wire w1) ->
  after_close_frame w1 w' \/ at_end_of_stream w1 w' ->
  after_close_frame w w' \/ at_end_of_stream w w'.
Proof.
  intros Hre [b1 Hb1] [(w0 & r & [b0 Hb0] & Hnew & Hop) | [He Hnil]].
  - left. exists w0, r. split; [| split; assumption].
    exists (b1 ++ b0). now rewrite Hb1, Hb0, app_assoc.
  - right. split; [congruence | assumption].
Qed.

Section ReadPathErrors.
Context {X : Type} {XOps : FrameReaderOps X}.

Lemma HandleFrame_cases (handler : tcpFrameHandler) (r : tcpFrameReader) :
  (OpCode (header r) = CloseFrame
   /\ tcpFrameHandler_HandleFrame (X := X) handler (TcpFrame r)
      = Returns ((None, Some EOF), handler))
  \/ (OpCode (header r) <> CloseFrame
      /\ exists op handler',
          tcpFrameHandler_HandleFrame (X := X) handler (TcpFrame r)
          = Returns ((Some (TcpFrame (set_OpCode op r)), None), handler')).
Proof.
  destruct (Z.eq_dec (OpCode (header r)) CloseFrame) as [E | E].
  - left. split; [exact E | now apply HandleFrame_close].
  - right. split; [exact E | now apply HandleFrame_passes].
Qed.

Lemma io_Copy_Discard_error (fuel : nat) :
  forall (frame frame' : frameReader X) (w w' : World) (e : error),
    io_Copy_Discard fuel frame w = Returns (Some e, frame', w') -> e <> EOF.
Proof.
  induction fuel as [| fuel IH]; intros frame frame' w w' e; [discriminate|].
  cbn [io_Copy_Discard].
  destruct (frame_Read frame discard_block w) as [[[[bs err] f1] w1] | |];
    cbn [bind]; try discriminate.
  destruct err as [e0 |]; [| apply IH].
  destruct e0; cbn [is_EOF]; intros HR; inversion HR; subst; discriminate.
Qed.

Lemma io_ReadAll_error (fuel : nat) :
  forall (acc bs : list Z) (frame frame' : frameReader X) (w w' : World) (e : error),
    io_ReadAll fuel acc frame w = Returns ((bs, Some e), frame', w') -> e <> EOF.
Proof.
  induction fuel as [| fuel IH]; intros acc bs frame frame' w w' e; [discriminate|].
  cbn [io_ReadAll].
  destruct (frame_Read frame readall_block w) as [[[[bs0 err] f1] w1] | |];
    cbn [bind]; try discriminate.
  destruct err as [e0 |]; [| apply IH].
  destruct e0; cbn [is_EOF]; intros HR; inversion HR; subst; discriminate.
Qed.

Lemma io_Copy_Discard_suffix (fuel : nat) :
  forall (r : tcpFrameReader) (frame' : frameReader X) (w w' : World)
         (err : option error),
    io_Copy_Discard fuel (TcpFrame r) w = Returns (err, frame', w') ->
    read_end w' = read_end w /\ exists before, wire w = before ++ wire w'.
Proof.
  induction fuel as [| fuel IH]; intros r frame' w w' err; [discriminate|].
  cbn [io_Copy_Discard frame_Read].
  destruct (tcpFrameReader_Read r discard_block w) as [[[[bs err0] r1] w1] | |] eqn:ER;
    cbn [bind]; try discriminate.
  apply tcpFrameReader_Read_suffix in ER as (_ & Hre & [b1 Hb1]).
  destruct err0 as [e0 |].
  - intros HR. inversion HR; subst. split; [assumption | now exists b1].
  - intros HR. apply IH in HR as [Hre' [b2 Hb2]].
    split; [congruence|]. exists (b1 ++ b2). now rewrite Hb1, Hb2, app_assoc.
Qed.

(** The stream ends with [EOF] inside the payload that is being discarded. *)
Lemma io_Copy_Discard_starved (fuel : nat) :
  forall r w plain,
    starved r w plain -> read_end w = EOF -> (length plain < fuel)%nat ->
    exists r' w',
      io_Copy_Discard (X := X) fuel (TcpFrame r) w = Returns (None, TcpFrame r', w')
      /\ wire w' = [].
Proof.
  induction fuel as [| fuel IH]; intros r w plain Hs He Hlen; [lia|].
  cbn [io_Copy_Discard frame_Read].
  destruct plain as [| b plain'] eqn:Ep.
  - destruct (tcpFrameReader_Read_starved_end r w discard_block Hs) as (r' & -> & _);
      [unfold discard_block; lia|].
    cbn [bind]. rewrite He. cbn [is_EOF]. exists r', w.
    split; [reflexivity | apply (starved_nil r w Hs)].
  - destruct (tcpFrameReader_Read_starved_step r w (b :: plain') discard_block Hs)
      as (k & r' & w' & Hk & HR & Hs' & He');
      [discriminate | unfold discard_block; lia |].
    rewrite HR. cbn [bind].
    apply (IH r' w' _ Hs'); [congruence|].
    pose proof (firstn_skipn_length_lt k (b :: plain') Hk ltac:(discriminate)). lia.
Qed.

Lemma Conn_Read_EOF (want : nat) :
  forall (fuel : nat) (conn conn' : @Conn X tcpFrameHandler) (w w' : World)
         (bs : list Z),
    codec_frame (conn_frameReader conn) ->
    Conn_Read fuel want conn w = Returns ((bs, Some EOF), conn', w') ->
    bs = [] /\ (after_close_frame w w' \/ at_end_of_stream w w').
Proof.
  induction fuel as [| fuel IH]; intros conn conn' w w' bs Hc; [discriminate|].
  assert (Hactive : forall r (c : @Conn X tcpFrameHandler) w0,
            read_end w0 = read_end w ->
            (exists before, wire w = before ++ wire w0) ->
            ('((bs0, err), frame', w1) <- frame_Read (TcpFrame r) want w0 ;;
             if is_EOF err
             then Conn_Read fuel want (set_frameReader None c) w1
             else Returns ((bs0, err), set_frameReader (Some frame') c, w1))
            = Returns ((bs, Some EOF), conn', w') ->
            bs = [] /\ (after_close_frame w w' \/ at_end_of_stream w w')).
  { intros r c w0 Hre [b0 Hb0]. cbn [frame_Read].
    destruct (tcpFrameReader_Read r want w0) as [[[[bs0 err] r1] w1] | |] eqn:ER;
      cbn [bind]; try discriminate.
    apply tcpFrameReader_Read_suffix in ER as (_ & Hre1 & [b1 Hb1]).
    destruct (is_EOF err) eqn:Eeof.
    - intros HR. apply IH in HR; [| exact I]. destruct HR as [-> HR].
      split; [reflexivity|].
      apply (ended_earlier w w1 w'); [congruence | | exact HR].
      exists (b0 ++ b1). now rewrite Hb0, Hb1, app_assoc.
    - intros HR. inversion HR; subst. discriminate Eeof. }
  cbn [Conn_Read].
  destruct (conn_frameReader conn) as [[r | x] |] eqn:Efr; cbn [codec_frame] in Hc.
  - apply Hactive; [reflexivity | now exists []].
  - contradiction.
  - destruct (NewFrameReader w) as [[r | e] w1] eqn:Enew.
    + destruct (NewFrameReader_suffix w w1 r Enew) as [Hre Hsuf].
      change (HandleFrame (conn_frameHandler conn) (TcpFrame r))
        with (tcpFrameHandler_HandleFrame (conn_frameHandler conn) (TcpFrame (X := X) r)).
      destruct (HandleFrame_cases (conn_frameHandler conn) r)
        as [[Hop ->] | [Hop (op & h' & ->)]]; cbn [bind].
      * intros HR. inversion HR; subst. split; [reflexivity|].
        left. exists w, r. split; [now exists [] | split; assumption].
      * apply Hactive; assumption.
    + intros HR. inversion HR; subst. split; [reflexivity|].
      apply NewFrameReader_fails_with in Enew as [Hbad | [He Hnil]]; [discriminate|].
      right. split; [congruence | assumption].
Qed.

Lemma ReadFrame_loop_EOF (fuel : nat) (conn conn' : @Conn X tcpFrameHandler)
    (w w' : World) (bs : list Z) :
  ReadFrame_loop fuel conn w = Returns ((bs, Some EOF), conn', w') ->
  bs = [] /\ (after_close_frame w w' \/ at_end_of_stream w w').
Proof.
  destruct fuel as [| fuel]; [discriminate|].
  cbn [ReadFrame_loop].
  destruct (NewFrameReader w) as [[r | e] w1] eqn:Enew.
  - change (HandleFrame (conn_frameHandler conn) (TcpFrame r))
      with (tcpFrameHandler_HandleFrame (conn_frameHandler conn) (TcpFrame (X := X) r)).
    destruct (HandleFrame_cases (conn_frameHandler conn) r)
      as [[Hop ->] | [Hop (op & h' & ->)]]; cbn [bind].
    + intros HR. inversion HR; subst. split; [reflexivity|].
      left. exists w, r. split; [now exists [] | split; assumption].
    + destruct (_ <? Length (header (set_OpCode op r))).
      * destruct (io_Copy_Discard (S fuel) (TcpFrame (set_OpCode op r)) w1)
          as [[[err fr'] w2] | |] eqn:ED; cbn [bind]; try discriminate.
        destruct err as [e |]; intros HR; inversion HR; subst.
        exfalso. now apply (io_Copy_Discard_error _ _ _ _ _ _ ED).
      * destruct (io_ReadAll (S fuel) [] (TcpFrame (set_OpCode op r)) w1)
          as [[[[bs0 err] fr'] w2] | |] eqn:EA; cbn [bind]; try discriminate.
        intros HR. inversion HR; subst.
        exfalso. now apply (io_ReadAll_error _ _ _ _ _ _ _ _ EA).
  - intros HR. inversion HR; subst. split; [reflexivity|].
    apply NewFrameReader_fails_with in Enew as [Hbad | [He Hnil]]; [discriminate|].
    right. split; [congruence | assumption].
Qed.

Lemma Conn_ReadFrame_EOF (fuel : nat) (conn conn' : @Conn X tcpFrameHandler)
    (w w' : World) (bs : list Z) :
  codec_frame (conn_frameReader conn) ->
  Conn_ReadFrame fuel conn w = Returns ((bs, Some EOF), conn', w') ->
  bs = [] /\ (after_close_frame w w' \/ at_end_of_stream w w').
Proof.
  intros Hc. unfold Conn_ReadFrame.
  destruct (conn_frameReader conn) as [[r | x] |] eqn:Efr; cbn [codec_frame] in Hc.
  - destruct (io_Copy_Discard fuel (TcpFrame r) w) as [[[err fr'] w1] | |] eqn:ED;
      cbn [bind]; try discriminate.
    destruct err as [e |].
    + intros HR. inversion HR; subst.
      exfalso. now apply (io_Copy_Discard_error _ _ _ _ _ _ ED).
    + intros HR. apply ReadFrame_loop_EOF in HR as [-> HR]. split; [reflexivity|].
      destruct (io_Copy_Discard_suffix _ _ _ _ _ _ ED) as [Hre Hsuf].
      now apply (ended_earlier w w1 w').
  - contradiction.
  - apply ReadFrame_loop_EOF.
Qed.

(** C2.  For every incoming frame that comes to the size check of
  [Conn.ReadFrame] (every frame but a close frame, which the handler
  answers before), and whose payload length exceeds the maximum
  ([MaxPayloadBytes], 32 MiB when it is 0): [Conn.ReadFrame], which has
  first drained the frame in progress if there was one, discards the
  payload, fails with [ErrFrameTooLarge] and returns no data.  The
  payload is on the stream, or the stream ends with [EOF] before it is
  through. *)
Theorem ReadFrame_rejects_large_payload (conn : @Conn X tcpFrameHandler)
    (w0 w w1 : World) (r : tcpFrameReader) (fuel : nat) :
  drained_to fuel (conn_frameReader conn) w0 w ->
  NewFrameReader w = (inl r, w1) ->
  OpCode (header r) <> CloseFrame ->
  effective_max (MaxPayloadBytes conn) < Length (header r) ->
  (Z.to_nat (Length (header r)) <= length (wire w1))%nat \/ read_end w1 = EOF ->
  (Nat.min (Z.to_nat (Length (header r))) (length (wire w1)) < fuel)%nat ->
  exists handler' w2,
    Conn_ReadFrame fuel conn w0
    = Returns (([], Some ErrFrameTooLarge), set_handled None handler' conn, w2)
    /\ wire w2 = skipn (Z.to_nat (Length (header r))) (wire w1).
Proof.
  intros Hdr Hnew Hop Hmax Hav Hfuel.
  destruct (NewFrameReader_inv w w1 r Hnew)
    as (hdr & _ & _ & _ & Hlim & Hpos & Hk & _).
  destruct (HandleFrame_passes (X := X) (conn_frameHandler conn) r Hop)
    as (op & h' & Hh').
  destruct fuel as [| fuel]; [lia|].
  assert (HD : exists r' w2,
             io_Copy_Discard (X := X) (S fuel) (TcpFrame (set_OpCode op r)) w1
             = Returns (None, TcpFrame r', w2)
             /\ wire w2 = skipn (Z.to_nat (Length (header r))) (wire w1)).
  { destruct (le_lt_dec (Z.to_nat (Length (header r))) (length (wire w1))) as [Hle | Hlt].
    - destruct (io_Copy_Discard_decoded (S fuel) (set_OpCode op r) w1)
        as (r' & w2 & HD & Hw2 & _);
        [exact Hk | cbn [limit set_OpCode]; lia | cbn [limit set_OpCode]; lia |].
      exists r', w2. split; [exact HD|].
      rewrite Hw2. cbn [limit set_OpCode]. now rewrite Hlim.
    - destruct Hav as [Hav | He]; [lia|].
      assert (Hplain : exists plain,
                 unmasks (MaskingKey (header r)) 0 (wire w1) plain).
      { destruct (MaskingKey (header r)) as [k |]; simpl.
        - apply xor_key_total. exact Hk.
        - now eexists. }
      destruct Hplain as [plain Hu].
      pose proof (unmasks_length _ _ _ _ Hu) as Hlen.
      destruct (io_Copy_Discard_starved (S fuel) (set_OpCode op r) w1 plain)
        as (r' & w2 & HD & Hw2).
      { unfold starved. cbn [limit header pos set_OpCode MaskingKey].
        rewrite Hlim, Hpos. repeat split; try assumption. lia. }
      { exact He. }
      { lia. }
      exists r', w2. split; [exact HD|].
      rewrite Hw2. symmetry. apply skipn_all2. lia. }
  destruct HD as (r' & w2 & HD & Hw2).
  exists h', w2. split; [| exact Hw2].
  assert (Hloop : forall c : @Conn X tcpFrameHandler,
            conn_frameHandler c = conn_frameHandler conn ->
            MaxPayloadBytes c = MaxPayloadBytes conn ->
            ReadFrame_loop (S fuel) c w
            = Returns (([], Some ErrFrameTooLarge),
                       set_handled (conn_frameReader c) h' c, w2)).
  { intros c Hch Hcm. cbn [ReadFrame_loop]. rewrite Hnew, Hch.
    change (HandleFrame (conn_frameHandler conn) (TcpFrame r))
      with (tcpFrameHandler_HandleFrame (conn_frameHandler conn) (TcpFrame (X := X) r)).
    rewrite Hh'. cbn [bind]. cbn [MaxPayloadBytes set_handled]. rewrite Hcm.
    change (Length (header (set_OpCode op r))) with (Length (header r)).
    fold (effective_max (MaxPayloadBytes conn)).
    destruct (effective_max (MaxPayloadBytes conn) <? Length (header r)) eqn:E; [| lia].
    rewrite HD. reflexivity. }
  unfold Conn_ReadFrame, drained_to in *.
  destruct (conn_frameReader conn) as [frame |] eqn:Efr.
  - destruct Hdr as [frame' ->]. cbn [bind].
    rewrite (Hloop (set_frameReader None conn) eq_refl eq_refl). reflexivity.
  - subst w0. rewrite (Hloop conn eq_refl eq_refl). now rewrite Efr.
Qed.

(** C3.  A decoded frame with the close opcode makes the handler signal
  [EOF] without returning the frame, and [Conn.Read] and [Conn.ReadFrame]
  return that [EOF] as their failure.  For every other opcode the handler
  returns a frame and no error, and [Conn.Read] goes on with that frame.
  It is the sole way: when [Conn.Read] or [Conn.ReadFrame] fails with
  [EOF], it returns no data, and either a close frame was decoded and the
  stream is left right after its header, or the stream itself ended with
  [EOF] and was read to its end. *)
Theorem close_frame_is_end_of_stream :
  (forall (conn : @Conn X tcpFrameHandler) (w w1 : World) (r : tcpFrameReader)
          (fuel want : nat),
      conn_frameReader conn = None ->
      NewFrameReader w = (inl r, w1) ->
      OpCode (header r) = CloseFrame ->
      tcpFrameHandler_HandleFrame (X := X) (conn_frameHandler conn) (TcpFrame r)
      = Returns ((None, Some EOF), conn_frameHandler conn)
      /\ Conn_Read (S fuel) want conn w = Returns (([], Some EOF), conn, w1)
      /\ Conn_ReadFrame (S fuel) conn w = Returns (([], Some EOF), conn, w1))
  /\ (forall (conn : @Conn X tcpFrameHandler) (w w1 : World) (r : tcpFrameReader)
             (fuel want : nat),
         conn_frameReader conn = None ->
         NewFrameReader w = (inl r, w1) ->
         OpCode (header r) <> CloseFrame ->
         exists frame handler',
           tcpFrameHandler_HandleFrame (X := X) (conn_frameHandler conn) (TcpFrame r)
           = Returns ((Some frame, None), handler')
           /\ Conn_Read (S fuel) want conn w
              = Conn_Read (S fuel) want (set_handled (Some frame) handler' conn) w1)
  /\ (forall (fuel want : nat) (conn conn' : @Conn X tcpFrameHandler) (w w' : World)
             (bs : list Z),
         codec_frame (conn_frameReader conn) ->
         Conn_Read fuel want conn w = Returns ((bs, Some EOF), conn', w') ->
         bs = [] /\ (after_close_frame w w' \/ at_end_of_stream w w'))
  /\ (forall (fuel : nat) (conn conn' : @Conn X tcpFrameHandler) (w w' : World)
             (bs : list Z),
         codec_frame (conn_frameReader conn) ->
         Conn_ReadFrame fuel conn w = Returns ((bs, Some EOF), conn', w') ->
         bs = [] /\ (after_close_frame w w' \/ at_end_of_stream w w')).
Proof.
  split; [| split; [| split]].
  - intros conn w w1 r fuel want Hnone Hnew E.
    pose proof (HandleFrame_close (X := X) (conn_frameHandler conn) r E) as Hh.
    assert (Hsame : set_handled None (conn_frameHandler conn) conn = conn).
    { destruct conn; simpl in *; now subst. }
    split; [exact Hh|]. split.
    + cbn [Conn_Read]. rewrite Hnone, Hnew.
      change (HandleFrame (conn_frameHandler conn) (TcpFrame r))
        with (tcpFrameHandler_HandleFrame (conn_frameHandler conn) (TcpFrame (X := X) r)).
      rewrite Hh. cbn [bind]. now rewrite Hsame.
    + unfold Conn_ReadFrame. rewrite Hnone. cbn [ReadFrame_loop]. rewrite Hnew.
      change (HandleFrame (conn_frameHandler conn) (TcpFrame r))
        with (tcpFrameHandler_HandleFrame (conn_frameHandler conn) (TcpFrame (X := X) r)).
      rewrite Hh. cbn [bind]. now rewrite Hnone, Hsame.
  - intros conn w w1 r fuel want Hnone Hnew E.
    destruct (HandleFrame_passes (X := X) (conn_frameHandler conn) r E) as (op & h' & Hh).
    eexists _, _. split; [exact Hh|].
    cbn [Conn_Read]. rewrite Hnone, Hnew.
    change (HandleFrame (conn_frameHandler conn) (TcpFrame r))
      with (tcpFrameHandler_HandleFrame (conn_frameHandler conn) (TcpFrame (X := X) r)).
    rewrite Hh. reflexivity.
  - intros fuel want conn conn' w w' bs. apply Conn_Read_EOF.
  - intros fuel conn conn' w w' bs. apply Conn_ReadFrame_EOF.
Qed.
End ReadPathErrors.

(** ** Concrete runs on the errors of the read path *)

(** The case of the test: a payload of twelve bytes and a maximum of ten. *)
Lemma ReadFrame_rejects_large_payload_witness :
  Conn_Write twelve (demo_conn false BinaryFrame 10) (demo_world [] [])
  = Returns ((18, None), demo_conn false BinaryFrame 10, demo_world frame_of_twelve [])
  /\ exists handler' w2,
      Conn_ReadFrame 20 (demo_conn false BinaryFrame 10) (demo_world frame_of_twelve [])
      = Returns (([], Some ErrFrameTooLarge),
                 set_handled None handler' (demo_conn false BinaryFrame 10), w2)
      /\ wire w2 = [].
Proof.
  split; [reflexivity|].
  apply (ReadFrame_rejects_large_payload (demo_conn false BinaryFrame 10)
           (demo_world frame_of_twelve []) (demo_world frame_of_twelve [])
           (demo_world twelve [])
           (mkReader 12 (mkHeader true (false, false, false) 2 12 None (Some [0x82; 12]))
                     0 14)
           20).
  - reflexivity.
  - reflexivity.
  - vm_compute. discriminate.
  - vm_compute. reflexivity.
  - left. simpl. lia.
  - simpl. lia.
Defined.

(** With three bytes of a frame still unread, and three bytes on the
    stream of the twelve that the next frame announces. *)
Example ReadFrame_rejects_large_payload_run :
  Conn_ReadFrame 20 (demo_conn_reading three_left 10)
    (demo_world ([10; 11; 12] ++ [0x5A; 0xA5; 0x5A; 0xA5; 0x82; 12; 1; 2; 3]) [])
  = Returns (([], Some ErrFrameTooLarge),
             mkConn None (mkWriterFactory false) (mkHandler BinaryFrame) BinaryFrame
                    closeStatusNormal 10,
             demo_world [] []).
Proof. reflexivity. Qed.

(** The close frame of status 1000 on the stream. *)
Lemma close_frame_is_end_of_stream_witness :
  (tcpFrameHandler_HandleFrame (X := memFrame) zero_tcpFrameHandler
     (TcpFrame (mkReader 2 (mkHeader true (false, false, false) 8 2 None (Some [0x88; 2]))
                         0 4))
   = Returns ((None, Some EOF), zero_tcpFrameHandler)
   /\ Conn_Read 1 16 (demo_conn false TextFrame 0) (demo_world close_1000 [])
      = Returns (([], Some EOF), demo_conn false TextFrame 0, demo_world [0x03; 0xE8] [])
   /\ Conn_ReadFrame 1 (demo_conn false TextFrame 0) (demo_world close_1000 [])
      = Returns (([], Some EOF), demo_conn false TextFrame 0, demo_world [0x03; 0xE8] []))
  /\ (after_close_frame (demo_world close_1000 []) (demo_world [0x03; 0xE8] [])
      \/ at_end_of_stream (demo_world close_1000 []) (demo_world [0x03; 0xE8] [])).
Proof.
  destruct (close_frame_is_end_of_stream (X := memFrame)) as (Hclose & _ & Hsole & _).
  split.
  - exact (Hclose (demo_conn false TextFrame 0)
             (demo_world close_1000 []) (demo_world [0x03; 0xE8] [])
             (mkReader 2 (mkHeader true (false, false, false) 8 2 None (Some [0x88; 2])) 0 4)
             0%nat 16%nat eq_refl eq_refl eq_refl).
  - exact (proj2 (Hsole 1%nat 16%nat (demo_conn false TextFrame 0)
                    (demo_conn false TextFrame 0)
                    (demo_world close_1000 []) (demo_world [0x03; 0xE8] []) []
                    I eq_refl)).
Defined.

(** A text frame does not end the stream: [Conn.Read] returns its payload. *)
Example text_frame_is_not_end_of_stream :
  Conn_Read 1 16 (demo_conn false TextFrame 0)
    (demo_world (frame_bytes TextFrame None [7; 7]) [])
  = Returns (([7; 7], None),
             mkConn (Some (TcpFrame (mkReader 0
                       (mkHeader true (false, false, false) 1 2 None (Some [0x81; 2]))
                       0 4)))
                    (mkWriterFactory false) (mkHandler TextFrame) TextFrame
                    closeStatusNormal 0,
             demo_world [] []).
Proof. reflexivity. Qed.
